(** * install-from-cache: a shallow embedding of [bin/install-from-cache.js]

    The script fetches a prebuilt native add-on from a release host,
    decompresses it, verifies it, and falls back to [npm run rebuild]
    whenever a step fails.  Every function of the script is embedded below
    as a Rocq function over an explicit description of the outside world
    (environment variables, command line, file system, release host, child
    processes); what the script does to the outside world is recorded as a
    list of events.

    Conventions.
    - A JavaScript string is a [string]; its characters are 8-bit code
      units.  The patterns of the script only name ASCII characters, and
      case folding never sends a non-ASCII code unit to an ASCII one, so
      nothing is lost for the patterns at hand.
    - A value that can be [undefined], [null] or [false] is an [option];
      [truthy] is the test JavaScript applies to it in [!x], [x || y] and
      [x && y]: the empty string counts as absent.
    - [process.env] is a finite map from names to strings.  The names the
      script spells out are looked up in the map; the one name it computes
      ([--host-var]) is looked up as JavaScript does for any object,
      through [JS.get_property], which also finds what every object
      inherits. *)

From Stdlib Require Import ZArith String Ascii List Bool Lia.
From stdpp Require Import gmap strings list.

Local Open Scope string_scope.
Local Open Scope list_scope.

(** ** JavaScript values *)

Module JS.

(** [!!x] for a value that is a string, or absent. *)
Definition truthy (v : option string) : bool :=
  match v with
  | Some s => negb (String.eqb s "")
  | None => false
  end.

(** [a || b] *)
Definition or (a b : option string) : option string :=
  if truthy a then a else b.

(** [x || ''], the value stored by an assignment [process.env.K = x || '']. *)
Definition or_empty (a : option string) : string :=
  match or a (Some "") with
  | Some s => s
  | None => ""
  end.

(** A value spliced into a template literal. *)
Definition interpolate (v : option string) : string :=
  match v with
  | Some s => s
  | None => "undefined"
  end.

(** The properties that every object inherits from [Object.prototype], as
    [||] and a template literal see them: each of them is truthy; a native
    function prints as its source text, and [__proto__] gives the prototype
    itself. *)
Definition Object_prototype (k : string) : option string :=
  if existsb (String.eqb k)
       ["__defineGetter__"; "__defineSetter__"; "hasOwnProperty";
        "__lookupGetter__"; "__lookupSetter__"; "isPrototypeOf";
        "propertyIsEnumerable"; "toString"; "valueOf"; "toLocaleString"]
  then Some ("function " +:+ k +:+ "() { [native code] }")
  else if String.eqb k "constructor" then Some "function Object() { [native code] }"
  else if String.eqb k "__proto__" then Some "[object Object]"
  else None.

(** [o[k]] for an object whose own properties are the entries of [o]: the
    own property if there is one, else the inherited one. *)
Definition get_property (o : gmap string string) (k : string) : option string :=
  match o !! k with
  | Some v => Some v
  | None => Object_prototype k
  end.

(** [s.indexOf(t) >= 0] *)
Fixpoint includes (t s : string) : bool :=
  String.prefix t s ||
  match s with
  | EmptyString => false
  | String _ s' => includes t s'
  end.

End JS.

(** ** Regular expressions

    A backtracking matcher for the fragment of the JavaScript pattern
    language that the script uses.  Alternatives are tried left to right,
    quantifiers are greedy, and a match is the first one found in that
    order, as in ECMAScript. *)

Module Regex.

Inductive regex : Type :=
| Empty
| Char (c : ascii)               (* a literal character *)
| Dot                            (* [.]: anything but a line terminator *)
| NotSet (cs : list ascii)       (* [[^...]] *)
| Seq (r1 r2 : regex)
| Alt (r1 r2 : regex)            (* [r1|r2] *)
| Opt (r : regex)                (* [r?] *)
| Plus (r : regex)               (* [r+] *)
| Group (n : nat) (r : regex)    (* [(r)], the n-th capture *)
| Bol                            (* [^] *)
| Eol                            (* [$] *)
| WordBoundary.                  (* [\b] *)

(** A pattern with its flags; only [i] occurs in the script. *)
Record RegExp : Type := mkRegExp { source : regex; ignoreCase : bool }.

Fixpoint lit (s : string) : regex :=
  match s with
  | EmptyString => Empty
  | String c EmptyString => Char c
  | String c t => Seq (Char c) (lit t)
  end.

Fixpoint seqs (rs : list regex) : regex :=
  match rs with
  | [] => Empty
  | [r] => r
  | r :: rs' => Seq r (seqs rs')
  end.

Fixpoint alts (rs : list regex) : regex :=
  match rs with
  | [] => Empty
  | [r] => r
  | r :: rs' => Alt r (alts rs')
  end.

(** Canonicalize of ECMAScript for a pattern with the [i] flag (upper case),
    the identity without it. *)
Definition canonicalize (icase : bool) (c : ascii) : ascii :=
  let n := nat_of_ascii c in
  if icase && (97 <=? n)%nat && (n <=? 122)%nat then ascii_of_nat (n - 32) else c.

Definition char_eq (icase : bool) (a b : ascii) : bool :=
  Ascii.eqb (canonicalize icase a) (canonicalize icase b).

Definition in_set (icase : bool) (cs : list ascii) (a : ascii) : bool :=
  existsb (char_eq icase a) cs.

(** LineTerminator, among 8-bit code units: LF and CR. *)
Definition is_line_terminator (a : ascii) : bool :=
  let n := nat_of_ascii a in (n =? 10)%nat || (n =? 13)%nat.

(** [\w]: letters, digits and the underscore. *)
Definition is_word_char (a : ascii) : bool :=
  let n := nat_of_ascii a in
  ((48 <=? n)%nat && (n <=? 57)%nat) || ((65 <=? n)%nat && (n <=? 90)%nat) ||
  ((97 <=? n)%nat && (n <=? 122)%nat) || (n =? 95)%nat.

Definition is_word (c : option ascii) : bool :=
  match c with
  | Some a => is_word_char a
  | None => false
  end.

(** The state of a match attempt: the index reached, the character before
    it, the input from it on, and the captures so far. *)
Record mstate : Type := MState {
  m_pos : nat;
  m_prev : option ascii;
  m_rest : string;
  m_caps : gmap nat string
}.

Definition next_char (st : mstate) : option ascii :=
  match m_rest st with
  | EmptyString => None
  | String a _ => Some a
  end.

(** Consume one character if it satisfies [p]. *)
Definition eat (p : ascii -> bool) (st : mstate)
    (k : mstate -> option mstate) : option mstate :=
  match m_rest st with
  | EmptyString => None
  | String a t =>
      if p a then k (MState (S (m_pos st)) (Some a) t (m_caps st)) else None
  end.

Definition set_capture (n : nat) (start st : mstate) : mstate :=
  MState (m_pos st) (m_prev st) (m_rest st)
         (<[n := substring 0 (m_pos st - m_pos start) (m_rest start)]> (m_caps st)).

(** Greedy repetition: one more iteration if it matches and the rest of the
    pattern then matches, else the rest of the pattern here.  An iteration
    consumes input, so the length of the input bounds their number. *)
Fixpoint rloop (step : mstate -> (mstate -> option mstate) -> option mstate)
    (fuel : nat) (st : mstate) (k : mstate -> option mstate) : option mstate :=
  match fuel with
  | O => k st
  | S fuel' =>
      match step st (fun st' =>
                       if (m_pos st <? m_pos st')%nat
                       then rloop step fuel' st' k else None) with
      | Some r => Some r
      | None => k st
      end
  end.

Fixpoint rmatch (icase : bool) (r : regex) (st : mstate)
    (k : mstate -> option mstate) : option mstate :=
  match r with
  | Empty => k st
  | Char c => eat (fun a => char_eq icase a c) st k
  | Dot => eat (fun a => negb (is_line_terminator a)) st k
  | NotSet cs => eat (fun a => negb (in_set icase cs a)) st k
  | Seq r1 r2 => rmatch icase r1 st (fun st' => rmatch icase r2 st' k)
  | Alt r1 r2 =>
      match rmatch icase r1 st k with
      | Some res => Some res
      | None => rmatch icase r2 st k
      end
  | Opt r1 =>
      match rmatch icase r1 st k with
      | Some res => Some res
      | None => k st
      end
  | Plus r1 =>
      rmatch icase r1 st
        (fun st' => rloop (rmatch icase r1) (String.length (m_rest st')) st' k)
  | Group n r1 => rmatch icase r1 st (fun st' => k (set_capture n st st'))
  | Bol => if (m_pos st =? 0)%nat then k st else None
  | Eol => match m_rest st with EmptyString => k st | _ => None end
  | WordBoundary =>
      if xorb (is_word (m_prev st)) (is_word (next_char st)) then k st else None
  end.

(** One attempt at a given index; the result is the match array, with the
    matched text at index 0 and the captures after it. *)
Definition match_at (re : RegExp) (pos : nat) (prev : option ascii)
    (rest : string) : option (gmap nat string) :=
  let st := MState pos prev rest ∅ in
  match rmatch (ignoreCase re) (source re) st Some with
  | Some st' => Some (m_caps (set_capture 0 st st'))
  | None => None
  end.

(** [re.exec(s)] for a pattern without the [g] and [y] flags: the first
    index, from 0 up to the length of the input, at which a match exists. *)
Fixpoint exec_from (re : RegExp) (pos : nat) (prev : option ascii)
    (rest : string) : option (gmap nat string) :=
  match match_at re pos prev rest with
  | Some res => Some res
  | None =>
      match rest with
      | EmptyString => None
      | String a t => exec_from re (S pos) (Some a) t
      end
  end.

Definition exec (re : RegExp) (s : string) : option (gmap nat string) :=
  exec_from re 0 None s.

(** [re.test(s)] *)
Definition test (re : RegExp) (s : string) : bool :=
  match exec re s with
  | Some _ => true
  | None => false
  end.

End Regex.

Import Regex.

(** ** The repository patterns (lines 39-43) *)

(** [/^(?:https?|git|git\+ssh|git\+https?):\/\/github.com\/([^\/]+)\/([^\/\.]+)(?:\/|\.git\b|$)/i] *)
Definition re_github_url : RegExp :=
  mkRegExp
    (seqs [Bol;
           alts [Seq (lit "http") (Opt (Char "s"));
                 lit "git";
                 lit "git+ssh";
                 Seq (lit "git+http") (Opt (Char "s"))];
           lit "://github"; Dot; lit "com/";
           Group 1 (Plus (NotSet ["/"%char]));
           Char "/";
           Group 2 (Plus (NotSet ["/"%char; "."%char]));
           alts [Char "/"; Seq (lit ".git") WordBoundary; Eol]])
    true.

(** [/^github:([^\/]+)\/([^#]+)(?:#|$)/i] *)
Definition re_github_short : RegExp :=
  mkRegExp
    (seqs [Bol; lit "github:";
           Group 1 (Plus (NotSet ["/"%char]));
           Char "/";
           Group 2 (Plus (NotSet ["#"%char]));
           alts [Char "#"; Eol]])
    true.

(** [/^([^:\/]+)\/([^#]+)(?:#|$)/i] *)
Definition re_bare : RegExp :=
  mkRegExp
    (seqs [Bol;
           Group 1 (Plus (NotSet [":"%char; "/"%char]));
           Char "/";
           Group 2 (Plus (NotSet ["#"%char]));
           alts [Char "#"; Eol]])
    true.

Definition parseUrl : list RegExp := [re_github_url; re_github_short; re_bare].

(** The loop of [getRepo]: the first pattern that matches. *)
Fixpoint first_match (res : list RegExp) (url : string) : option (gmap nat string) :=
  match res with
  | [] => None
  | re :: res' =>
      match exec re url with
      | Some result => Some result
      | None => first_match res' url
      end
  end.

(** [getRepo] (lines 45-52). *)
Definition getRepo (url : option string) : option (gmap nat string) :=
  match url with
  | Some s => if negb (JS.truthy url) then None else first_match parseUrl s
  | None => None
  end.

(** [/\bpackage\.json$/i] (line 148). *)
Definition re_package_json : RegExp :=
  mkRegExp (seqs [WordBoundary; lit "package"; Char "."; lit "json"; Eol]) true.

(** ** The outside world *)

Abbreviation bytes := (list Byte.byte).

(** What [spawnSync] returns.  [status] and [signal] are [null] when they
    do not apply; [stdout] and [stderr] are [null] when the command could
    not be spawned at all (Node then sets [error] and leaves [output]
    null). *)
Record SpawnResult : Type := mkSpawnResult {
  status : option Z;
  signal : option string;
  stdout : option string;
  stderr : option string
}.

(** What [https.get] delivers: an ['error'] event on the request, or a
    response with its status code, its [Location] header, the chunks of
    its body that arrive, and whether the body comes to its end.  When the
    connection is lost in the middle of the body, [ended] is false: the
    response emits the chunks received so far and never ['end'], and the
    request, which has had its response, emits no ['error']. *)
Inductive Response : Type :=
| NetError (e : string)
| Reply (statusCode : Z) (location : option string) (chunks : list bytes)
        (ended : bool).

(** What a child process started by [exec] emits. *)
Inductive ChildEvent : Type :=
| OnExit (code : option Z) (signal : option string)
| OnError (e : string).

(** [package.json] as [main] reads it: each field is the value of the
    expression on the right of the assignment, before [|| ''] and after
    the conversion to a string that [process.env] applies:
    [pkg.github], [pkg.repository && pkg.repository.type],
    [pkg.repository && pkg.repository.url], [pkg.version],
    [pkg.scripts && pkg.scripts['verify-build']],
    [pkg.scripts && pkg.scripts.test]. *)
Record Package : Type := mkPackage {
  pkg_github : option string;
  pkg_repository_type : option string;
  pkg_repository_url : option string;
  pkg_version : option string;
  pkg_scripts_verify_build : option string;
  pkg_scripts_test : option string
}.

Record World : Type := mkWorld {
  process_platform : string;
  process_arch : string;
  process_versions_modules : string;
  process_argv : list string;
  process_env : gmap string string;
  spawnSync : string -> list string -> SpawnResult;
  fs_existsSync : string -> bool;
  (* [JSON.parse(await fsp.readFile(p))] followed by the first property
     access; [None] when any of them throws *)
  fs_readPackage : string -> option Package;
  fs_access : string -> bool;
  fs_mkdir : string -> bool;
  fs_writeFile : string -> bytes -> bool;
  path_join : string -> string -> string;
  path_dirname : string -> string;
  https_get : string -> Response;
  (* [undefined] on a runtime without the codec; [None] when the codec
     rejects the data *)
  zlib_brotliDecompress : option (bytes -> option bytes);
  zlib_gunzip : option (bytes -> option bytes);
  child_exec : string -> list ChildEvent
}.

(** ** Exceptions, promises and events *)

Inductive exn : Type :=
| TypeError
| StatusError (statusCode : Z) (url : string)   (* [Error(`Status ... for ...`)] *)
| TransportError (e : string)
| ExitSignal (s : string)
| ExitCode (c : Z)
| ChildError (e : string)
| ZlibError
| FsError.

(** A synchronous call: a value or an exception. *)
Inductive result (A : Type) : Type :=
| Ok (a : A)
| Raise (e : exn).
Arguments Ok {A} a.
Arguments Raise {A} e.

(** The state of a promise once the run is over. *)
Inductive promise (A : Type) : Type :=
| Fulfilled (a : A)
| Rejected (e : exn)
| Pending.
Arguments Fulfilled {A} a.
Arguments Rejected {A} e.
Arguments Pending {A}.

Inductive event : Type :=
| Log (msg : string)
| HttpGet (url : string)
| Mkdir (path : string) (ok : bool)
| WriteFile (path : string) (data : bytes) (ok : bool)
| Exec (cmd : string) (piped : bool) (outcome : promise Z).

(** An asynchronous computation: the events it caused, in order, and the
    state of its promise. *)
Definition Async (A : Type) : Type := list event * promise A.

Definition ret {A} (a : A) : Async A := ([], Fulfilled a).
Definition throw {A} (e : exn) : Async A := ([], Rejected e).
Definition emit (e : event) : Async unit := ([e], Fulfilled tt).

(** [await m; f] *)
Definition bind {A B} (m : Async A) (f : A -> Async B) : Async B :=
  match snd m with
  | Fulfilled a => (fst m ++ fst (f a), snd (f a))
  | Rejected e => (fst m, Rejected e)
  | Pending => (fst m, Pending)
  end.

(** [try { m } catch (e) { h e }] *)
Definition try_catch {A} (m : Async A) (h : exn -> Async A) : Async A :=
  match snd m with
  | Rejected e => (fst m ++ fst (h e), snd (h e))
  | _ => m
  end.

Declare Scope async_scope.
Delimit Scope async_scope with async.
Notation "x <- m ;; k" := (bind m (fun x => k))
  (at level 100, m at next level, right associativity) : async_scope.
Notation "m ;; k" := (bind m (fun _ => k))
  (at level 100, right associativity) : async_scope.
Local Open Scope async_scope.

Definition log (msg : string) : Async unit := emit (Log msg).

(** ** [getPlatform] (lines 12-25) *)

(** [!!n] for a number that may be [null]. *)
Definition num_truthy (n : option Z) : bool :=
  match n with
  | Some z => negb (z =? 0)%Z
  | None => false
  end.

(** [n === 1] *)
Definition is_one (n : option Z) : bool :=
  match n with
  | Some z => (z =? 1)%Z
  | None => false
  end.

(** [v.toString().indexOf('musl') >= 0]; reading [toString] of [null] is a
    TypeError. *)
Definition mentions_musl (v : option string) : result bool :=
  match v with
  | Some s => Ok (JS.includes "musl" s)
  | None => Raise TypeError
  end.

Definition getPlatform (w : World) : result string :=
  let platform := process_platform w in
  if negb (String.eqb platform "linux") then Ok platform else
  let result := spawnSync w "getconf" ["GNU_LIBC_VERSION"] in
  if negb (num_truthy (status result)) && negb (JS.truthy (signal result))
  then Ok platform else
  let result := spawnSync w "ldd" ["--version"] in
  if JS.truthy (signal result) then Ok platform else
  match (if negb (num_truthy (status result))
         then mentions_musl (stdout result) else Ok false) with
  | Raise e => Raise e
  | Ok true => Ok (platform +:+ "-musl")
  | Ok false =>
      match (if is_one (status result)
             then mentions_musl (stderr result) else Ok false) with
      | Raise e => Raise e
      | Ok true => Ok (platform +:+ "-musl")
      | Ok false => Ok platform
      end
  end.

(** ** [getParam] and the command line (lines 27-37) *)

(** [l.indexOf(x)], with [None] for -1. *)
Fixpoint indexOf (x : string) (l : list string) : option nat :=
  match l with
  | [] => None
  | y :: l' =>
      if String.eqb y x then Some 0%nat
      else match indexOf x l' with
           | Some i => Some (S i)
           | None => None
           end
  end.

Definition getParam (w : World) (name : string) (defaultValue : string) : string :=
  match indexOf ("--" +:+ name) (process_argv w) with
  | Some index =>
      if (0 <? index)%nat
      then JS.or_empty (process_argv w !! (index + 1)%nat)
      else defaultValue
  | None => defaultValue
  end.

(** The constants the module computes when it is loaded. *)
Record Globals : Type := mkGlobals {
  platform : string;
  artifactPath : string;
  prefix : string;
  suffix : string;
  mirrorHost : string;
  mirrorEnvVar : string
}.

Definition load (w : World) : result Globals :=
  match getPlatform w with
  | Raise e => Raise e
  | Ok platform =>
      Ok (mkGlobals platform
            (getParam w "artifact" "")
            (getParam w "prefix" "")
            (getParam w "suffix" "")
            (getParam w "host" "")
            (JS.interpolate (JS.or (Some (getParam w "host-var" ""))
                                   (Some "DOWNLOAD_HOST"))))
  end.

(** ** [getAssetUrlPrefix] (lines 54-62) *)

(** [x === 'git' && y] *)
Definition git_and (x y : option string) : option string :=
  match x with
  | Some t => if String.eqb t "git" then y else None
  | None => None
  end.

Definition repository_url (env : gmap string string) : option string :=
  JS.or (env !! "npm_package_github")
        (git_and (env !! "npm_package_repository_type")
                 (env !! "npm_package_repository_url")).

(** [mirrorHost || process.env[mirrorEnvVar] || 'https://github.com'] *)
Definition mirror_host (g : Globals) (env : gmap string string) : option string :=
  JS.or (JS.or (Some (mirrorHost g)) (JS.get_property env (mirrorEnvVar g)))
        (Some "https://github.com").

Definition getAssetUrlPrefix (w : World) (g : Globals) (env : gmap string string)
    : option string :=
  let url := repository_url env in
  let result := getRepo url in
  let host := mirror_host g env in
  match result with
  | None => None
  | Some result =>
      Some (JS.interpolate host +:+ "/" +:+ JS.interpolate (result !! 1%nat)
            +:+ "/" +:+ JS.interpolate (result !! 2%nat)
            +:+ "/releases/download/"
            +:+ JS.interpolate (env !! "npm_package_version")
            +:+ "/" +:+ prefix g +:+ platform g +:+ "-" +:+ process_arch w
            +:+ "-" +:+ process_versions_modules w +:+ suffix g)
  end.

(** ** [isDev] (lines 64-73) *)

Definition isDev (w : World) (env : gmap string string) : Async bool :=
  if JS.truthy (env !! "DEVELOPMENT_SKIP_GETTING_ASSET") then ret true
  else if fs_access w ".development" then ret true
  else ret false.

(** ** [run] (lines 75-90) *)

(** Settling a promise: only the first call has an effect. *)
Definition settle {A} (p q : promise A) : promise A :=
  match p with
  | Pending => q
  | _ => p
  end.

(** The ['exit'] and ['error'] handlers, over the flag [closed] and the
    promise under construction. *)
Definition on_child_event (st : bool * promise Z) (ev : ChildEvent)
    : bool * promise Z :=
  let '(closed, p) := st in
  match ev with
  | OnExit code signal =>
      if closed then st
      else
        let p1 :=
          if JS.truthy signal then settle p (Rejected (ExitSignal (JS.interpolate signal)))
          else match code with
               | Some c => if negb (c =? 0)%Z then settle p (Rejected (ExitCode c)) else p
               | None => p
               end in
        (true, settle p1 (Fulfilled 0%Z))
  | OnError e =>
      if closed then st else (true, settle p (Rejected (ChildError e)))
  end.

Definition run (w : World) (env : gmap string string) (cmd : string)
    (suppressOutput : bool) : Async Z :=
  let outcome := snd (fold_left on_child_event (child_exec w cmd) (false, Pending)) in
  let piped := negb suppressOutput
               || JS.truthy (env !! "DEVELOPMENT_SHOW_VERIFICATION_RESULTS") in
  ([Exec cmd piped outcome], outcome).

(** ** [isVerified] (lines 92-107) *)

Definition isVerified (w : World) (env : gmap string string) : Async bool :=
  try_catch
    (if JS.truthy (env !! "npm_package_scripts_verify_build") then
       run w env "npm run verify-build" true ;; ret true
     else if JS.truthy (env !! "npm_package_scripts_test") then
       run w env "npm test" true ;; ret true
     else
       log "No verify-build nor test scripts were found -- no way to verify the build automatically." ;;
       ret false)
    (fun _ =>
       log "The verification has failed: building from sources ..." ;;
       ret false).

(** ** [get] (lines 109-132) *)

(** The ['data'] handler. *)
Definition on_data (buffer : option bytes) (data : bytes) : option bytes :=
  match buffer with
  | Some b => Some (b ++ data)
  | None => Some data
  end.

(** [fuel] bounds the number of requests; the promise of a chain of
    redirections longer than that is still pending.  The promise of a 200
    response is resolved by the ['end'] event of the body and by nothing
    else: without that event it stays pending. *)
Fixpoint get (w : World) (fuel : nat) (url : string) : Async (option bytes) :=
  match fuel with
  | O => ([], Pending)
  | S fuel' =>
      emit (HttpGet url) ;;
      match https_get w url with
      | NetError e => throw (TransportError e)
      | Reply statusCode location chunks ended =>
          if (300 <=? statusCode)%Z && (statusCode <? 400)%Z && JS.truthy location
          then get w fuel' (JS.interpolate location)
          else if negb (statusCode =? 200)%Z
          then throw (StatusError statusCode url)
          else if ended then ret (fold_left on_data chunks None)
          else ([], Pending)
      end
  end.

(** ** [write] (lines 134-137) *)

Definition write (w : World) (name : string) (data : bytes) : Async unit :=
  let dir := path_dirname w name in
  emit (Mkdir dir (fs_mkdir w dir)) ;;
  if fs_mkdir w dir then
    emit (WriteFile name data (fs_writeFile w name data)) ;;
    if fs_writeFile w name data then ret tt else throw FsError
  else throw FsError.

(** ** [main] (lines 139-209) *)

(** Lines 141-146: find [package.json] in the working directory. *)
Definition locate_package_json (w : World) (env : gmap string string)
    : gmap string string :=
  if negb (JS.truthy (env !! "npm_package_json")) && JS.truthy (env !! "PWD") then
    let package_json_path :=
      path_join w (JS.interpolate (env !! "PWD")) "package.json" in
    if fs_existsSync w package_json_path
    then <["npm_package_json" := package_json_path]> env
    else env
  else env.

(** Lines 154-159: the assignments to [process.env], first to last. *)
Definition populate (pkg : Package) (env : gmap string string)
    : gmap string string :=
  <["npm_package_scripts_test" := JS.or_empty (pkg_scripts_test pkg)]>
  (<["npm_package_scripts_verify_build" := JS.or_empty (pkg_scripts_verify_build pkg)]>
  (<["npm_package_version" := JS.or_empty (pkg_version pkg)]>
  (<["npm_package_repository_url" := JS.or_empty (pkg_repository_url pkg)]>
  (<["npm_package_repository_type" := JS.or_empty (pkg_repository_type pkg)]>
  (<["npm_package_github" := JS.or_empty (pkg_github pkg)]> env))))).

(** Lines 148-164: the environment afterwards, and [false] for
    [break checks].  The only statement of the [try] block that can throw
    comes before its first assignment. *)
Definition read_package (w : World) (env : gmap string string)
    : Async (gmap string string * bool) :=
  if JS.truthy (env !! "npm_package_json")
     && test re_package_json (JS.interpolate (env !! "npm_package_json"))
  then
    match fs_readPackage w (JS.interpolate (env !! "npm_package_json")) with
    | Some pkg => ret (populate pkg env, true)
    | None =>
        log "Could not retrieve and parse package.json." ;; ret (env, false)
    end
  else ret (env, true).

(** [await promisify(codec)(artifact)]: with a [null] buffer the codec is
    given no input at all, and reports an unexpected end of its input. *)
Definition decompress (codec : bytes -> option bytes) (artifact : option bytes)
    : Async bytes :=
  match artifact with
  | None => throw ZlibError
  | Some b =>
      match codec b with
      | Some data => ret data
      | None => throw ZlibError
      end
  end.

(** One of the two [try] blocks (lines 181-189 and 193-201); the value is
    that of [copied] after it. *)
Definition try_codec (w : World) (g : Globals) (fuel : nat)
    (codec : bytes -> option bytes) (url : string) : Async bool :=
  try_catch
    (log ("Trying " +:+ url +:+ " ...") ;;
     artifact <- get w fuel url ;;
     log ("Writing to " +:+ artifactPath g +:+ " ...") ;;
     data <- decompress codec artifact ;;
     write w (artifactPath g) data ;;
     ret true)
    (fun _ => ret false).

(** How control leaves the block labelled [checks]. *)
Inductive completion : Type :=
| Returned    (* [return console.log('Done.')] *)
| Broke.      (* [break checks], or the end of the block *)

(** Lines 178-202: the two attempts; the value is that of [copied]. *)
Definition copy (w : World) (g : Globals) (fuel : nat) (prefix : string)
    : Async bool :=
  copied <- match zlib_brotliDecompress w with
            | Some codec => try_codec w g fuel codec (prefix +:+ ".br")
            | None => ret false
            end ;;
  match zlib_gunzip w with
  | Some codec =>
      if negb copied
      then try_codec w g fuel codec (prefix +:+ ".gz")
      else ret copied
  | None => ret copied
  end.

(** Lines 178-204. *)
Definition download (w : World) (g : Globals) (fuel : nat)
    (env : gmap string string) (prefix : string) : Async completion :=
  copied <- copy w g fuel prefix ;;
  if copied then
    verified <- isVerified w env ;;
    if verified then log "Done." ;; ret Returned else ret Broke
  else ret Broke.

(** The block labelled [checks] from line 165 on. *)
Definition checks (w : World) (g : Globals) (fuel : nat)
    (env : gmap string string) : Async completion :=
  if negb (JS.truthy (Some (artifactPath g))) then
    log "No artifact path was specified with --artifact." ;; ret Broke
  else
    dev <- isDev w env ;;
    if dev then log "Development flag was detected." ;; ret Broke
    else
      let prefix := getAssetUrlPrefix w g env in
      if negb (JS.truthy prefix) then
        log "No github repository was identified." ;; ret Broke
      else download w g fuel env (JS.interpolate prefix).

(** Lines 206-207. *)
Definition fallback (w : World) (env : gmap string string) : Async unit :=
  log "Building locally ..." ;;
  run w env "npm run rebuild" false ;;
  ret tt.

Definition main (w : World) (g : Globals) (fuel : nat) : Async unit :=
  r <- read_package w (locate_package_json w (process_env w)) ;;
  c <- (if snd r then checks w g fuel (fst r) else ret Broke) ;;
  match c with
  | Returned => ret tt
  | Broke => fallback w (fst r)
  end.

(** ** The script: load the module, then [main();] (line 209) *)

Inductive termination : Type :=
| Completed                           (* the promise of [main] is fulfilled *)
| UncaughtException (e : exn)         (* thrown while the module loads *)
| UnhandledRejection (e : exn)        (* the promise of [main] is rejected *)
| Stalled.                            (* the promise of [main] never settles:
                                         nothing is left to run and no error
                                         is reported, or the run goes on for
                                         ever *)

Definition script (w : World) (fuel : nat) : list event * termination :=
  match load w with
  | Raise e => ([], UncaughtException e)
  | Ok g =>
      let r := main w g fuel in
      (fst r,
       match snd r with
       | Fulfilled _ => Completed
       | Rejected e => UnhandledRejection e
       | Pending => Stalled
       end)
  end.

(** ** Reading a run

    What the properties below speak of, as functions of the list of events. *)

Definition rebuild_command : string := "npm run rebuild".

Definition is_fallback (e : event) : bool :=
  match e with
  | Exec cmd _ _ => String.eqb cmd rebuild_command
  | _ => false
  end.

(** How many times the fallback build was started. *)
Definition fallback_count (tr : list event) : nat :=
  length (List.filter is_fallback tr).

Definition is_request (e : event) : bool :=
  match e with
  | HttpGet _ => true
  | _ => false
  end.

(** The network requests of a run. *)
Definition requests (tr : list event) : list event :=
  List.filter is_request tr.

Definition is_artifact_write (g : Globals) (e : event) : bool :=
  match e with
  | WriteFile path _ ok => ok && String.eqb path (artifactPath g)
  | _ => false
  end.

(** An artifact was written to the target path. *)
Definition written (g : Globals) (tr : list event) : bool :=
  existsb (is_artifact_write g) tr.

Definition is_verification_pass (e : event) : bool :=
  match e with
  | Exec cmd _ (Fulfilled _) =>
      String.eqb cmd "npm run verify-build" || String.eqb cmd "npm test"
  | _ => false
  end.

(** A verification command ran and its promise was fulfilled. *)
Definition verified (tr : list event) : bool :=
  existsb is_verification_pass tr.

(** An artifact was both written and verified. *)
Definition accepted (g : Globals) (tr : list event) : bool :=
  written g tr && verified tr.

(** The commands started by a run, in order. *)
Definition commands (tr : list event) : list string :=
  omap (fun e => match e with Exec cmd _ _ => Some cmd | _ => None end) tr.

(** The log line that opens an attempt. *)
Definition trying (url : string) : event := Log ("Trying " +:+ url +:+ " ...").

(** The environment [main] works with after line 164. *)
Definition main_env (w : World) : gmap string string :=
  match snd (read_package w (locate_package_json w (process_env w))) with
  | Fulfilled r => fst r
  | _ => process_env w
  end.

(** [c] occurs in [s]. *)
Fixpoint has_char (c : ascii) (s : string) : bool :=
  match s with
  | EmptyString => false
  | String a s' => Ascii.eqb a c || has_char c s'
  end.

(** ** The specification's words, to compare the code with *)

(** "explicit override > named-environment-variable value > default public
    host" *)
Definition spec_host (g : Globals) (env : gmap string string) : string :=
  if negb (String.eqb (mirrorHost g) "") then mirrorHost g
  else match env !! mirrorEnvVar g with
       | Some h => if negb (String.eqb h "") then h else "https://github.com"
       | None => "https://github.com"
       end.

(** "a user-declared verify build command if configured, else a generic
    test command if configured, else unavailable" *)
Definition spec_verification_command (env : gmap string string) : option string :=
  if JS.truthy (env !! "npm_package_scripts_verify_build")
  then Some "npm run verify-build"
  else if JS.truthy (env !! "npm_package_scripts_test")
  then Some "npm test"
  else None.

(** "True if a designated skip-acquisition environment flag is set, or if a
    marker file exists in the working directory" *)
Definition spec_is_development (w : World) (env : gmap string string) : bool :=
  JS.truthy (env !! "DEVELOPMENT_SKIP_GETTING_ASSET") || fs_access w ".development".

(** A chain of [n] redirections leads from [url] to [final]. *)
Inductive redirects (w : World) : nat -> string -> string -> Prop :=
| redirects_nil url : redirects w 0 url url
| redirects_step n url statusCode location chunks ended final :
    https_get w url = Reply statusCode (Some location) chunks ended ->
    (300 <= statusCode < 400)%Z ->
    location <> "" ->
    redirects w n location final ->
    redirects w (S n) url final.

(** [url] answers for itself: its response is not a redirection that [get]
    follows. *)
Definition final_response (w : World) (url : string) : Prop :=
  match https_get w url with
  | NetError _ => True
  | Reply statusCode location _ _ =>
      ((300 <=? statusCode)%Z && (statusCode <? 400)%Z && JS.truthy location) = false
  end.

(** The body of the answer of [url], if there is one, comes to its end. *)
Definition body_ends (w : World) (url : string) : Prop :=
  match https_get w url with
  | NetError _ => True
  | Reply _ _ _ ended => ended = true
  end.

(** "RepositoryRef: {owner, name}" *)
Record RepositoryRef : Type := mkRepositoryRef { owner : string; name : string }.

(** The reference a match array stands for: [result[1]] and [result[2]]. *)
Definition repository_ref (url : option string) : option RepositoryRef :=
  match getRepo url with
  | Some result =>
      match result !! 1%nat, result !! 2%nat with
      | Some o, Some n => Some (mkRepositoryRef o n)
      | _, _ => None
      end
  | None => None
  end.

(** Every character of [s] satisfies [p]. *)
Fixpoint str_forall (p : ascii -> bool) (s : string) : bool :=
  match s with
  | EmptyString => true
  | String a s' => p a && str_forall p s'
  end.

(** The last character of [u], or [prev] when [u] is empty. *)
Fixpoint last_char (u : string) (prev : option ascii) : option ascii :=
  match u with
  | EmptyString => prev
  | String a u' => last_char u' (Some a)
  end.

(** [v] is empty or starts with a character that fails [p]. *)
Definition stops (p : ascii -> bool) (v : string) : Prop :=
  match v with
  | EmptyString => True
  | String a _ => p a = false
  end.

(** [st'] is reached from [st] by a match attempt: it stands further in the
    input and has kept the captures of [st]. *)
Definition extends (st st' : mstate) : Prop :=
  (exists u, m_rest st = u +:+ m_rest st') /\
  (forall n, is_Some (m_caps st !! n) -> is_Some (m_caps st' !! n)).

(** Every match of [r] consumes a character equal to [c] (up to case when
    the pattern ignores it). *)
Fixpoint requires (icase : bool) (c : ascii) (r : regex) : bool :=
  match r with
  | Char c' => char_eq icase c c'
  | Seq r1 r2 => requires icase c r1 || requires icase c r2
  | Alt r1 r2 => requires icase c r1 && requires icase c r2
  | Plus r1 => requires icase c r1
  | Group _ r1 => requires icase c r1
  | _ => false
  end.

(** Every match of [r] goes through the group numbered [n]. *)
Fixpoint binds (n : nat) (r : regex) : bool :=
  match r with
  | Group m r1 => (n =? m)%nat || binds n r1
  | Seq r1 r2 => binds n r1 || binds n r2
  | Alt r1 r2 => binds n r1 && binds n r2
  | Plus r1 => binds n r1
  | _ => false
  end.

(** [e] is the log line that opens the attempt on [url]. *)
Definition is_trying (url : string) (e : event) : bool :=
  match e with
  | Log msg => String.eqb msg ("Trying " +:+ url +:+ " ...")
  | _ => false
  end.

(** The promise was fulfilled or rejected. *)
Definition settled {A} (p : promise A) : Prop := p <> Pending.

(** [package.json] did not make [main] leave the block (lines 148-164). *)
Definition package_ok (w : World) : bool :=
  match snd (read_package w (locate_package_json w (process_env w))) with
  | Fulfilled r => snd r
  | _ => false
  end.

(** The run gets to line 178, with this URL prefix. *)
Definition download_stage (w : World) (g : Globals) : option string :=
  if package_ok w && JS.truthy (Some (artifactPath g))
     && negb (spec_is_development w (main_env w))
  then getAssetUrlPrefix w g (main_env w)
  else None.

(** How [main] goes on after the block. *)
Definition after_checks (w : World) (env : gmap string string)
    (c : completion) : Async unit :=
  match c with
  | Returned => ret tt
  | Broke => fallback w env
  end.

(** ** Sample worlds *)

Definition sample_env : gmap string string :=
  <["npm_package_github" := "o/r"]>
  (<["npm_package_version" := "1.0.0"]>
  (<["npm_package_scripts_test" := "node test.js"]> ∅)).

Definition sample_argv : list string :=
  ["node"; "install-from-cache.js"; "--artifact"; "build/addon.node"].

(** A world on Linux, x64, ABI 115, without [package.json] or [.development],
    with a file system that accepts every write and codecs that return
    their input. *)
Definition sample_world (env : gmap string string)
    (spawn : string -> list string -> SpawnResult)
    (http : string -> Response) (child : string -> list ChildEvent) : World :=
  mkWorld "linux" "x64" "115" sample_argv env spawn
          (fun _ => false) (fun _ => None) (fun _ => false)
          (fun _ => true) (fun _ _ => true)
          (fun a b => a +:+ "/" +:+ b) (fun _ => "build")
          http (Some (fun b => Some b)) (Some (fun b => Some b)) child.

(** [getconf GNU_LIBC_VERSION] succeeds: glibc. *)
Definition glibc_spawn (cmd : string) (args : list string) : SpawnResult :=
  mkSpawnResult (Some 0%Z) None (Some "glibc 2.36") (Some "").

(** Every URL answers 200 with one chunk. *)
Definition serving (url : string) : Response := Reply 200 None [[Byte.x01]] true.


(** Every command exits with code 0. *)
Definition passing (cmd : string) : list ChildEvent := [OnExit (Some 0%Z) None].

(** Every command exits with code 1. *)
Definition failing (cmd : string) : list ChildEvent := [OnExit (Some 1%Z) None].

(** The verification command fails, the rebuild succeeds. *)
Definition failing_verification (cmd : string) : list ChildEvent :=
  if String.eqb cmd "npm run rebuild" then passing cmd else failing cmd.

Definition accepting_world : World :=
  sample_world sample_env glibc_spawn serving passing.

Definition sample_globals : Globals :=
  mkGlobals "linux" "build/addon.node" "" "" "" "DOWNLOAD_HOST".

(** The sample world with the development-skip flag set. *)
Definition development_world : World :=
  sample_world (<["DEVELOPMENT_SKIP_GETTING_ASSET" := "1"]> sample_env)
               glibc_spawn serving passing.

(** A release host that redirects three times before it serves the file. *)
Definition redirecting (url : string) : Response :=
  if String.eqb url "https://host/a" then Reply 302 (Some "https://host/b") [] true
  else if String.eqb url "https://host/b" then Reply 301 (Some "https://host/c") [] true
  else if String.eqb url "https://host/c" then Reply 307 (Some "https://host/d") [] true
  else if String.eqb url "https://host/d"
  then Reply 200 None [[Byte.x01]; [Byte.x02]] true
  else Reply 404 None [] true.

Definition redirecting_world : World :=
  sample_world sample_env glibc_spawn redirecting passing.

(** [getconf] reports a failure and [ldd] cannot be spawned: [spawnSync]
    then returns no status, no signal and no output. *)
Definition ldd_missing_spawn (cmd : string) (args : list string) : SpawnResult :=
  if String.eqb cmd "getconf"
  then mkSpawnResult (Some 1%Z) None (Some "") (Some "getconf: Unrecognized variable")
  else mkSpawnResult None None None None.

Definition ldd_missing_world : World :=
  sample_world sample_env ldd_missing_spawn serving passing.

(** A package with a repository and no version. *)
Definition versionless_env : gmap string string :=
  <["npm_package_github" := "o/r"]> ∅.

(** The group numbered [n] occurs in [r]. *)
Fixpoint mentions (n : nat) (r : regex) : bool :=
  match r with
  | Group m r1 => (n =? m)%nat || mentions n r1
  | Seq r1 r2 | Alt r1 r2 => mentions n r1 || mentions n r2
  | Opt r1 | Plus r1 => mentions n r1
  | _ => false
  end.

(** ** More sample worlds *)

(** A command line with a flag that has no value after it. *)
Definition dangling_argv : list string :=
  ["node"; "install-from-cache.js"; "--artifact"].

(** [ldd] prints the musl banner on its error output and exits with 1. *)
Definition musl_spawn (cmd : string) (args : list string) : SpawnResult :=
  if String.eqb cmd "getconf"
  then mkSpawnResult (Some 1%Z) None (Some "") (Some "")
  else mkSpawnResult (Some 1%Z) None (Some "") (Some "musl libc (x86_64)").

(** A host on which [https://host/loop] redirects to itself. *)
Definition looping (url : string) : Response :=
  Reply 302 (Some "https://host/loop") [] true.

(** A set of URLs that redirections never leave. *)
Definition redirect_trap (w : World) (P : string -> Prop) : Prop :=
  forall url, P url ->
    exists statusCode location chunks ended,
      https_get w url = Reply statusCode (Some location) chunks ended
      /\ (300 <= statusCode < 400)%Z /\ location <> "" /\ P location.

(** The sample world started with [dangling_argv]. *)
Definition dangling_world : World :=
  mkWorld "linux" "x64" "115" dangling_argv sample_env glibc_spawn
          (fun _ => false) (fun _ => None) (fun _ => false)
          (fun _ => true) (fun _ _ => true)
          (fun a b => a +:+ "/" +:+ b) (fun _ => "build")
          serving (Some (fun b => Some b)) (Some (fun b => Some b)) passing.


(** A host that answers 200 and loses the connection in the middle of the
    body: one chunk arrives, the end of the body does not. *)
Definition cut_short (url : string) : Response :=
  Reply 200 None [[Byte.x01]] false.

Definition cut_short_world : World :=
  sample_world sample_env glibc_spawn cut_short passing.

(** The first asset of the sample worlds. *)
Definition sample_asset : string :=
  "https://github.com/o/r/releases/download/1.0.0/linux-x64-115.br".

(** The sample command line with [--host-var toString]. *)
Definition toString_globals : Globals :=
  mkGlobals "linux" "build/addon.node" "" "" "" "toString".

(** A 3xx answer without [Location]. *)
Definition not_modified (url : string) : Response := Reply 304 None [] true.

(** No match of [r] consumes a character equal to [d]. *)
Fixpoint avoids (icase : bool) (d : ascii) (r : regex) : bool :=
  match r with
  | Char c => negb (char_eq icase d c)
  | Dot => false
  | NotSet cs => in_set icase cs d
  | Seq r1 r2 | Alt r1 r2 => avoids icase d r1 && avoids icase d r2
  | Opt r1 | Plus r1 | Group _ r1 => avoids icase d r1
  | Empty | Bol | Eol | WordBoundary => true
  end.

(** Every match of [r] consumes a character equal to [c] and none equal to
    [d] before it. *)
Fixpoint first_needs (icase : bool) (c d : ascii) (r : regex) : bool :=
  match r with
  | Char c' => char_eq icase c c'
  | Seq r1 r2 =>
      first_needs icase c d r1 || (avoids icase d r1 && first_needs icase c d r2)
  | Alt r1 r2 => first_needs icase c d r1 && first_needs icase c d r2
  | Plus r1 | Group _ r1 => first_needs icase c d r1
  | _ => false
  end.

(** A colon occurs in [s] and no slash comes before it. *)
Fixpoint colon_before_slash (s : string) : bool :=
  match s with
  | EmptyString => false
  | String a s' =>
      if Ascii.eqb a ":" then true
      else if Ascii.eqb a "/" then false
      else colon_before_slash s'
  end.

(** The schemes of the first pattern. *)
Definition schemes : list string :=
  ["http"; "https"; "git"; "git+ssh"; "git+http"; "git+https"].

(** [t] is empty or starts with a character that is not a word character:
    [\b] holds between a word character and [t]. *)
Definition at_word_end (t : string) : Prop :=
  match t with
  | EmptyString => True
  | String a _ => is_word_char a = false
  end.

(** What may follow the name in a URL: nothing, a slash and anything, or
    [.git] at a word boundary. *)
Definition url_tail (tail : string) : Prop :=
  tail = ""
  \/ (exists t, tail = "/" +:+ t)
  \/ (exists t, tail = ".git" +:+ t /\ at_word_end t).

(** What may follow the name in a shorthand: nothing, or [#] and anything. *)
Definition fragment (tail : string) : Prop :=
  tail = "" \/ exists f, tail = "#" +:+ f.

(** The first pattern in two parts: up to the slash after the host, and
    from the owner on. *)
Definition url_head_pattern : regex :=
  seqs [Bol;
        alts [Seq (lit "http") (Opt (Char "s"));
              lit "git";
              lit "git+ssh";
              Seq (lit "git+http") (Opt (Char "s"))];
        lit "://github"; Dot; lit "com/"].

Definition url_tail_pattern : regex :=
  seqs [Group 1 (Plus (NotSet ["/"%char]));
        Char "/";
        Group 2 (Plus (NotSet ["/"%char; "."%char]));
        alts [Char "/"; Seq (lit ".git") WordBoundary; Eol]].

(** [ext] starts with [git], in any case, at a word boundary. *)
Definition git_at_word_end (ext : string) : Prop :=
  exists a b c t,
    ext = String a (String b (String c t))
    /\ char_eq true a "g" = true /\ char_eq true b "i" = true
    /\ char_eq true c "t" = true /\ at_word_end t.

(** ** What a run may contain *)

(** The verification commands of [isVerified]. *)
Definition verification_commands : list string :=
  ["npm run verify-build"; "npm test"].

(** The event touches the file system at the artifact only: the directory
    is the artifact's, the file is the artifact, and the file is written
    only if the directory could be created. *)
Definition artifact_only (w : World) (g : Globals) (e : event) : Prop :=
  match e with
  | Mkdir p _ => p = path_dirname w (artifactPath g)
  | WriteFile p _ _ =>
      p = artifactPath g /\ fs_mkdir w (path_dirname w (artifactPath g)) = true
  | _ => True
  end.

(** The output of the command is shown as lines 86-89 and the call sites
    have it: always for the rebuild, and for the other commands when [show]
    holds. *)
Definition piped_as (show : bool) (e : event) : Prop :=
  match e with
  | Exec cmd piped _ => piped = (String.eqb cmd "npm run rebuild" || show)
  | _ => True
  end.

(** An attempt on [url] with [codec] fails at one of its steps: the fetch is
    rejected, the body is empty, the data do not decompress, or the
    directory or the file cannot be written. *)
Definition attempt_fails (w : World) (g : Globals) (fuel : nat)
    (codec : bytes -> option bytes) (url : string) : Prop :=
  (exists e, snd (get w fuel url) = Rejected e)
  \/ snd (get w fuel url) = Fulfilled None
  \/ (exists b, snd (get w fuel url) = Fulfilled (Some b)
        /\ match codec b with
           | None => True
           | Some data =>
               fs_mkdir w (path_dirname w (artifactPath g)) = false
               \/ fs_writeFile w (artifactPath g) data = false
           end).

(** A host that serves the gzip assets only. *)
Definition gzip_only (url : string) : Response :=
  if String.eqb url "https://github.com/o/r/releases/download/1.0.0/linux-x64-115.gz"
  then Reply 200 None [[Byte.x01]] true
  else Reply 404 None [] true.

(** ** Comparing without case *)

(** [s] and [t] have the same characters up to case. *)
Fixpoint eq_icase (s t : string) : bool :=
  match s, t with
  | EmptyString, EmptyString => true
  | String a s', String b t' => char_eq true a b && eq_icase s' t'
  | _, _ => false
  end.

(** A world in which [package.json] is found through [PWD]; it names no
    repository, while the environment inherited from an older npm does. *)
Definition package_world : World :=
  mkWorld "linux" "x64" "115" sample_argv
          (<["PWD" := "/proj"]> sample_env) glibc_spawn
          (fun _ => true)
          (fun _ => Some (mkPackage None None None (Some "1.0.0") None None))
          (fun _ => false)
          (fun _ => true) (fun _ _ => true)
          (fun a b => a +:+ "/" +:+ b) (fun _ => "build")
          serving (Some (fun b => Some b)) (Some (fun b => Some b)) passing.

(* ===================================================================== *)
(** * Properties *)

(** ** Strings *)

#[local] Arguments String.append !s1 s2 : simpl nomatch.

Lemma append_nil_r (s : string) : s +:+ "" = s.
Proof. induction s as [|a s IH]; simpl; [reflexivity | now rewrite IH]. Qed.

Lemma append_assoc (s t u : string) : (s +:+ t) +:+ u = s +:+ t +:+ u.
Proof. induction s as [|a s IH]; simpl; [reflexivity | now rewrite IH]. Qed.

Lemma length_append (s t : string) :
  String.length (s +:+ t) = (String.length s + String.length t)%nat.
Proof. induction s as [|a s IH]; simpl; [reflexivity | now rewrite IH]. Qed.

Lemma substring_append (u v : string) :
  substring 0 (String.length u) (u +:+ v) = u.
Proof.
  induction u as [|a u IH]; simpl.
  - destruct v; reflexivity.
  - now rewrite IH.
Qed.

Lemma substring_full (u : string) : substring 0 (String.length u) u = u.
Proof. rewrite <- (append_nil_r u) at 2. apply substring_append. Qed.

Lemma has_char_append c (s t : string) :
  has_char c (s +:+ t) = has_char c s || has_char c t.
Proof.
  induction s as [|a s IH]; simpl; [reflexivity|].
  rewrite IH. now rewrite orb_assoc.
Qed.

(** ** The matcher *)

Section Matcher.

Variable icase : bool.

(** A run of characters of a class is taken whole when the rest of the
    pattern then matches. *)
Lemma rloop_greedy (p : ascii -> bool) (u v : string) :
  forall fuel pos prev caps k res,
    str_forall p u = true ->
    stops p v ->
    (String.length u <= fuel)%nat ->
    k (MState (pos + String.length u) (last_char u prev) v caps) = Some res ->
    rloop (eat p) fuel (MState pos prev (u +:+ v) caps) k = Some res.
Proof.
  induction u as [|a u IH]; intros fuel pos prev caps k res Hall Hstop Hfuel Hk.
  - simpl in *. rewrite Nat.add_0_r in Hk.
    destruct fuel as [|fuel]; simpl; [exact Hk|].
    unfold eat; simpl. destruct v as [|b v]; [exact Hk|].
    simpl in Hstop. rewrite Hstop. exact Hk.
  - simpl in Hall. apply andb_prop in Hall as [Ha Hall].
    destruct fuel as [|fuel]; simpl in Hfuel; [lia|].
    simpl. unfold eat at 1; simpl. rewrite Ha.
    replace (pos <? S pos)%nat with true by (symmetry; apply Nat.ltb_lt; lia).
    rewrite (IH fuel (S pos) (Some a) caps k res); auto; [lia|].
    simpl in Hk. now rewrite <- Nat.add_succ_comm in Hk.
Qed.

Lemma rmatch_plus_class (cs : list ascii) (a : ascii) (u v : string) :
  forall pos prev caps k res,
    str_forall (fun c => negb (in_set icase cs c)) (String a u) = true ->
    stops (fun c => negb (in_set icase cs c)) v ->
    k (MState (pos + String.length (String a u)) (last_char (String a u) prev) v caps)
      = Some res ->
    rmatch icase (Plus (NotSet cs)) (MState pos prev (String a u +:+ v) caps) k
      = Some res.
Proof.
  intros pos prev caps k res Hall Hstop Hk.
  simpl in Hall. apply andb_prop in Hall as [Ha Hall].
  cbn [rmatch]. unfold eat at 1. cbn [m_rest m_pos m_caps String.append].
  rewrite Ha. cbn [m_rest].
  change (rmatch icase (NotSet cs))
    with (eat (fun c => negb (in_set icase cs c))).
  apply rloop_greedy; auto.
  - rewrite length_append. lia.
  - simpl in Hk. now rewrite <- Nat.add_succ_comm in Hk.
Qed.

Lemma extends_refl st : extends st st.
Proof. split; [now exists "" | auto]. Qed.

Lemma extends_trans st1 st2 st3 :
  extends st1 st2 -> extends st2 st3 -> extends st1 st3.
Proof.
  intros [[u Hu] H1] [[v Hv] H2]. split; [|auto].
  exists (u +:+ v). now rewrite Hu, Hv, append_assoc.
Qed.

Lemma extends_set_capture n start st : extends st (set_capture n start st).
Proof.
  split; [now exists ""|]. intros m Hm. unfold set_capture; simpl.
  destruct (decide (n = m)) as [->|Hne].
  - rewrite lookup_insert_eq. eauto.
  - now rewrite lookup_insert_ne.
Qed.

Lemma eat_sound p st k res :
  eat p st k = Some res -> exists st', k st' = Some res /\ extends st st'.
Proof.
  unfold eat. destruct (m_rest st) as [|a t] eqn:Hrest; [discriminate|].
  destruct (p a); [|discriminate]. intros Hk.
  eexists; split; [exact Hk|]. split; simpl; [|auto].
  exists (String a ""). now rewrite Hrest.
Qed.

Lemma rloop_sound step :
  (forall st k res, step st k = Some res ->
     exists st', k st' = Some res /\ extends st st') ->
  forall fuel st k res, rloop step fuel st k = Some res ->
    exists st', k st' = Some res /\ extends st st'.
Proof.
  intros Hstep. induction fuel as [|fuel IH]; intros st k res H; simpl in H.
  - exists st. split; [assumption | apply extends_refl].
  - destruct (step st _) as [r|] eqn:Hs.
    + injection H as ->. apply Hstep in Hs as (st1 & Hs & Hext).
      destruct (m_pos st <? m_pos st1)%nat; [|discriminate].
      apply IH in Hs as (st2 & Hk & Hext2).
      exists st2. split; [assumption | eapply extends_trans; eassumption].
    + exists st. split; [assumption | apply extends_refl].
Qed.

(** Whatever a pattern matches, the rest of the pattern was tried further in
    the input, with the captures kept. *)
Lemma rmatch_sound (r : regex) :
  forall st k res, rmatch icase r st k = Some res ->
    exists st', k st' = Some res /\ extends st st'.
Proof.
  induction r as [ | c | | cs | r1 IH1 r2 IH2 | r1 IH1 r2 IH2 | r1 IH1 | r1 IH1
                   | n r1 IH1 | | | ]; intros st k res H; cbn [rmatch] in H.
  - exists st. split; [assumption | apply extends_refl].
  - now apply eat_sound in H.
  - now apply eat_sound in H.
  - now apply eat_sound in H.
  - apply IH1 in H as (st1 & H & Hext1). apply IH2 in H as (st2 & H & Hext2).
    exists st2. split; [assumption | eapply extends_trans; eassumption].
  - destruct (rmatch icase r1 st k) eqn:H1.
    + injection H as ->. now apply IH1 in H1.
    + now apply IH2 in H.
  - destruct (rmatch icase r1 st k) eqn:H1.
    + injection H as ->. now apply IH1 in H1.
    + exists st. split; [assumption | apply extends_refl].
  - apply IH1 in H as (st1 & H & Hext1).
    apply (rloop_sound _ IH1) in H as (st2 & H & Hext2).
    exists st2. split; [assumption | eapply extends_trans; eassumption].
  - apply IH1 in H as (st1 & H & Hext1).
    eexists; split; [exact H|].
    eapply extends_trans; [eassumption | apply extends_set_capture].
  - destruct (m_pos st =? 0)%nat; [|discriminate].
    exists st. split; [assumption | apply extends_refl].
  - destruct (m_rest st); [|discriminate].
    exists st. split; [assumption | apply extends_refl].
  - destruct (xorb _ _); [|discriminate].
    exists st. split; [assumption | apply extends_refl].
Qed.

(** A group that took part in a match has a capture. *)
Lemma rmatch_group_sound n (r : regex) st k res :
  rmatch icase (Group n r) st k = Some res ->
  exists st', k st' = Some res /\ extends st st' /\ is_Some (m_caps st' !! n).
Proof.
  cbn [rmatch]. intros H. apply rmatch_sound in H as (st1 & H & Hext).
  eexists; split; [exact H|]. split.
  - eapply extends_trans; [eassumption | apply extends_set_capture].
  - unfold set_capture; simpl. rewrite lookup_insert_eq. eauto.
Qed.

Lemma char_eq_trans a b c :
  char_eq icase a b = true -> char_eq icase b c = true -> char_eq icase a c = true.
Proof.
  unfold char_eq. intros H1 H2.
  apply Ascii.eqb_eq in H1, H2. apply Ascii.eqb_eq. congruence.
Qed.

Lemma char_eq_sym a b : char_eq icase a b = char_eq icase b a.
Proof. unfold char_eq. apply Ascii.eqb_sym. Qed.

(** A pattern that requires [c] only matches where a character equal to
    [c] lies ahead. *)
Lemma requires_sound (c : ascii) (r : regex) :
  requires icase c r = true ->
  forall st k res, rmatch icase r st k = Some res ->
    exists u a t, m_rest st = u +:+ String a t /\ char_eq icase a c = true.
Proof.
  induction r as [ | c' | | cs | r1 IH1 r2 IH2 | r1 IH1 r2 IH2 | r1 IH1 | r1 IH1
                   | n r1 IH1 | | | ]; cbn [requires]; intros Hreq st k res H;
    try discriminate; cbn [rmatch] in H.
  - unfold eat in H. destruct (m_rest st) as [|a t]; [discriminate|].
    destruct (char_eq icase a c') eqn:Ha; [|discriminate].
    exists "", a, t. split; [reflexivity|].
    rewrite char_eq_sym in Hreq. eapply char_eq_trans; eassumption.
  - apply orb_prop in Hreq as [Hreq|Hreq].
    + eapply IH1; eassumption.
    + apply rmatch_sound in H as (st1 & H & [[u0 Hu0] _]).
      destruct (IH2 Hreq _ _ _ H) as (u & a & t & Hu & Ha).
      exists (u0 +:+ u), a, t. split; [|assumption].
      now rewrite Hu0, Hu, append_assoc.
  - apply andb_prop in Hreq as [Hreq1 Hreq2].
    destruct (rmatch icase r1 st k) eqn:H1.
    + eapply IH1; eassumption.
    + eapply IH2; eassumption.
  - eapply IH1; eassumption.
  - eapply IH1; eassumption.
Qed.

(** A pattern that binds the group [n] only matches with a capture for it. *)
Lemma binds_sound (n : nat) (r : regex) :
  binds n r = true ->
  forall st k res, rmatch icase r st k = Some res ->
    exists st', k st' = Some res /\ extends st st' /\ is_Some (m_caps st' !! n).
Proof.
  induction r as [ | c' | | cs | r1 IH1 r2 IH2 | r1 IH1 r2 IH2 | r1 IH1 | r1 IH1
                   | m r1 IH1 | | | ]; cbn [binds]; intros Hb st k res H;
    try discriminate.
  - cbn [rmatch] in H. apply orb_prop in Hb as [Hb|Hb].
    + destruct (IH1 Hb _ _ _ H) as (st1 & H1 & Hext1 & Hcap).
      apply rmatch_sound in H1 as (st2 & H2 & Hext2).
      exists st2. split; [assumption|]. split.
      * eapply extends_trans; eassumption.
      * now apply Hext2.
    + apply rmatch_sound in H as (st1 & H1 & Hext1).
      destruct (IH2 Hb _ _ _ H1) as (st2 & H2 & Hext2 & Hcap).
      exists st2. split; [assumption|]. split; [|assumption].
      eapply extends_trans; eassumption.
  - cbn [rmatch] in H. apply andb_prop in Hb as [Hb1 Hb2].
    destruct (rmatch icase r1 st k) eqn:H1.
    + injection H as ->. eapply IH1; eassumption.
    + eapply IH2; eassumption.
  - cbn [rmatch] in H.
    destruct (IH1 Hb _ _ _ H) as (st1 & H1 & Hext1 & Hcap).
    apply (rloop_sound _ (rmatch_sound r1)) in H1 as (st2 & H2 & Hext2).
    exists st2. split; [assumption|]. split.
    + eapply extends_trans; eassumption.
    + now apply Hext2.
  - apply orb_prop in Hb as [Hb|Hb].
    + apply Nat.eqb_eq in Hb as ->. eapply rmatch_group_sound; eassumption.
    + cbn [rmatch] in H.
      destruct (IH1 Hb _ _ _ H) as (st1 & H1 & Hext1 & Hcap).
      eexists; split; [exact H1|]. split.
      * eapply extends_trans; [eassumption | apply extends_set_capture].
      * now apply extends_set_capture.
Qed.

Lemma match_at_binds (re : RegExp) (n : nat) pos prev rest result :
  ignoreCase re = icase -> binds n (source re) = true ->
  match_at re pos prev rest = Some result -> is_Some (result !! n).
Proof.
  intros Hic Hb. unfold match_at. rewrite Hic.
  destruct (rmatch icase (source re) _ Some) as [st|] eqn:H; [|discriminate].
  intros [= <-]. destruct (binds_sound n _ Hb _ _ _ H) as (st1 & [= ->] & _ & Hcap).
  now apply (extends_set_capture 0 (MState pos prev rest ∅) st).
Qed.

Lemma exec_from_binds (re : RegExp) (n : nat) rest :
  ignoreCase re = icase -> binds n (source re) = true ->
  forall pos prev result,
    exec_from re pos prev rest = Some result -> is_Some (result !! n).
Proof.
  intros Hic Hb. induction rest as [|a rest IH]; intros pos prev result; simpl;
    destruct (match_at re pos prev _) eqn:Hm.
  - intros [= <-]. eapply match_at_binds; eassumption.
  - discriminate.
  - intros [= <-]. eapply match_at_binds; eassumption.
  - apply IH.
Qed.

(** The bound on the number of iterations is not reached before the input
    ends: more fuel than the length of the input changes nothing. *)
Lemma rloop_eat_fuel (p : ascii -> bool) (k : mstate -> option mstate)
    (rest : string) :
  forall fuel pos prev caps,
    (String.length rest <= fuel)%nat ->
    rloop (eat p) fuel (MState pos prev rest caps) k
    = rloop (eat p) (String.length rest) (MState pos prev rest caps) k.
Proof.
  induction rest as [|a t IH]; intros fuel pos prev caps Hfuel.
  - destruct fuel; reflexivity.
  - destruct fuel as [|fuel]; [simpl in Hfuel; lia|].
    cbn [String.length rloop]. unfold eat. cbn [m_rest m_pos m_caps].
    destruct (p a); [|reflexivity].
    replace (pos <? S pos)%nat with true by (symmetry; apply Nat.ltb_lt; lia).
    rewrite (IH fuel) by (simpl in Hfuel; lia). reflexivity.
Qed.

(** What a run of a class has consumed when the rest of the pattern
    matched. *)
Lemma rloop_eat_inv (p : ascii -> bool) (k : mstate -> option mstate) res :
  forall fuel pos prev rest caps,
    rloop (eat p) fuel (MState pos prev rest caps) k = Some res ->
    exists u v, rest = u +:+ v /\ str_forall p u = true
      /\ k (MState (pos + String.length u) (last_char u prev) v caps) = Some res.
Proof.
  induction fuel as [|fuel IH]; intros pos prev rest caps H.
  - exists "", rest. cbn in *. now rewrite Nat.add_0_r.
  - cbn [rloop] in H.
    destruct (eat p _ _) as [r|] eqn:He.
    + injection H as ->. unfold eat in He. cbn [m_rest m_pos m_caps] in He.
      destruct rest as [|a t]; [discriminate|].
      destruct (p a) eqn:Hp; [|discriminate].
      replace (pos <? S pos)%nat with true in He
        by (symmetry; apply Nat.ltb_lt; lia).
      apply IH in He as (u & v & -> & Hu & Hk).
      exists (String a u), v. cbn. rewrite Hp, Hu.
      now rewrite <- Nat.add_succ_comm.
    + exists "", rest. cbn. now rewrite Nat.add_0_r.
Qed.

Lemma rmatch_plus_class_inv (cs : list ascii) (k : mstate -> option mstate) res
    pos prev rest caps :
  rmatch icase (Plus (NotSet cs)) (MState pos prev rest caps) k = Some res ->
  exists u v, u <> "" /\ rest = u +:+ v
    /\ str_forall (fun c => negb (in_set icase cs c)) u = true
    /\ k (MState (pos + String.length u) (last_char u prev) v caps) = Some res.
Proof.
  cbn [rmatch]. unfold eat at 1. cbn [m_rest m_pos m_caps].
  destruct rest as [|a t]; [discriminate|].
  destruct (negb (in_set icase cs a)) eqn:Ha; [|discriminate].
  cbn [m_rest].
  change (rmatch icase (NotSet cs)) with (eat (fun c => negb (in_set icase cs c))).
  intros H. apply rloop_eat_inv in H as (u & v & -> & Hu & Hk).
  exists (String a u), v. cbn. rewrite Ha, Hu.
  repeat split; [discriminate|]. now rewrite <- Nat.add_succ_comm.
Qed.

Lemma eat_keeps p st k res n :
  eat p st k = Some res ->
  exists st', k st' = Some res /\ m_caps st' !! n = m_caps st !! n.
Proof.
  unfold eat. destruct (m_rest st) as [|a t]; [discriminate|].
  destruct (p a); [|discriminate]. intros Hk. eexists; split; [exact Hk|].
  reflexivity.
Qed.

Lemma rloop_keeps step n :
  (forall st k res, step st k = Some res ->
     exists st', k st' = Some res /\ m_caps st' !! n = m_caps st !! n) ->
  forall fuel st k res, rloop step fuel st k = Some res ->
    exists st', k st' = Some res /\ m_caps st' !! n = m_caps st !! n.
Proof.
  intros Hstep. induction fuel as [|fuel IH]; intros st k res H; simpl in H.
  - eauto.
  - destruct (step st _) as [r|] eqn:Hs; [|eauto].
    injection H as ->. apply Hstep in Hs as (st1 & Hs & H1).
    destruct (m_pos st <? m_pos st1)%nat; [|discriminate].
    apply IH in Hs as (st2 & Hk & H2).
    exists st2. split; [assumption | congruence].
Qed.

(** A pattern leaves the captures of the groups it does not contain. *)
Lemma rmatch_keeps (n : nat) (r : regex) :
  mentions n r = false ->
  forall st k res, rmatch icase r st k = Some res ->
    exists st', k st' = Some res /\ m_caps st' !! n = m_caps st !! n.
Proof.
  induction r as [ | c | | cs | r1 IH1 r2 IH2 | r1 IH1 r2 IH2 | r1 IH1 | r1 IH1
                   | m r1 IH1 | | | ]; cbn [mentions]; intros Hm st k res H;
    cbn [rmatch] in H.
  - eauto.
  - now apply eat_keeps with (n := n) in H.
  - now apply eat_keeps with (n := n) in H.
  - now apply eat_keeps with (n := n) in H.
  - apply orb_false_elim in Hm as [Hm1 Hm2].
    apply (IH1 Hm1) in H as (st1 & H & H1).
    apply (IH2 Hm2) in H as (st2 & H & H2).
    exists st2. split; [assumption | congruence].
  - apply orb_false_elim in Hm as [Hm1 Hm2].
    destruct (rmatch icase r1 st k) eqn:Hr.
    + injection H as ->. now apply (IH1 Hm1) in Hr.
    + now apply (IH2 Hm2) in H.
  - destruct (rmatch icase r1 st k) eqn:Hr; [|eauto].
    injection H as ->. now apply (IH1 Hm) in Hr.
  - apply (IH1 Hm) in H as (st1 & H & H1).
    apply (rloop_keeps _ n (IH1 Hm)) in H as (st2 & H & H2).
    exists st2. split; [assumption | congruence].
  - apply orb_false_elim in Hm as [Hnm Hm].
    apply (IH1 Hm) in H as (st1 & H & H1).
    eexists; split; [exact H|]. unfold set_capture; cbn [m_caps].
    apply Nat.eqb_neq in Hnm. rewrite lookup_insert_ne by congruence. exact H1.
  - destruct (m_pos st =? 0)%nat; [eauto | discriminate].
  - destruct (m_rest st); [eauto | discriminate].
  - destruct (xorb _ _); [eauto | discriminate].
Qed.

(** A pattern that starts with [^] matches at index 0 only. *)
Lemma match_at_anchored (re : RegExp) (r : regex) pos prev rest :
  source re = Seq Bol r -> (0 < pos)%nat -> match_at re pos prev rest = None.
Proof.
  intros Hsrc Hpos. unfold match_at. rewrite Hsrc. cbn [rmatch m_pos].
  destruct pos; [lia | reflexivity].
Qed.

Lemma exec_from_anchored (re : RegExp) (r : regex) rest :
  source re = Seq Bol r ->
  forall pos prev, (0 < pos)%nat -> exec_from re pos prev rest = None.
Proof.
  intros Hsrc. induction rest as [|a rest IH]; intros pos prev Hpos; simpl;
    rewrite (match_at_anchored re r) by assumption; [reflexivity|].
  apply IH. lia.
Qed.

Lemma exec_anchored (re : RegExp) (r : regex) s :
  source re = Seq Bol r -> exec re s = match_at re 0 None s.
Proof.
  intros Hsrc. unfold exec. destruct s as [|a s]; simpl;
    destruct (match_at re 0 None _); try reflexivity.
  apply (exec_from_anchored re r); [assumption | lia].
Qed.

End Matcher.

(** ** The repository patterns *)

Ltac by_cases_on_char a :=
  destruct a as [[] [] [] [] [] [] [] []]; reflexivity.

Lemma char_eq_colon a : char_eq true a ":" = Ascii.eqb a ":".
Proof. by_cases_on_char a. Qed.

Lemma char_eq_slash a : char_eq true a "/" = Ascii.eqb a "/".
Proof. by_cases_on_char a. Qed.

Lemma char_eq_hash a : char_eq true a "#" = Ascii.eqb a "#".
Proof. by_cases_on_char a. Qed.

Lemma owner_class (s : string) :
  has_char ":" s = false -> has_char "/" s = false ->
  str_forall (fun c => negb (in_set true [":"%char; "/"%char] c)) s = true.
Proof.
  induction s as [|a s IH]; simpl; [reflexivity|].
  intros H1 H2. apply orb_false_elim in H1 as [Ha1 H1], H2 as [Ha2 H2].
  rewrite char_eq_colon, char_eq_slash, Ha1, Ha2. simpl. now apply IH.
Qed.

Lemma name_class (s : string) :
  has_char "#" s = false ->
  str_forall (fun c => negb (in_set true ["#"%char] c)) s = true.
Proof.
  induction s as [|a s IH]; simpl; [reflexivity|].
  intros H. apply orb_false_elim in H as [Ha H].
  rewrite char_eq_hash, Ha. simpl. now apply IH.
Qed.

(** The bare shorthand: the owner runs up to the first slash, the name from
    there to the end of a reference without [#]. *)
Lemma match_bare (a rest : string) :
  a <> "" -> has_char ":" a = false -> has_char "/" a = false ->
  rest <> "" -> has_char "#" rest = false ->
  match_at re_bare 0 None (a +:+ "/" +:+ rest)
  = Some (<[0%nat := a +:+ "/" +:+ rest]> (<[2%nat := rest]> (<[1%nat := a]> ∅))).
Proof.
  intros Ha Hcolon Hslash Hrest Hhash.
  destruct a as [|x a]; [congruence|]. destruct rest as [|y rest]; [congruence|].
  unfold match_at.
  set (s := String x a +:+ "/" +:+ String y rest).
  assert (H : rmatch true (source re_bare) (MState 0 None s ∅) Some
    = Some (MState (String.length s) (last_char (String y rest) (Some "/"%char)) ""
              (<[2%nat := String y rest]> (<[1%nat := String x a]> ∅)))).
  { unfold re_bare. cbn [source seqs alts lit]. cbn [rmatch m_pos Nat.eqb].
    subst s. apply rmatch_plus_class.
    - now apply owner_class.
    - simpl. reflexivity.
    - unfold set_capture. cbn [m_pos m_prev m_rest m_caps].
      rewrite Nat.sub_0_r, Nat.add_0_l, substring_append.
      unfold eat at 1. cbn [m_rest m_pos m_caps String.append].
      rewrite char_eq_slash. cbn [Ascii.eqb Bool.eqb].
      rewrite <- (append_nil_r (String y rest)) at 1.
      apply rmatch_plus_class.
      + now apply name_class.
      + exact I.
      + cbn [m_pos m_prev m_rest m_caps]. unfold eat.
        cbn [m_rest]. f_equal. f_equal.
        * simpl. rewrite length_append. simpl. lia.
        * f_equal.
          replace (S (String.length (String x a)) + String.length (String y rest)
                   - S (String.length (String x a)))%nat
            with (String.length (String y rest)) by lia.
          apply substring_full. }
  change (ignoreCase re_bare) with true.
  rewrite H. unfold set_capture. cbn [m_pos m_rest m_caps].
  now rewrite Nat.sub_0_r, substring_full.
Qed.

Lemma has_char_middle c (u t : string) : has_char c (u +:+ String c t) = true.
Proof.
  rewrite has_char_append. simpl. rewrite Ascii.eqb_refl.
  now rewrite orb_true_r.
Qed.

(** The two patterns with a colon do not match a reference without one. *)
Lemma exec_needs_colon (re : RegExp) (r : regex) (s : string) :
  source re = Seq Bol r -> ignoreCase re = true ->
  requires true ":" r = true ->
  has_char ":" s = false -> exec re s = None.
Proof.
  intros Hsrc Hic Hreq Hs. rewrite (exec_anchored re r) by assumption.
  unfold match_at. rewrite Hsrc, Hic. cbn [rmatch m_pos Nat.eqb].
  destruct (rmatch true r _ Some) as [st|] eqn:H; [|reflexivity].
  exfalso. destruct (requires_sound true ":" r Hreq _ _ _ H) as (u & a & t & Hu & Ha).
  simpl in Hu. rewrite char_eq_colon in Ha. apply Ascii.eqb_eq in Ha. subst.
  now rewrite has_char_middle in Hs.
Qed.

Lemma getRepo_bare (a rest : string) :
  a <> "" -> has_char ":" a = false -> has_char "/" a = false ->
  rest <> "" -> has_char ":" rest = false -> has_char "#" rest = false ->
  getRepo (Some (a +:+ "/" +:+ rest))
  = Some (<[0%nat := a +:+ "/" +:+ rest]> (<[2%nat := rest]> (<[1%nat := a]> ∅))).
Proof.
  intros Ha Hc Hs Hrest Hcr Hhr.
  assert (Hcolon : has_char ":" (a +:+ "/" +:+ rest) = false).
  { rewrite has_char_append, Hc. simpl. exact Hcr. }
  assert (Htruthy : JS.truthy (Some (a +:+ "/" +:+ rest)) = true).
  { destruct a as [|x a]; [congruence | reflexivity]. }
  unfold getRepo. rewrite Htruthy. cbn [negb parseUrl first_match].
  rewrite (exec_needs_colon re_github_url _ _ eq_refl eq_refl eq_refl Hcolon).
  rewrite (exec_needs_colon re_github_short _ _ eq_refl eq_refl eq_refl Hcolon).
  rewrite (exec_anchored re_bare _ _ eq_refl).
  now rewrite match_bare.
Qed.

Lemma owner_class_inv (s : string) :
  str_forall (fun c => negb (in_set true [":"%char; "/"%char] c)) s = true ->
  has_char ":" s = false /\ has_char "/" s = false.
Proof.
  induction s as [|a s IH]; simpl; [auto|].
  rewrite char_eq_colon, char_eq_slash, orb_false_r. intros H.
  apply andb_prop in H as [Ha H]. apply negb_true_iff, orb_false_elim in Ha as [-> ->].
  now apply IH.
Qed.

(** A reference that starts with a slash has no owner: without a colon, no
    pattern matches it. *)
Lemma getRepo_empty_owner (rest : string) :
  has_char ":" rest = false -> getRepo (Some ("/" +:+ rest)) = None.
Proof.
  intros Hcolon. unfold getRepo.
  cbn [JS.truthy String.append String.eqb negb parseUrl first_match].
  assert (Hc : has_char ":" (String "/" rest) = false) by exact Hcolon.
  rewrite (exec_needs_colon re_github_url _ _ eq_refl eq_refl eq_refl Hc).
  rewrite (exec_needs_colon re_github_short _ _ eq_refl eq_refl eq_refl Hc).
  rewrite (exec_anchored re_bare _ _ eq_refl). reflexivity.
Qed.

(** In the bare shorthand the owner is not empty and contains neither a
    colon nor a slash. *)
Lemma bare_owner (s : string) (result : gmap nat string) :
  exec re_bare s = Some result ->
  exists o, result !! 1%nat = Some o /\ o <> ""
    /\ has_char ":" o = false /\ has_char "/" o = false.
Proof.
  rewrite (exec_anchored re_bare _ _ eq_refl). unfold match_at.
  destruct (rmatch _ _ _ Some) as [st|] eqn:H; [|discriminate].
  intros [= <-].
  pose (rest := seqs [Char "/"; Group 2 (Plus (NotSet ["#"%char]));
                      alts [Char "#"; Eol]]).
  change (rmatch (ignoreCase re_bare) (source re_bare) (MState 0 None s ∅) Some)
    with (rmatch true (Plus (NotSet [":"%char; "/"%char])) (MState 0 None s ∅)
            (fun st1 => rmatch true rest (set_capture 1 (MState 0 None s ∅) st1) Some))
    in H.
  apply rmatch_plus_class_inv in H as (u & v & Hu & -> & Hall & Hk).
  apply (rmatch_keeps true 1 rest) in Hk as (st2 & [= ->] & Hcap);
    [|reflexivity].
  exists u. unfold set_capture in *. cbn [m_caps m_pos m_rest] in *.
  rewrite lookup_insert_eq, Nat.add_0_l, Nat.sub_0_r, substring_append in Hcap.
  rewrite lookup_insert_ne by discriminate.
  destruct (owner_class_inv u Hall). auto.
Qed.

(** [getRepo] returns a match array with an owner and a name. *)
Lemma getRepo_captures (url : option string) result :
  getRepo url = Some result ->
  exists o n, result !! 1%nat = Some o /\ result !! 2%nat = Some n.
Proof.
  unfold getRepo. destruct url as [s|]; [|discriminate].
  destruct (negb (JS.truthy (Some s))); [discriminate|].
  cbn [parseUrl first_match]. unfold exec. intros H.
  assert (Hb : forall n, (n = 1 \/ n = 2)%nat -> is_Some (result !! n)).
  { intros n Hn.
    destruct (exec_from re_github_url 0 None s) eqn:H1.
    { injection H as ->.
      apply (exec_from_binds true re_github_url n s eq_refl) in H1; auto.
      destruct Hn as [-> | ->]; reflexivity. }
    destruct (exec_from re_github_short 0 None s) eqn:H2.
    { injection H as ->.
      apply (exec_from_binds true re_github_short n s eq_refl) in H2; auto.
      destruct Hn as [-> | ->]; reflexivity. }
    destruct (exec_from re_bare 0 None s) eqn:H3; [|discriminate].
    injection H as ->.
    apply (exec_from_binds true re_bare n s eq_refl) in H3; auto.
    destruct Hn as [-> | ->]; reflexivity. }
  destruct (Hb 1%nat) as [o Ho]; [auto|]. destruct (Hb 2%nat) as [n Hn]; [auto|].
  eauto.
Qed.

(** C6. [getRepo] maps [https://github.com/o/r], [git+ssh://github.com/o/r.git],
    [github:o/r] and [o/r] to the reference with owner [o] and name [r]; the
    three patterns are tried in their order in [parseUrl] and the first one
    that matches gives the result; an absent or empty reference, and one
    that no pattern matches, give [null] (the function is total: it raises
    for no input). *)
Theorem getRepo_reference_shapes :
  (repository_ref (Some "https://github.com/o/r") = Some (mkRepositoryRef "o" "r")
   /\ repository_ref (Some "git+ssh://github.com/o/r.git") = Some (mkRepositoryRef "o" "r")
   /\ repository_ref (Some "github:o/r") = Some (mkRepositoryRef "o" "r")
   /\ repository_ref (Some "o/r") = Some (mkRepositoryRef "o" "r"))
  /\ (forall url, JS.truthy (Some url) = true ->
        getRepo (Some url)
        = match exec re_github_url url with
          | Some result => Some result
          | None =>
              match exec re_github_short url with
              | Some result => Some result
              | None => exec re_bare url
              end
          end)
  /\ getRepo None = None
  /\ getRepo (Some "") = None
  /\ (forall url,
        exec re_github_url url = None -> exec re_github_short url = None ->
        exec re_bare url = None -> getRepo (Some url) = None).
Proof.
  split; [repeat split; vm_compute; reflexivity|].
  split.
  { intros url Hurl. unfold getRepo. rewrite Hurl.
    cbn [negb parseUrl first_match].
    destruct (exec re_github_url url); [reflexivity|].
    destruct (exec re_github_short url); [reflexivity|].
    destruct (exec re_bare url); reflexivity. }
  split; [reflexivity|]. split; [reflexivity|].
  intros url H1 H2 H3. unfold getRepo.
  destruct (negb (JS.truthy (Some url))); [reflexivity|].
  cbn [parseUrl first_match]. now rewrite H1, H2, H3.
Qed.

(** C10. In the bare shorthand the owner never contains a colon or a slash,
    and the name is everything after the first slash: for an owner [a]
    without slash (an owner is not empty) and a reference [a/b/c] without
    [:] and [#], [getRepo] matches with [result[1]] = [a] and [result[2]] =
    [b/c]; the reference is not rejected and the name is not cut at the
    second slash.  A reference that starts with a slash has no owner and is
    not a shorthand. *)
Theorem getRepo_bare_name_keeps_slashes (a b c : string) :
  a <> "" ->
  has_char "/" a = false ->
  has_char ":" (a +:+ "/" +:+ b +:+ "/" +:+ c) = false ->
  has_char "#" (a +:+ "/" +:+ b +:+ "/" +:+ c) = false ->
  getRepo (Some (a +:+ "/" +:+ b +:+ "/" +:+ c))
  = Some (<[0%nat := a +:+ "/" +:+ b +:+ "/" +:+ c]>
            (<[2%nat := b +:+ "/" +:+ c]> (<[1%nat := a]> ∅)))
  /\ repository_ref (Some (a +:+ "/" +:+ b +:+ "/" +:+ c))
     = Some (mkRepositoryRef a (b +:+ "/" +:+ c))
  /\ (forall s result, exec re_bare s = Some result ->
        exists o, result !! 1%nat = Some o /\ o <> ""
          /\ has_char ":" o = false /\ has_char "/" o = false)
  /\ (forall rest, has_char ":" rest = false ->
        getRepo (Some ("/" +:+ rest)) = None).
Proof.
  intros Ha Hslash Hcolon Hhash.
  rewrite has_char_append in Hcolon, Hhash.
  apply orb_false_elim in Hcolon as [Hca Hcr], Hhash as [Hha Hhr].
  simpl in Hcr, Hhr.
  assert (Hrest : b +:+ "/" +:+ c <> "") by (destruct b; discriminate).
  assert (H := getRepo_bare a (b +:+ "/" +:+ c) Ha Hca Hslash Hrest Hcr Hhr).
  split; [exact H|]. split; [|split; [apply bare_owner | apply getRepo_empty_owner]].
  unfold repository_ref. rewrite H.
  rewrite lookup_insert_ne by discriminate.
  rewrite lookup_insert_ne by discriminate.
  rewrite lookup_insert_eq.
  rewrite lookup_insert_ne by discriminate.
  now rewrite lookup_insert_eq.
Qed.

Lemma getRepo_bare_name_keeps_slashes_witness :
  repository_ref (Some ("a" +:+ "/" +:+ "b" +:+ "/" +:+ "c"))
  = Some (mkRepositoryRef "a" ("b" +:+ "/" +:+ "c")).
Proof.
  apply (getRepo_bare_name_keeps_slashes "a" "b" "c");
    [discriminate | reflexivity | reflexivity | reflexivity].
Defined.

(** ** Reading a run: the readers distribute over concatenation *)

Lemma fallback_count_app t1 t2 :
  fallback_count (t1 ++ t2) = (fallback_count t1 + fallback_count t2)%nat.
Proof. unfold fallback_count. now rewrite List.filter_app, length_app. Qed.

Lemma written_app g t1 t2 : written g (t1 ++ t2) = written g t1 || written g t2.
Proof. apply existsb_app. Qed.

Lemma verified_app t1 t2 : verified (t1 ++ t2) = verified t1 || verified t2.
Proof. apply existsb_app. Qed.

Lemma requests_app t1 t2 : requests (t1 ++ t2) = requests t1 ++ requests t2.
Proof. apply List.filter_app. Qed.

Lemma commands_app t1 t2 : commands (t1 ++ t2) = commands t1 ++ commands t2.
Proof. apply omap_app. Qed.

Lemma fallback_count_cons e t :
  fallback_count (e :: t)
  = ((if is_fallback e then 1 else 0) + fallback_count t)%nat.
Proof. unfold fallback_count. cbn [List.filter]. now destruct (is_fallback e). Qed.

Lemma written_cons g e t :
  written g (e :: t) = is_artifact_write g e || written g t.
Proof. reflexivity. Qed.

Lemma verified_cons e t :
  verified (e :: t) = is_verification_pass e || verified t.
Proof. reflexivity. Qed.

Lemma requests_cons e t :
  requests (e :: t) = if is_request e then e :: requests t else requests t.
Proof. unfold requests. cbn [List.filter]. now destruct (is_request e). Qed.

Lemma commands_cons e t :
  commands (e :: t)
  = match e with
    | Exec cmd _ _ => cmd :: commands t
    | _ => commands t
    end.
Proof. now destruct e. Qed.

Lemma fallback_count_nil : fallback_count [] = 0%nat.
Proof. reflexivity. Qed.

Lemma written_nil g : written g [] = false.
Proof. reflexivity. Qed.

Lemma verified_nil : verified [] = false.
Proof. reflexivity. Qed.

Lemma requests_nil : requests [] = [].
Proof. reflexivity. Qed.

Lemma commands_nil : commands [] = [].
Proof. reflexivity. Qed.

#[local] Arguments fallback_count : simpl never.
#[local] Arguments written : simpl never.
#[local] Arguments verified : simpl never.
#[local] Arguments requests : simpl never.
#[local] Arguments commands : simpl never.

Create Rewrite HintDb readers.

#[local] Hint Rewrite fallback_count_app written_app verified_app requests_app
  commands_app fallback_count_cons written_cons verified_cons requests_cons
  commands_cons fallback_count_nil written_nil verified_nil requests_nil
  commands_nil @existsb_app @app_nil_r : readers.

(** What a list of requests says to the other readers: nothing. *)
Lemma only_requests g (t : list event) :
  forallb is_request t = true ->
  fallback_count t = 0%nat /\ written g t = false /\ verified t = false
  /\ commands t = [] /\ forall u, existsb (is_trying u) t = false.
Proof.
  induction t as [|e t IH]; [now repeat split|].
  cbn [forallb]. intros H. apply andb_prop in H as [He H].
  destruct e; try discriminate. destruct (IH H) as (H1 & H2 & H3 & H4 & H5).
  autorewrite with readers. cbn. auto.
Qed.

Lemma get_only_requests (w : World) (fuel : nat) :
  forall url, forallb is_request (fst (get w fuel url)) = true.
Proof.
  induction fuel as [|fuel IH]; intros url; [reflexivity|].
  cbn [get]. unfold bind, emit; cbn [fst snd].
  destruct (https_get w url) as [e|statusCode location chunks ended]; [reflexivity|].
  destruct ((300 <=? statusCode)%Z && (statusCode <? 400)%Z && JS.truthy location).
  - cbn [app forallb is_request andb]. apply IH.
  - destruct (negb (statusCode =? 200)%Z); [reflexivity|].
    destruct ended; reflexivity.
Qed.

(** ** The two attempts *)

Ltac async_simpl :=
  unfold bind, try_catch, ret, throw, log, emit; cbn [fst snd app negb].

Ltac readers := simpl; repeat progress (autorewrite with readers; simpl).

Lemma is_artifact_write_ok g data :
  is_artifact_write g (WriteFile (artifactPath g) data true) = true.
Proof. simpl. apply String.eqb_refl. Qed.

(** One attempt: it ends with [copied] true exactly when the artifact was
    written; it starts no command; its opening log line is its first event
    and no other event of it opens an attempt; it stalls only if the fetch
    does. *)
Lemma try_codec_spec (w : World) (g : Globals) (fuel : nat)
    (codec : bytes -> option bytes) (url : string) :
  let r := try_codec w g fuel codec url in
  fallback_count (fst r) = 0%nat /\ verified (fst r) = false
  /\ commands (fst r) = []
  /\ ((snd r = Fulfilled true /\ written g (fst r) = true)
      \/ (snd r = Fulfilled false /\ written g (fst r) = false)
      \/ (snd r = Pending /\ written g (fst r) = false
          /\ snd (get w fuel url) = Pending))
  /\ (exists t, fst r = trying url :: t /\ forall u, existsb (is_trying u) t = false)
  /\ (forall b data,
        snd (get w fuel url) = Fulfilled (Some b) -> codec b = Some data ->
        fs_mkdir w (path_dirname w (artifactPath g)) = true ->
        fs_writeFile w (artifactPath g) data = true ->
        snd r = Fulfilled true).
Proof.
  unfold try_codec, write, decompress.
  pose proof (get_only_requests w fuel url) as Hreq.
  destruct (get w fuel url) as [t p]. cbn [fst snd] in *.
  destruct (only_requests g t Hreq) as (Hf & Hw & Hv & Hc & Ht).
  assert (Hok := String.eqb_refl (artifactPath g)).
  destruct p as [[b|] | e | ]; async_simpl;
    [destruct (codec b) as [data|] eqn:Hcodec; async_simpl;
     [destruct (fs_mkdir w (path_dirname w (artifactPath g))) eqn:Hmk; async_simpl;
      [destruct (fs_writeFile w (artifactPath g) data) eqn:Hwr; async_simpl| ]| ]
    | | | ];
    (split; [readers; now rewrite ?Hf|]);
    (split; [readers; now rewrite ?Hv|]);
    (split; [readers; now rewrite ?Hc|]);
    (split; [|split; [eexists; split;
                       [reflexivity | intros u; readers; now rewrite ?Ht]|]]).
  all: try (intros b' data' Hg Hd Hm Hwrite; congruence).
  - left. split; [reflexivity|]. readers. rewrite Hw, Hok. reflexivity.
  - right; left. split; [reflexivity|]. readers. now rewrite Hw.
  - right; left. split; [reflexivity|]. readers. now rewrite Hw.
  - right; left. split; [reflexivity|]. readers. now rewrite Hw.
  - right; left. split; [reflexivity|]. readers. now rewrite Hw.
  - right; left. split; [reflexivity|]. readers. now rewrite ?Hw.
  - right; right. split; [reflexivity|]. readers. now rewrite ?Hw.
Qed.

Lemma append_inv_head (p x y : string) : p +:+ x = p +:+ y -> x = y.
Proof. induction p as [|a p IH]; simpl; [auto | intros [= H]; auto]. Qed.

Lemma is_trying_refl url : is_trying url (trying url) = true.
Proof. apply String.eqb_refl. Qed.

(** The two attempts of a run do not open with the same log line. *)
Lemma is_trying_br_gz prefix :
  is_trying (prefix +:+ ".br") (trying (prefix +:+ ".gz")) = false
  /\ is_trying (prefix +:+ ".gz") (trying (prefix +:+ ".br")) = false.
Proof.
  split; apply String.eqb_neq; intros H; apply append_inv_head in H;
    rewrite !append_assoc in H; apply append_inv_head in H; discriminate.
Qed.

(** The copy stage (lines 178-202). *)
Lemma copy_spec (w : World) (g : Globals) (fuel : nat) (prefix : string) :
  let r := copy w g fuel prefix in
  fallback_count (fst r) = 0%nat /\ verified (fst r) = false
  /\ commands (fst r) = []
  /\ ((snd r = Fulfilled true /\ written g (fst r) = true)
      \/ (snd r = Fulfilled false /\ written g (fst r) = false)
      \/ (snd r = Pending /\ written g (fst r) = false
          /\ (snd (get w fuel (prefix +:+ ".br")) = Pending
              \/ snd (get w fuel (prefix +:+ ".gz")) = Pending)))
  /\ (exists t1 t2, fst r = t1 ++ t2
        /\ existsb (is_trying (prefix +:+ ".gz")) t1 = false
        /\ existsb (is_trying (prefix +:+ ".br")) t2 = false)
  /\ (forall codec,
        zlib_brotliDecompress w = Some codec ->
        snd (try_codec w g fuel codec (prefix +:+ ".br")) = Fulfilled true ->
        r = (fst (try_codec w g fuel codec (prefix +:+ ".br")), Fulfilled true)).
Proof.
  unfold copy.
  destruct (is_trying_br_gz prefix) as [Hbg Hgb].
  assert (Hgz : forall codec,
    let r := try_codec w g fuel codec (prefix +:+ ".gz") in
    fallback_count (fst r) = 0%nat /\ verified (fst r) = false
    /\ commands (fst r) = []
    /\ ((snd r = Fulfilled true /\ written g (fst r) = true)
        \/ (snd r = Fulfilled false /\ written g (fst r) = false)
        \/ (snd r = Pending /\ written g (fst r) = false
            /\ snd (get w fuel (prefix +:+ ".gz")) = Pending))
    /\ existsb (is_trying (prefix +:+ ".br")) (fst r) = false).
  { intros codec.
    destruct (try_codec_spec w g fuel codec (prefix +:+ ".gz"))
      as (H1 & H2 & H3 & H4 & (t & Ht & Hnone) & _).
    repeat split; try assumption. rewrite Ht. cbn [existsb].
    now rewrite Hbg, Hnone. }
  destruct (zlib_brotliDecompress w) as [br|].
  - destruct (try_codec_spec w g fuel br (prefix +:+ ".br"))
      as (H1 & H2 & H3 & H4 & (t & Ht & Hnone) & _).
    assert (Hbr : existsb (is_trying (prefix +:+ ".gz"))
                    (fst (try_codec w g fuel br (prefix +:+ ".br"))) = false).
    { rewrite Ht. cbn [existsb]. now rewrite Hgb, Hnone. }
    destruct (try_codec w g fuel br (prefix +:+ ".br")) as [t1 p1] eqn:Htc.
    cbn [fst snd] in *.
    destruct H4 as [[-> Hw1] | [[-> Hw1] | (-> & Hw1 & Hp)]]; async_simpl.
    + destruct (zlib_gunzip w); async_simpl; rewrite List.app_nil_r;
        (split; [assumption|]); (split; [assumption|]); (split; [assumption|]);
        (split; [auto|]);
        (split; [|intros codec [= <-] _; now rewrite Htc]);
        exists t1, []; rewrite List.app_nil_r; auto.
    + destruct (zlib_gunzip w) as [gz|]; async_simpl.
      * destruct (Hgz gz) as (G1 & G2 & G3 & G4 & G5).
        destruct (try_codec w g fuel gz (prefix +:+ ".gz")) as [t2 p2].
        cbn [fst snd] in *.
        split; [readers; now rewrite H1, G1|].
        split; [readers; now rewrite H2, G2|].
        split; [readers; now rewrite H3, G3|].
        split.
        { destruct G4 as [[-> Hw2] | [[-> Hw2] | (-> & Hw2 & Hq)]];
            readers; rewrite Hw1, Hw2; auto 10. }
        split; [exists t1, t2; auto|].
        intros codec [= <-]; rewrite Htc; intros [=].
      * rewrite List.app_nil_r.
        split; [assumption|]. split; [assumption|]. split; [assumption|].
        split; [auto|]. split.
        -- exists t1, []. rewrite List.app_nil_r. auto.
        -- intros codec [= <-]; rewrite Htc; intros [=].
    + split; [assumption|]. split; [assumption|]. split; [assumption|].
      split; [auto 10|]. split.
      * exists t1, []. rewrite List.app_nil_r. auto.
      * intros codec [= <-]; rewrite Htc; intros [=].
  - async_simpl. destruct (zlib_gunzip w) as [gz|]; async_simpl.
    + destruct (Hgz gz) as (G1 & G2 & G3 & G4 & G5).
      destruct (try_codec w g fuel gz (prefix +:+ ".gz")) as [t2 p2].
      cbn [fst snd] in *.
      split; [assumption|]. split; [assumption|]. split; [assumption|].
      split.
      { destruct G4 as [[-> Hw2] | [[-> Hw2] | (-> & Hw2 & Hq)]]; auto 10. }
      split; [exists [], t2; auto|].
      intros codec [=].
    + split; [reflexivity|]. split; [reflexivity|]. split; [reflexivity|].
      split; [auto|]. split; [exists [], []; auto|].
      intros codec [=].
Qed.

(** ** Child processes *)

(** Once a handler has run, the later events of the child are ignored. *)
Lemma child_events_closed (evs : list ChildEvent) (p : promise Z) :
  fold_left on_child_event evs (true, p) = (true, p).
Proof.
  induction evs as [|ev evs IH]; [reflexivity|].
  cbn [fold_left]. destruct ev; cbn [on_child_event]; apply IH.
Qed.

Lemma run_trace (w : World) env cmd suppressOutput :
  fst (run w env cmd suppressOutput)
  = [Exec cmd (negb suppressOutput
               || JS.truthy (env !! "DEVELOPMENT_SHOW_VERIFICATION_RESULTS"))
          (snd (run w env cmd suppressOutput))].
Proof. reflexivity. Qed.

(** The outcome of [run] does not depend on the environment or on whether
    the output is shown. *)
Lemma run_outcome (w : World) env env' cmd s s' :
  snd (run w env cmd s) = snd (run w env' cmd s').
Proof. reflexivity. Qed.

Lemma run_exit_zero (w : World) env cmd s rest :
  child_exec w cmd = OnExit (Some 0%Z) None :: rest ->
  snd (run w env cmd s) = Fulfilled 0%Z.
Proof.
  intros H. unfold run. cbn [snd]. rewrite H. cbn [fold_left on_child_event].
  cbn. now rewrite child_events_closed.
Qed.

Lemma run_exit_code (w : World) env cmd s c rest :
  child_exec w cmd = OnExit (Some c) None :: rest -> c <> 0%Z ->
  snd (run w env cmd s) = Rejected (ExitCode c).
Proof.
  intros H Hc. unfold run. cbn [snd]. rewrite H. cbn [fold_left on_child_event].
  cbn [JS.truthy]. apply Z.eqb_neq in Hc. rewrite Hc. cbn.
  now rewrite child_events_closed.
Qed.

Lemma run_signal (w : World) env cmd s code sig rest :
  child_exec w cmd = OnExit code (Some sig) :: rest -> sig <> "" ->
  snd (run w env cmd s) = Rejected (ExitSignal sig).
Proof.
  intros H Hs. unfold run. cbn [snd]. rewrite H. cbn [fold_left on_child_event].
  cbn [JS.truthy]. apply String.eqb_neq in Hs. rewrite Hs. cbn.
  now rewrite child_events_closed.
Qed.

Lemma run_error (w : World) env cmd s e rest :
  child_exec w cmd = OnError e :: rest ->
  snd (run w env cmd s) = Rejected (ChildError e).
Proof.
  intros H. unfold run. cbn [snd]. rewrite H. cbn [fold_left on_child_event].
  cbn. now rewrite child_events_closed.
Qed.


(** [run] resolves with 0 or rejects; it never resolves with anything else. *)
Lemma run_fulfilled (w : World) env cmd s v :
  snd (run w env cmd s) = Fulfilled v -> v = 0%Z.
Proof.
  unfold run. cbn [snd].
  destruct (child_exec w cmd) as [|ev evs]; [discriminate|].
  cbn [fold_left]. destruct ev as [code sig|e]; cbn [on_child_event].
  - destruct (JS.truthy sig); [cbn; rewrite child_events_closed; discriminate|].
    destruct code as [c|]; [destruct (negb (c =? 0)%Z)|];
      cbn; rewrite child_events_closed; cbn; congruence.
  - cbn. rewrite child_events_closed. discriminate.
Qed.

(** ** [isVerified] *)

Lemma isVerified_spec (w : World) (g : Globals) (env : gmap string string) :
  let r := isVerified w env in
  fallback_count (fst r) = 0%nat /\ written g (fst r) = false
  /\ requests (fst r) = []
  /\ (forall u, existsb (is_trying u) (fst r) = false)
  /\ commands (fst r)
     = match spec_verification_command env with
       | Some cmd => [cmd]
       | None => []
       end
  /\ snd r
     = match spec_verification_command env with
       | Some cmd =>
           match snd (run w env cmd true) with
           | Fulfilled _ => Fulfilled true
           | Rejected _ => Fulfilled false
           | Pending => Pending
           end
       | None => Fulfilled false
       end
  /\ verified (fst r) = match snd r with Fulfilled true => true | _ => false end.
Proof.
  unfold isVerified, spec_verification_command.
  destruct (JS.truthy (env !! "npm_package_scripts_verify_build")).
  - pose proof (run_trace w env "npm run verify-build" true) as Ht.
    destruct (run w env "npm run verify-build" true) as [t p].
    cbn [fst snd] in *. subst t.
    destruct p; async_simpl; repeat split; try (intros u); readers; reflexivity.
  - destruct (JS.truthy (env !! "npm_package_scripts_test")).
    + pose proof (run_trace w env "npm test" true) as Ht.
      destruct (run w env "npm test" true) as [t p].
      cbn [fst snd] in *. subst t.
      destruct p; async_simpl; repeat split; try (intros u); readers; reflexivity.
    + async_simpl. repeat split; try (intros u); readers; reflexivity.
Qed.

(** ** The stages of [main] *)

(** Line 204: verification runs exactly when an artifact was copied. *)
Lemma download_cases (w : World) (g : Globals) (fuel : nat)
    (env : gmap string string) (prefix : string) :
  let r := download w g fuel env prefix in
  let c := copy w g fuel prefix in
  let v := isVerified w env in
  (snd c = Fulfilled true /\ written g (fst c) = true
   /\ fst r = fst c ++ fst v
              ++ match snd v with Fulfilled true => [Log "Done."] | _ => [] end
   /\ snd r = match snd v with
              | Fulfilled true => Fulfilled Returned
              | Fulfilled false => Fulfilled Broke
              | Rejected e => Rejected e
              | Pending => Pending
              end)
  \/ (written g (fst c) = false /\ fst r = fst c
      /\ ((snd c = Fulfilled false /\ snd r = Fulfilled Broke)
          \/ (snd c = Pending /\ snd r = Pending))).
Proof.
  unfold download.
  destruct (copy_spec w g fuel prefix) as (_ & _ & _ & Hc & _).
  destruct (copy w g fuel prefix) as [tc pc]. cbn [fst snd] in *.
  destruct Hc as [[-> Hw] | [[-> Hw] | (-> & Hw & _)]]; async_simpl.
  - left. split; [reflexivity|]. split; [assumption|].
    destruct (isVerified w env) as [tv pv]. cbn [fst snd].
    destruct pv as [[|] | e | ]; cbn [fst snd app]; rewrite ?List.app_nil_r; auto.
  - right. rewrite List.app_nil_r. auto.
  - right. auto.
Qed.

(** What a run through the download stage amounts to. *)
Lemma download_spec (w : World) (g : Globals) (fuel : nat)
    (env : gmap string string) (prefix : string) :
  let r := download w g fuel env prefix in
  fallback_count (fst r) = 0%nat
  /\ ((snd r = Fulfilled Returned /\ written g (fst r) = true
       /\ verified (fst r) = true)
      \/ (snd r = Fulfilled Broke /\ written g (fst r) && verified (fst r) = false)
      \/ (snd r = Pending /\ written g (fst r) && verified (fst r) = false)).
Proof.
  destruct (download_cases w g fuel env prefix) as
    [(Hc & Hw & Ht & Hp) | (Hw & Ht & Hp)];
    destruct (copy_spec w g fuel prefix) as (Cf & Cv & _);
    cbv zeta; rewrite Ht.
  - destruct (isVerified_spec w g env) as (Vf & Vw & _ & _ & _ & Vp & Vv).
    split.
    { readers. rewrite Cf, Vf.
      now destruct (snd (isVerified w env)) as [[|] | |]. }
    rewrite Hp. readers. rewrite Hw, Cv, Vw, Vv.
    destruct (snd (isVerified w env)) as [[|] | e | ] eqn:Hv; readers; auto.
    exfalso.
    destruct (spec_verification_command env); [|discriminate].
    now destruct (snd (run w env s true)).
  - split; [assumption|]. rewrite Hw.
    destruct Hp as [[_ ->] | [_ ->]]; auto.
Qed.

Lemma isDev_spec (w : World) (env : gmap string string) :
  isDev w env = ret (spec_is_development w env).
Proof.
  unfold isDev, spec_is_development.
  destruct (JS.truthy (env !! "DEVELOPMENT_SKIP_GETTING_ASSET")); [reflexivity|].
  now destruct (fs_access w ".development").
Qed.

(** The URL built by [getAssetUrlPrefix] is never the empty string. *)
Lemma getAssetUrlPrefix_truthy (w : World) (g : Globals) env :
  JS.truthy (getAssetUrlPrefix w g env)
  = match getAssetUrlPrefix w g env with Some _ => true | None => false end.
Proof.
  unfold getAssetUrlPrefix. destruct (getRepo (repository_url env)); [|reflexivity].
  cbn [JS.truthy]. destruct (JS.interpolate (mirror_host g env)); reflexivity.
Qed.

(** The block from line 165 on: one of the three early exits, with one log
    line and nothing else, or the download stage. *)
Lemma checks_cases (w : World) (g : Globals) (fuel : nat)
    (env : gmap string string) :
  (exists msg, checks w g fuel env = ([Log msg], Fulfilled Broke)
     /\ (JS.truthy (Some (artifactPath g)) = false
         \/ spec_is_development w env = true
         \/ getAssetUrlPrefix w g env = None))
  \/ (exists prefix,
        JS.truthy (Some (artifactPath g)) = true
        /\ spec_is_development w env = false
        /\ getAssetUrlPrefix w g env = Some prefix
        /\ checks w g fuel env = download w g fuel env prefix).
Proof.
  unfold checks. rewrite isDev_spec, getAssetUrlPrefix_truthy.
  destruct (JS.truthy (Some (artifactPath g))); cbn [negb].
  - destruct (spec_is_development w env); async_simpl.
    + left. eauto.
    + destruct (getAssetUrlPrefix w g env) as [prefix|]; cbn [negb JS.interpolate].
      * right. exists prefix.
        now destruct (download w g fuel env prefix).
      * left. eauto.
  - left. async_simpl. eauto.
Qed.

Lemma read_package_cases (w : World) (env0 : gmap string string) :
  (exists env, read_package w env0 = ([], Fulfilled (env, true)))
  \/ read_package w env0
     = ([Log "Could not retrieve and parse package.json."], Fulfilled (env0, false)).
Proof.
  unfold read_package.
  destruct (JS.truthy (env0 !! "npm_package_json") && _); [|left; eauto].
  destruct (fs_readPackage w _); [left; eauto | right; reflexivity].
Qed.

Lemma fallback_spec (w : World) (g : Globals) (env : gmap string string) :
  let r := fallback w env in
  let p := snd (run w env rebuild_command false) in
  fst r = [Log "Building locally ..."; Exec rebuild_command true p]
  /\ snd r = match p with
             | Fulfilled _ => Fulfilled tt
             | Rejected e => Rejected e
             | Pending => Pending
             end
  /\ fallback_count (fst r) = 1%nat /\ written g (fst r) = false
  /\ verified (fst r) = false /\ requests (fst r) = [].
Proof.
  unfold fallback. fold rebuild_command.
  pose proof (run_trace w env rebuild_command false) as Ht.
  destruct (run w env rebuild_command false) as [t p].
  cbn [fst snd negb orb] in *. subst t.
  destruct p; async_simpl; repeat split; readers; reflexivity.
Qed.

(** ** [main] *)

Lemma main_unfold (w : World) (g : Globals) (fuel : nat) :
  (package_ok w = true
   /\ main w g fuel
      = bind (checks w g fuel (main_env w)) (after_checks w (main_env w)))
  \/ (package_ok w = false
      /\ main w g fuel
         = (Log "Could not retrieve and parse package.json."
              :: fst (fallback w (main_env w)),
            snd (fallback w (main_env w)))).
Proof.
  unfold main, package_ok, main_env.
  destruct (read_package_cases w (locate_package_json w (process_env w)))
    as [[env ->] | ->]; cbn [fst snd].
  - left. split; [reflexivity|]. unfold bind at 1. cbn [fst snd app].
    unfold bind, after_checks.
    destruct (snd (checks w g fuel env)) as [[|] | |]; reflexivity.
  - right. split; [reflexivity|]. unfold bind at 1. cbn [fst snd app].
    unfold bind at 1. cbn [ret fst snd app].
    now destruct (fallback w _).
Qed.

(** A run that does not get to line 178 logs one line and builds. *)
Lemma main_without_download (w : World) (g : Globals) (fuel : nat) :
  download_stage w g = None ->
  exists msg, main w g fuel
    = (Log msg :: fst (fallback w (main_env w)), snd (fallback w (main_env w))).
Proof.
  unfold download_stage. intros Hstage.
  destruct (main_unfold w g fuel) as [[Hok ->] | [Hok ->]]; [|eauto].
  rewrite Hok in Hstage.
  destruct (checks_cases w g fuel (main_env w)) as
    [(msg & -> & _) | (prefix & Hpath & Hdev & Hprefix & _)].
  - exists msg. unfold bind. cbn [fst snd app after_checks]. reflexivity.
  - rewrite Hpath, Hdev, Hprefix in Hstage. discriminate.
Qed.

(** A run that gets to line 178 is the download stage and what follows. *)
Lemma main_with_download (w : World) (g : Globals) (fuel : nat) prefix :
  download_stage w g = Some prefix ->
  main w g fuel
  = bind (download w g fuel (main_env w) prefix) (after_checks w (main_env w)).
Proof.
  unfold download_stage. intros Hstage.
  destruct (main_unfold w g fuel) as [[Hok ->] | [Hok _]];
    rewrite Hok in Hstage; [|discriminate].
  destruct (checks_cases w g fuel (main_env w)) as
    [(msg & _ & [Hc | [Hc | Hc]]) | (prefix' & Hpath & Hdev & Hprefix & ->)].
  - rewrite Hc in Hstage. discriminate.
  - rewrite Hc, andb_false_r in Hstage. discriminate.
  - rewrite Hc in Hstage. now destruct (_ && _).
  - rewrite Hpath, Hdev, Hprefix in Hstage. now injection Hstage as ->.
Qed.

(** The three ways a run can go: accepted, fallback, or stalled before the
    decision. *)
Lemma main_summary (w : World) (g : Globals) (fuel : nat) :
  let r := main w g fuel in
  let p := snd (run w (main_env w) rebuild_command false) in
  (written g (fst r) = true /\ verified (fst r) = true
   /\ fallback_count (fst r) = 0%nat /\ snd r = Fulfilled tt)
  \/ (written g (fst r) && verified (fst r) = false
      /\ fallback_count (fst r) = 1%nat
      /\ snd r = match p with
                 | Fulfilled _ => Fulfilled tt
                 | Rejected e => Rejected e
                 | Pending => Pending
                 end)
  \/ (written g (fst r) && verified (fst r) = false
      /\ fallback_count (fst r) = 0%nat /\ snd r = Pending).
Proof.
  cbv zeta.
  destruct (fallback_spec w g (main_env w)) as (_ & Fp & Ff & Fw & Fv & _).
  destruct (download_stage w g) as [prefix|] eqn:Hstage.
  2: { destruct (main_without_download w g fuel Hstage) as [msg ->].
       destruct (fallback w (main_env w)) as [tf pf]. cbn [fst snd] in *.
       right; left. readers. rewrite Fw, Fv, Ff. auto. }
  rewrite (main_with_download w g fuel prefix Hstage).
    destruct (download_spec w g fuel (main_env w) prefix) as (Df & Dcases).
    destruct (download w g fuel (main_env w) prefix) as [td pd].
    cbn [fst snd] in *.
    destruct Dcases as [(-> & Dw & Dv) | [(-> & Dwv) | (-> & Dwv)]];
      unfold bind; cbn [fst snd after_checks ret].
  - left. rewrite List.app_nil_r. auto.
  - destruct (fallback w (main_env w)) as [tf pf]. cbn [fst snd] in *.
    right; left. readers. rewrite Fw, Fv, Ff, Df, !orb_false_r. auto.
  - right; right. auto.
Qed.

Lemma checks_never_rejects (w : World) (g : Globals) (fuel : nat) env e :
  snd (checks w g fuel env) <> Rejected e.
Proof.
  destruct (checks_cases w g fuel env) as [(msg & -> & _) | (prefix & _ & _ & _ & ->)];
    [discriminate|].
  destruct (download_spec w g fuel env prefix) as (_ & [(-> & _) | [(-> & _) | (-> & _)]]);
    discriminate.
Qed.

Lemma read_package_never_rejects (w : World) env0 e :
  snd (read_package w env0) <> Rejected e.
Proof.
  destruct (read_package_cases w env0) as [[env ->] | ->]; discriminate.
Qed.





(** A fetch that does not settle stalls its attempt, the copy stage and the
    run: nothing catches a promise that is still pending. *)
Lemma try_codec_stalls (w : World) (g : Globals) (fuel : nat)
    (codec : bytes -> option bytes) (url : string) :
  snd (get w fuel url) = Pending ->
  snd (try_codec w g fuel codec url) = Pending.
Proof.
  unfold try_codec. destruct (get w fuel url) as [t p]. cbn [snd].
  intros ->. reflexivity.
Qed.




(** ** Development mode *)

Lemma locate_package_json_lookup (w : World) env k :
  k <> "npm_package_json" -> locate_package_json w env !! k = env !! k.
Proof.
  intros Hk. unfold locate_package_json.
  destruct (_ && _); [|reflexivity].
  destruct (fs_existsSync w _); [|reflexivity].
  now rewrite lookup_insert_ne.
Qed.

Lemma main_env_development (w : World) :
  main_env w !! "DEVELOPMENT_SKIP_GETTING_ASSET"
  = process_env w !! "DEVELOPMENT_SKIP_GETTING_ASSET".
Proof.
  unfold main_env, read_package.
  destruct (JS.truthy _ && _).
  - destruct (fs_readPackage w _) as [pkg|]; cbn [snd fst ret log emit bind].
    + unfold populate. rewrite !lookup_insert_ne by discriminate.
      now apply locate_package_json_lookup.
    + now apply locate_package_json_lookup.
  - now apply locate_package_json_lookup.
Qed.

(** C8. When the development-skip flag is set in the environment, or the
    [.development] marker exists, [isDev] answers true, and the run issues
    no network request and starts the fallback build (exactly once),
    whatever the rest of the configuration. *)
Theorem development_mode_skips_network (w : World) (g : Globals) (fuel : nat) :
  JS.truthy (process_env w !! "DEVELOPMENT_SKIP_GETTING_ASSET") = true
  \/ fs_access w ".development" = true ->
  isDev w (main_env w) = ret true
  /\ requests (fst (main w g fuel)) = []
  /\ fallback_count (fst (main w g fuel)) = 1%nat.
Proof.
  intros Hdev.
  assert (Hspec : spec_is_development w (main_env w) = true).
  { unfold spec_is_development. rewrite main_env_development.
    destruct Hdev as [-> | ->]; [reflexivity | apply orb_true_r]. }
  split; [now rewrite isDev_spec, Hspec|].
  assert (Hstage : download_stage w g = None).
  { unfold download_stage. now rewrite Hspec, andb_false_r. }
  destruct (main_without_download w g fuel Hstage) as [msg ->].
  destruct (fallback_spec w g (main_env w)) as (_ & _ & Hf & _ & _ & Hr).
  cbn [fst]. autorewrite with readers. cbn [is_request is_fallback].
  now rewrite Hr, Hf.
Qed.

Lemma development_mode_skips_network_witness :
  requests (fst (main development_world sample_globals 3)) = []
  /\ fallback_count (fst (main development_world sample_globals 3)) = 1%nat.
Proof.
  apply (development_mode_skips_network development_world sample_globals 3).
  left. vm_compute. reflexivity.
Defined.

(** ** Failures *)

(** A fetch that fails, data that the codec rejects, and a file that cannot
    be written all leave [copied] false. *)
Lemma try_codec_recovers (w : World) (g : Globals) (fuel : nat)
    (codec : bytes -> option bytes) (url : string) :
  (forall e, snd (get w fuel url) = Rejected e ->
     snd (try_codec w g fuel codec url) = Fulfilled false)
  /\ (forall b, snd (get w fuel url) = Fulfilled (Some b) -> codec b = None ->
        snd (try_codec w g fuel codec url) = Fulfilled false)
  /\ (snd (get w fuel url) = Fulfilled None ->
        snd (try_codec w g fuel codec url) = Fulfilled false).
Proof.
  unfold try_codec, decompress.
  destruct (get w fuel url) as [t p]. cbn [fst snd].
  repeat split.
  - intros e ->. reflexivity.
  - intros b -> Hb. async_simpl. rewrite Hb. reflexivity.
  - intros ->. reflexivity.
Qed.

Lemma isVerified_recovers (w : World) (env : gmap string string) :
  (spec_verification_command env = None ->
     snd (isVerified w env) = Fulfilled false)
  /\ (forall cmd e, spec_verification_command env = Some cmd ->
        snd (run w env cmd true) = Rejected e ->
        snd (isVerified w env) = Fulfilled false)
  /\ (forall cmd v, spec_verification_command env = Some cmd ->
        snd (run w env cmd true) = Fulfilled v ->
        snd (isVerified w env) = Fulfilled true).
Proof.
  destruct (isVerified_spec w (mkGlobals "" "" "" "" "" "") env)
    as (_ & _ & _ & _ & _ & Hp & _).
  rewrite Hp. repeat split.
  - now intros ->.
  - now intros cmd e -> ->.
  - now intros cmd v -> ->.
Qed.

(** A [package.json] that cannot be read or parsed sends the run to the
    fallback build, without a request. *)
Lemma main_package_unreadable (w : World) (g : Globals) (fuel : nat) (path : string) :
  locate_package_json w (process_env w) !! "npm_package_json" = Some path ->
  test re_package_json path = true ->
  fs_readPackage w path = None ->
  requests (fst (main w g fuel)) = []
  /\ fallback_count (fst (main w g fuel)) = 1%nat.
Proof.
  intros Hpath Htest Hread.
  assert (Htruthy : JS.truthy (Some path) = true)
    by (destruct path; [discriminate Htest | reflexivity]).
  assert (Hok : package_ok w = false).
  { unfold package_ok, read_package. rewrite Hpath, Htruthy.
    cbn [JS.interpolate andb]. now rewrite Htest, Hread. }
  assert (Hstage : download_stage w g = None)
    by (unfold download_stage; now rewrite Hok).
  destruct (main_without_download w g fuel Hstage) as [msg ->].
  destruct (fallback_spec w g (main_env w)) as (Ft & _ & Hf & _).
  cbn [fst]. autorewrite with readers. cbn [is_request is_fallback].
  rewrite Hf, Ft. split; reflexivity.
Qed.

(** What holds of the failures for every world.  The rebuild command fails
    when it exits with a non-zero code, is terminated by a signal, or
    cannot be started; when the fallback build was started and fails,
    [main] rejects with that failure, nothing handles the rejection, and
    the script ends with it.  No other failure leaves [main]: a rejection
    of [main] is always the rejection of the rebuild command; the steps
    before the fallback never reject (a failed fetch, whether by HTTP status
    or by an error of the request, undecodable data, and a failed or
    missing verification are all turned into a value); a run that does not
    get to the download stage (configuration, development mode, no URL), a
    run whose [package.json] cannot be read, and a settled run without an
    accepted artifact start the fallback build.  A fetch that does not
    settle is not among the failures that are recovered. *)
Lemma rebuild_failure_is_the_only_unrecovered_failure
    (w : World) (g : Globals) (fuel : nat) :
  let r := main w g fuel in
  let p := snd (run w (main_env w) rebuild_command false) in
  (forall c rest, child_exec w rebuild_command = OnExit (Some c) None :: rest ->
     c <> 0%Z -> p = Rejected (ExitCode c))
  /\ (forall code sig rest,
        child_exec w rebuild_command = OnExit code (Some sig) :: rest ->
        sig <> "" -> p = Rejected (ExitSignal sig))
  /\ (forall e rest, child_exec w rebuild_command = OnError e :: rest ->
        p = Rejected (ChildError e))
  /\ (forall e, (0 < fallback_count (fst r))%nat -> p = Rejected e ->
        snd r = Rejected e)
  /\ (forall e, load w = Ok g -> snd r = Rejected e ->
        snd (script w fuel) = UnhandledRejection e)
  /\ (forall e, snd r = Rejected e ->
        fallback_count (fst r) = 1%nat /\ p = Rejected e)
  /\ (forall env e, snd (read_package w env) <> Rejected e)
  /\ (forall env e, snd (checks w g fuel env) <> Rejected e)
  /\ (forall codec url e, snd (get w fuel url) = Rejected e ->
        snd (try_codec w g fuel codec url) = Fulfilled false)
  /\ (forall codec url b, snd (get w fuel url) = Fulfilled (Some b) ->
        codec b = None -> snd (try_codec w g fuel codec url) = Fulfilled false)
  /\ (forall env cmd e, spec_verification_command env = Some cmd ->
        snd (run w env cmd true) = Rejected e ->
        snd (isVerified w env) = Fulfilled false)
  /\ (forall env, spec_verification_command env = None ->
        snd (isVerified w env) = Fulfilled false)
  /\ (download_stage w g = None -> fallback_count (fst r) = 1%nat)
  /\ (settled (snd r) -> accepted g (fst r) = false ->
        fallback_count (fst r) = 1%nat)
  /\ (forall path,
        locate_package_json w (process_env w) !! "npm_package_json" = Some path ->
        test re_package_json path = true ->
        fs_readPackage w path = None ->
        requests (fst r) = [] /\ fallback_count (fst r) = 1%nat)
  /\ (forall codec url, snd (get w fuel url) = Pending ->
        snd (try_codec w g fuel codec url) = Pending).
Proof.
  cbv zeta.
  split; [intros; eapply run_exit_code; eassumption|].
  split; [intros; eapply run_signal; eassumption|].
  split; [intros; eapply run_error; eassumption|].
  assert (Hsum := main_summary w g fuel). cbv zeta in Hsum.
  split.
  { intros e Hcount Hp.
    destruct Hsum as [(_ & _ & Hf & _) | [(_ & _ & ->) | (_ & Hf & _)]];
      [lia | now rewrite Hp | lia]. }
  split.
  { intros e Hload Hr. unfold script. rewrite Hload. cbn [snd]. now rewrite Hr. }
  split.
  { intros e Hr.
    destruct Hsum as [(_ & _ & _ & Hp) | [(_ & Hf & Hp) | (_ & _ & Hp)]];
      try congruence.
    split; [assumption|]. rewrite Hr in Hp.
    destruct (snd (run w (main_env w) rebuild_command false)); congruence. }
  split; [intros; apply read_package_never_rejects|].
  split; [intros; apply checks_never_rejects|].
  split; [intros codec url; apply try_codec_recovers|].
  split; [intros codec url; apply try_codec_recovers|].
  split; [intros env; apply isVerified_recovers|].
  split; [intros env; apply isVerified_recovers|].
  split.
  { intros Hstage. destruct (main_without_download w g fuel Hstage) as [msg ->].
    destruct (fallback_spec w g (main_env w)) as (_ & _ & Hf & _).
    cbn [fst]. autorewrite with readers. cbn [is_fallback]. now rewrite Hf. }
  split.
  { unfold settled, accepted. intros Hsettled Hacc.
    destruct Hsum as [(Hw & Hv & _) | [(_ & Hf & _) | (_ & _ & Hp)]];
      [rewrite Hw, Hv in Hacc; discriminate | assumption | contradiction]. }
  split; [intros path; apply main_package_unreadable|].
  intros codec url. apply try_codec_stalls.
Qed.

Lemma rebuild_failure_witness :
  snd (script (sample_world sample_env glibc_spawn serving failing) 3)
  = UnhandledRejection (ExitCode 1).
Proof.
  apply (rebuild_failure_is_the_only_unrecovered_failure
           (sample_world sample_env glibc_spawn serving failing) sample_globals 3);
    vm_compute; reflexivity.
Defined.

(** C9 fails on the code: a transport failure in the middle of the body is
    not recovered into the fallback path.  On a host that answers 200 and
    loses the connection before the body ends, the script opens the brotli
    attempt, issues its request, and stops there: the promise of [get]
    never settles, so neither [catch] of [main] runs, the gzip attempt and
    the fallback build are never started, and the promise of [main] is
    left pending, whatever the number of requests allowed. *)
Theorem transport_failure_in_the_body_is_not_recovered :
  forall fuel,
    script cut_short_world (S fuel)
    = ([trying sample_asset; HttpGet sample_asset], Stalled).
Proof. intros fuel. vm_compute. reflexivity. Qed.

(** ** Verification *)

(** A run in which an artifact was written went through the download stage,
    copied, and ran [isVerified]; the fallback build follows exactly when
    [isVerified] answers false. *)
Lemma main_written (w : World) (g : Globals) (fuel : nat) :
  written g (fst (main w g fuel)) = true ->
  (snd (isVerified w (main_env w)) = Fulfilled true ->
     fallback_count (fst (main w g fuel)) = 0%nat
     /\ snd (main w g fuel) = Fulfilled tt)
  /\ (snd (isVerified w (main_env w)) = Fulfilled false ->
        fallback_count (fst (main w g fuel)) = 1%nat).
Proof.
  intros Hw.
  destruct (fallback_spec w g (main_env w)) as (_ & _ & Ff & Fw & _).
  destruct (download_stage w g) as [prefix|] eqn:Hstage.
  2: { destruct (main_without_download w g fuel Hstage) as [msg Hm].
       rewrite Hm in Hw. cbn [fst] in Hw. autorewrite with readers in Hw.
       cbn [is_artifact_write orb] in Hw. congruence. }
  rewrite (main_with_download w g fuel prefix Hstage) in *.
  destruct (download_spec w g fuel (main_env w) prefix) as (Df & _).
  destruct (download_cases w g fuel (main_env w) prefix) as
    [(_ & _ & _ & Hd) | (Hcw & Ht & Hd)].
  - destruct (download w g fuel (main_env w) prefix) as [td pd].
    cbn [fst snd] in *. subst pd. split; intros Hv; rewrite Hv in *;
      unfold bind; cbn [fst snd after_checks ret].
    + now rewrite List.app_nil_r.
    + autorewrite with readers. now rewrite Df, Ff.
  - exfalso.
    destruct (download w g fuel (main_env w) prefix) as [td pd].
    cbn [fst snd] in *. subst td.
    destruct Hd as [[_ ->] | [_ ->]]; unfold bind in Hw;
      cbn [fst snd after_checks] in Hw; autorewrite with readers in Hw;
      rewrite ?Hcw, ?Fw in Hw; discriminate.
Qed.

(** C4. [isVerified] runs [npm run verify-build] when a verify-build script
    is configured, else [npm test] when a test script is configured, else it
    runs nothing and answers false at once.  In a run in which an artifact
    was written: when the selected command exits with code 0, the fallback
    build is not started; when it exits with code 1, the fallback build is
    started exactly once. *)
Theorem isVerified_selects_and_decides (w : World) (g : Globals) (fuel : nat) :
  (forall env,
     (JS.truthy (env !! "npm_package_scripts_verify_build") = true ->
        commands (fst (isVerified w env)) = ["npm run verify-build"])
     /\ (JS.truthy (env !! "npm_package_scripts_verify_build") = false ->
         JS.truthy (env !! "npm_package_scripts_test") = true ->
           commands (fst (isVerified w env)) = ["npm test"])
     /\ (JS.truthy (env !! "npm_package_scripts_verify_build") = false ->
         JS.truthy (env !! "npm_package_scripts_test") = false ->
           isVerified w env
           = ([Log "No verify-build nor test scripts were found -- no way to verify the build automatically."],
              Fulfilled false)))
  /\ (forall cmd rest,
        written g (fst (main w g fuel)) = true ->
        spec_verification_command (main_env w) = Some cmd ->
        child_exec w cmd = OnExit (Some 0%Z) None :: rest ->
        fallback_count (fst (main w g fuel)) = 0%nat)
  /\ (forall cmd rest,
        written g (fst (main w g fuel)) = true ->
        spec_verification_command (main_env w) = Some cmd ->
        child_exec w cmd = OnExit (Some 1%Z) None :: rest ->
        fallback_count (fst (main w g fuel)) = 1%nat).
Proof.
  split.
  { intros env.
    destruct (isVerified_spec w g env) as (_ & _ & _ & _ & Hc & _).
    unfold spec_verification_command in Hc.
    split; [intros H; now rewrite H in Hc|].
    split; [intros H1 H2; now rewrite H1, H2 in Hc|].
    intros H1 H2. unfold isVerified. now rewrite H1, H2. }
  split; intros cmd rest Hw Hcmd Hexit;
    destruct (main_written w g fuel Hw) as [Hpass Hfail];
    destruct (isVerified_recovers w (main_env w)) as (_ & Hrej & Hok).
  - apply Hpass. apply (Hok cmd 0%Z Hcmd).
    eapply run_exit_zero; eassumption.
  - apply Hfail. apply (Hrej cmd (ExitCode 1) Hcmd).
    eapply run_exit_code; [eassumption | discriminate].
Qed.

Lemma isVerified_selects_and_decides_witness :
  fallback_count (fst (main accepting_world sample_globals 3)) = 0%nat
  /\ fallback_count
       (fst (main (sample_world sample_env glibc_spawn serving failing_verification)
                  sample_globals 3)) = 1%nat.
Proof.
  split.
  - apply (proj1 (proj2 (isVerified_selects_and_decides
                            accepting_world sample_globals 3)) "npm test" []);
      vm_compute; reflexivity.
  - apply (proj2 (proj2 (isVerified_selects_and_decides
                            (sample_world sample_env glibc_spawn serving
                                          failing_verification)
                            sample_globals 3)) "npm test" []);
      vm_compute; reflexivity.
Defined.

(** ** [get] *)

Lemma get_redirect (w : World) (fuel : nat) url statusCode location chunks ended :
  https_get w url = Reply statusCode (Some location) chunks ended ->
  (300 <= statusCode < 400)%Z -> location <> "" ->
  get w (S fuel) url
  = (HttpGet url :: fst (get w fuel location), snd (get w fuel location)).
Proof.
  intros Hget [Hlo Hhi] Hloc. cbn [get]. rewrite Hget.
  apply Z.leb_le in Hlo. apply Z.ltb_lt in Hhi. apply String.eqb_neq in Hloc.
  cbn [JS.truthy JS.interpolate]. rewrite Hlo, Hhi, Hloc. reflexivity.
Qed.

Lemma get_final (w : World) (fuel : nat) url :
  final_response w url ->
  get w (S fuel) url = get w 1 url
  /\ (body_ends w url -> settled (snd (get w 1 url))).
Proof.
  unfold final_response, body_ends, settled. intros Hfinal. cbn [get].
  destruct (https_get w url) as [e|statusCode location chunks ended];
    [split; [reflexivity | discriminate]|].
  rewrite Hfinal.
  destruct (negb (statusCode =? 200)%Z); [split; [reflexivity | discriminate]|].
  split; [reflexivity|]. intros ->. discriminate.
Qed.

Lemma get_chain (w : World) n url final :
  redirects w n url final ->
  forall fuel, snd (get w (n + fuel) url) = snd (get w fuel final).
Proof.
  induction 1 as [url | n url statusCode location chunks ended final Hget Hs Hloc _ IH];
    intros fuel; [reflexivity|].
  cbn [Nat.add].
  rewrite (get_redirect w _ url statusCode location chunks ended) by assumption.
  apply IH.
Qed.

(** A 200 response whose body does not come to its end: one request, and a
    promise that nothing settles. *)
Lemma get_cut (w : World) (fuel : nat) url location chunks :
  https_get w url = Reply 200 location chunks false ->
  get w (S fuel) url = ([HttpGet url], Pending).
Proof. intros Hget. cbn [get]. now rewrite Hget. Qed.

(** What holds of [get] for every world.  A 3xx response with a (non-empty)
    [Location] makes [get] issue a new GET for that location and take its
    outcome; so a chain of any number [n] of redirections from [url] to
    [final] gives what [get final] gives, and it does give a result as
    soon as more than [n] requests are allowed, [final] answers for itself
    and the body of its answer comes to its end.  A status that is neither
    3xx nor 200 rejects with an error that carries the status code; an
    error of the request rejects with that error; a 200 whose body ends
    resolves with the chunks of the body, concatenated; a 200 whose body
    does not end leaves the promise pending. *)
Lemma get_follows_redirects_and_reports_failures (w : World) :
  (forall fuel url statusCode location chunks ended,
     https_get w url = Reply statusCode (Some location) chunks ended ->
     (300 <= statusCode < 400)%Z -> location <> "" ->
     get w (S fuel) url
     = (HttpGet url :: fst (get w fuel location), snd (get w fuel location)))
  /\ (forall n url final fuel,
        redirects w n url final ->
        snd (get w (n + fuel) url) = snd (get w fuel final))
  /\ (forall n url final fuel,
        redirects w n url final -> final_response w final -> (n < fuel)%nat ->
        snd (get w fuel url) = snd (get w 1 final)
        /\ (body_ends w final -> settled (snd (get w fuel url))))
  /\ (forall fuel url statusCode location chunks ended,
        https_get w url = Reply statusCode location chunks ended ->
        ~ (300 <= statusCode < 400)%Z -> statusCode <> 200%Z ->
        snd (get w (S fuel) url) = Rejected (StatusError statusCode url))
  /\ (forall fuel url e,
        https_get w url = NetError e ->
        snd (get w (S fuel) url) = Rejected (TransportError e))
  /\ (forall fuel url location chunks,
        https_get w url = Reply 200 location chunks true ->
        snd (get w (S fuel) url) = Fulfilled (fold_left on_data chunks None))
  /\ (forall fuel url location chunks,
        https_get w url = Reply 200 location chunks false ->
        snd (get w (S fuel) url) = Pending).
Proof.
  split; [intros; eapply get_redirect; eassumption|].
  split; [intros; now apply get_chain|].
  split.
  { intros n url final fuel Hchain Hfinal Hfuel.
    replace fuel with (n + S (fuel - S n))%nat by lia.
    rewrite (get_chain w n url final Hchain).
    destruct (get_final w (fuel - S n) final Hfinal) as [-> Hs]. auto. }
  split.
  { intros fuel url statusCode location chunks ended Hget Hnot Hne.
    cbn [get]. rewrite Hget.
    assert (Hrange : ((300 <=? statusCode)%Z && (statusCode <? 400)%Z) = false).
    { apply andb_false_iff.
      destruct (Z.leb_spec 300 statusCode); [|auto].
      destruct (Z.ltb_spec statusCode 400); [|auto]. lia. }
    rewrite Hrange. cbn [andb]. apply Z.eqb_neq in Hne. now rewrite Hne. }
  split.
  { intros fuel url e Hget. cbn [get]. now rewrite Hget. }
  split.
  { intros fuel url location chunks Hget. cbn [get]. now rewrite Hget. }
  intros fuel url location chunks Hget. now rewrite (get_cut w fuel url location chunks).
Qed.

Lemma get_follows_redirects_witness :
  snd (get redirecting_world (3 + 1) "https://host/a")
  = snd (get redirecting_world 1 "https://host/d")
  /\ snd (get redirecting_world 1 "https://host/d")
     = Fulfilled (Some [Byte.x01; Byte.x02]).
Proof.
  split; [|reflexivity].
  apply (proj1 (proj2 (get_follows_redirects_and_reports_failures redirecting_world))).
  eapply redirects_step; [reflexivity | lia | discriminate |].
  eapply redirects_step; [reflexivity | lia | discriminate |].
  eapply redirects_step; [reflexivity | lia | discriminate |].
  apply redirects_nil.
Defined.

(** C5 fails on the code: a transport failure in the middle of the body
    does not make [get] fail.  The host answers 200, a chunk arrives, and
    the connection is lost: the ['data'] handler has run, ['end'] never
    fires, the request emits no ['error'] any more, and nothing listens to
    the response for it.  Whatever the number of requests allowed, [get]
    has issued its one request and its promise is neither fulfilled nor
    rejected. *)
Theorem get_stays_pending_when_the_body_is_cut :
  forall fuel,
    get cut_short_world (S fuel) sample_asset = ([HttpGet sample_asset], Pending).
Proof. intros fuel. reflexivity. Qed.

(** ** The order of the attempts *)

Lemma requests_only (t : list event) :
  forallb is_request t = true -> requests t = t.
Proof.
  induction t as [|e t IH]; [reflexivity|]. cbn [forallb]. intros H.
  apply andb_prop in H as [He H]. rewrite requests_cons, He. now rewrite IH.
Qed.

(** The requests of an attempt are those of its fetch. *)
Lemma try_codec_requests (w : World) (g : Globals) (fuel : nat)
    (codec : bytes -> option bytes) (url : string) :
  requests (fst (try_codec w g fuel codec url)) = fst (get w fuel url).
Proof.
  unfold try_codec, write, decompress.
  pose proof (requests_only _ (get_only_requests w fuel url)) as Hreq.
  destruct (get w fuel url) as [t p]. cbn [fst snd] in *.
  destruct p as [[b|] | e | ]; async_simpl;
    [destruct (codec b) as [data|]; async_simpl;
     [destruct (fs_mkdir w (path_dirname w (artifactPath g))); async_simpl;
      [destruct (fs_writeFile w (artifactPath g) data); async_simpl| ]| ]
    | | | ];
    autorewrite with readers; cbn [is_request]; autorewrite with readers;
    rewrite ?Hreq, ?List.app_nil_r; reflexivity.
Qed.

(** After the copy stage a run opens no attempt and issues no request. *)
Lemma main_after_copy (w : World) (g : Globals) (fuel : nat) prefix :
  download_stage w g = Some prefix ->
  exists rest,
    fst (main w g fuel) = fst (copy w g fuel prefix) ++ rest
    /\ (forall u, existsb (is_trying u) rest = false)
    /\ requests rest = [].
Proof.
  intros Hstage. rewrite (main_with_download w g fuel prefix Hstage).
  destruct (isVerified_spec w g (main_env w)) as (_ & _ & Vr & Vt & _).
  destruct (fallback_spec w g (main_env w)) as (Ft & _ & _ & _ & _ & Fr).
  assert (Ftry : forall u, existsb (is_trying u) (fst (fallback w (main_env w))) = false)
    by (intros u; rewrite Ft; reflexivity).
  destruct (download_cases w g fuel (main_env w) prefix) as
    [(_ & _ & Ht & Hd) | (_ & Ht & Hd)];
    destruct (download w g fuel (main_env w) prefix) as [td pd];
    cbn [fst snd] in *; subst td.
  - subst pd. unfold bind.
    destruct (snd (isVerified w (main_env w))) as [[|] | e | ];
      cbn [fst snd after_checks ret]; rewrite <- ?List.app_assoc;
      eexists; (split; [reflexivity|]); split;
      try (intros u); autorewrite with readers; cbn [is_request];
      rewrite ?Vr, ?Vt, ?Fr, ?Ftry; reflexivity.
  - destruct Hd as [[_ ->] | [_ ->]]; unfold bind;
      cbn [fst snd after_checks].
    + eexists; split; [reflexivity|]. now split.
    + exists []. rewrite List.app_nil_r. now split.
Qed.

Lemma trying_occurs (u : string) (t : list event) (i : nat) :
  t !! i = Some (trying u) -> existsb (is_trying u) t = true.
Proof.
  intros H. apply existsb_exists. exists (trying u). split.
  - apply list_elem_of_In. eapply list_elem_of_lookup_2. eassumption.
  - apply is_trying_refl.
Qed.

(** If the first part of a run does not open [b] and the second does not
    open [a], every opening of [a] comes before every opening of [b]. *)
Lemma split_order (t1 t2 : list event) (a b : string) (i j : nat) :
  existsb (is_trying b) t1 = false ->
  existsb (is_trying a) t2 = false ->
  (t1 ++ t2) !! i = Some (trying a) ->
  (t1 ++ t2) !! j = Some (trying b) ->
  (i < j)%nat.
Proof.
  intros Hb Ha Hi Hj.
  destruct (Nat.lt_ge_cases i (length t1)) as [Hlt | Hge].
  - destruct (Nat.lt_ge_cases j (length t1)) as [Hlt' | Hge']; [|lia].
    rewrite lookup_app_l in Hj by assumption.
    apply trying_occurs in Hj. congruence.
  - rewrite lookup_app_r in Hi by assumption.
    apply trying_occurs in Hi. congruence.
Qed.

(** C3. In a run that gets to the download stage, the brotli attempt comes
    before the gzip attempt.  When the brotli attempt succeeds (the fetch
    resolves, the data decompress, the directory and the file are written),
    the gzip attempt is never opened and the only requests of the run are
    those of the brotli fetch, whatever the verification says; and when the
    verification then fails, the fallback build is started (once). *)
Theorem brotli_first_and_first_success_final
    (w : World) (g : Globals) (fuel : nat) (prefix : string) :
  download_stage w g = Some prefix ->
  (forall i j,
     fst (main w g fuel) !! i = Some (trying (prefix +:+ ".br")) ->
     fst (main w g fuel) !! j = Some (trying (prefix +:+ ".gz")) ->
     (i < j)%nat)
  /\ (forall codec b data,
        zlib_brotliDecompress w = Some codec ->
        snd (get w fuel (prefix +:+ ".br")) = Fulfilled (Some b) ->
        codec b = Some data ->
        fs_mkdir w (path_dirname w (artifactPath g)) = true ->
        fs_writeFile w (artifactPath g) data = true ->
        ~ In (trying (prefix +:+ ".gz")) (fst (main w g fuel))
        /\ requests (fst (main w g fuel)) = fst (get w fuel (prefix +:+ ".br"))
        /\ (snd (isVerified w (main_env w)) = Fulfilled false ->
            fallback_count (fst (main w g fuel)) = 1%nat)).
Proof.
  intros Hstage.
  destruct (main_after_copy w g fuel prefix Hstage) as (rest & Hmain & Htry & Hreq).
  destruct (copy_spec w g fuel prefix) as (_ & _ & _ & _ & (t1 & t2 & Hc & H1 & H2) & Hbr).
  split.
  - intros i j Hi Hj. rewrite Hmain, Hc, <- List.app_assoc in Hi, Hj.
    eapply (split_order t1 (t2 ++ rest)); try eassumption.
    now rewrite existsb_app, H2, Htry.
  - intros codec b data Hcodec Hget Hdata Hmk Hwr.
    destruct (try_codec_spec w g fuel codec (prefix +:+ ".br"))
      as (_ & _ & _ & Hcases & (t & Ht & Hnone) & Hok).
    specialize (Hok b data Hget Hdata Hmk Hwr).
    specialize (Hbr codec Hcodec Hok).
    assert (Hcopy : fst (copy w g fuel prefix)
                    = fst (try_codec w g fuel codec (prefix +:+ ".br")))
      by now rewrite Hbr.
    split; [|split].
    + intros Hin.
      assert (Hex : existsb (is_trying (prefix +:+ ".gz")) (fst (main w g fuel)) = true).
      { apply existsb_exists. eexists. split; [exact Hin | apply is_trying_refl]. }
      rewrite Hmain, Hcopy, Ht, existsb_app in Hex. cbn [existsb] in Hex.
      destruct (is_trying_br_gz prefix) as [_ Hgb].
      rewrite Hgb, Hnone, Htry in Hex. discriminate.
    + rewrite Hmain, requests_app, Hreq, Hcopy, List.app_nil_r.
      apply try_codec_requests.
    + intros Hv. apply (main_written w g fuel); [|assumption].
      rewrite Hmain, written_app, Hcopy.
      destruct Hcases as [[_ ->] | [[Hx _] | (Hx & _)]];
        [reflexivity | congruence | congruence].
Qed.

Lemma brotli_first_and_first_success_final_witness :
  requests (fst (main accepting_world sample_globals 3))
  = fst (get accepting_world 3
           ("https://github.com/o/r/releases/download/1.0.0/linux-x64-115" +:+ ".br")).
Proof.
  apply (proj2 (brotli_first_and_first_success_final
                  accepting_world sample_globals 3
                  "https://github.com/o/r/releases/download/1.0.0/linux-x64-115"
                  ltac:(vm_compute; reflexivity))
               (fun b => Some b) [Byte.x01] [Byte.x01]);
    vm_compute; reflexivity.
Defined.

(** ** [getAssetUrlPrefix] *)

(** The host of the code is the host of the specification, except when
    the script falls back on the named variable, that variable is not set,
    and its name is the name of a property that every object inherits. *)
Lemma mirror_host_spec (g : Globals) (env : gmap string string) :
  mirrorHost g <> "" \/ is_Some (env !! mirrorEnvVar g)
  \/ JS.Object_prototype (mirrorEnvVar g) = None ->
  JS.interpolate (mirror_host g env) = spec_host g env.
Proof.
  intros H. unfold mirror_host, spec_host, JS.or, JS.get_property.
  cbn [JS.truthy].
  destruct (negb (mirrorHost g =? "")%string) eqn:Hm.
  - cbn [JS.truthy]. now rewrite Hm.
  - destruct (env !! mirrorEnvVar g) as [h|] eqn:Hh; cbn [JS.truthy].
    + destruct (negb (h =? "")%string); reflexivity.
    + destruct H as [H | [[h H] | ->]]; [|discriminate | reflexivity].
      apply String.eqb_neq in H. rewrite H in Hm. discriminate.
Qed.

(** C2, as the code has it. [getAssetUrlPrefix] returns [null] exactly when
    the repository reference is missing, that is when [getRepo] finds no
    match in the repository string; the version is not looked at.
    Otherwise it returns
    [{host}/{owner}/{name}/releases/download/{version}/{prefix}{platform}-{arch}-{abi}{suffix}],
    where [{version}] is the text of [npm_package_version] ([undefined] when
    the variable is not set), and [{host}] is the [--host] value when it is
    not empty, else the value of the named environment variable when it is
    set and not empty, else [https://github.com]; this on condition that
    [--host] is given, or the named variable is set, or its name is not the
    name of a property that every object inherits.  Nothing is said of the
    host in the remaining case. *)
Theorem getAssetUrlPrefix_absent_iff_no_repository
    (w : World) (g : Globals) (env : gmap string string) :
  (getAssetUrlPrefix w g env = None <-> getRepo (repository_url env) = None)
  /\ (forall result, getRepo (repository_url env) = Some result ->
        exists owner name,
          result !! 1%nat = Some owner /\ result !! 2%nat = Some name
          /\ getAssetUrlPrefix w g env
             = Some (JS.interpolate (mirror_host g env)
                     +:+ "/" +:+ owner +:+ "/" +:+ name
                     +:+ "/releases/download/"
                     +:+ JS.interpolate (env !! "npm_package_version")
                     +:+ "/" +:+ prefix g +:+ platform g +:+ "-"
                     +:+ process_arch w +:+ "-" +:+ process_versions_modules w
                     +:+ suffix g))
  /\ (mirrorHost g <> "" \/ is_Some (env !! mirrorEnvVar g)
      \/ JS.Object_prototype (mirrorEnvVar g) = None ->
      JS.interpolate (mirror_host g env) = spec_host g env)
  /\ (mirrorHost g <> "" -> spec_host g env = mirrorHost g)
  /\ (forall h, mirrorHost g = "" -> env !! mirrorEnvVar g = Some h -> h <> "" ->
        spec_host g env = h)
  /\ (mirrorHost g = "" -> JS.truthy (env !! mirrorEnvVar g) = false ->
        spec_host g env = "https://github.com").
Proof.
  split.
  { unfold getAssetUrlPrefix.
    destruct (getRepo (repository_url env)); split; (discriminate || reflexivity). }
  split.
  { intros result Hrepo.
    destruct (getRepo_captures _ _ Hrepo) as (o & n & Ho & Hn).
    exists o, n. split; [assumption|]. split; [assumption|].
    unfold getAssetUrlPrefix. rewrite Hrepo, Ho, Hn. reflexivity. }
  split; [apply mirror_host_spec|].
  unfold spec_host. split.
  { intros H. apply String.eqb_neq in H. now rewrite H. }
  split.
  { intros h -> -> H. apply String.eqb_neq in H. now rewrite H. }
  intros ->. cbn [String.eqb negb].
  destruct (env !! mirrorEnvVar g) as [h|]; cbn [JS.truthy]; [|reflexivity].
  now intros ->.
Qed.

Lemma getAssetUrlPrefix_absent_iff_no_repository_witness :
  JS.interpolate (mirror_host sample_globals sample_env) = "https://github.com"
  /\ exists owner name,
       getAssetUrlPrefix accepting_world sample_globals sample_env
       = Some (JS.interpolate (mirror_host sample_globals sample_env)
               +:+ "/" +:+ owner +:+ "/" +:+ name
               +:+ "/releases/download/"
               +:+ JS.interpolate (sample_env !! "npm_package_version")
               +:+ "/" +:+ prefix sample_globals +:+ platform sample_globals +:+ "-"
               +:+ process_arch accepting_world +:+ "-"
               +:+ process_versions_modules accepting_world
               +:+ suffix sample_globals).
Proof.
  assert (Hrepo : getRepo (repository_url sample_env)
                  = Some (<[0%nat := "o/r"]> (<[2%nat := "r"]> (<[1%nat := "o"]> ∅))))
    by (vm_compute; reflexivity).
  split.
  - rewrite (proj1 (proj2 (proj2 (getAssetUrlPrefix_absent_iff_no_repository
                                    accepting_world sample_globals sample_env)))
                   (or_intror (or_intror eq_refl))).
    reflexivity.
  - destruct (proj1 (proj2 (getAssetUrlPrefix_absent_iff_no_repository
                              accepting_world sample_globals sample_env))
                    _ Hrepo)
      as (o & n & _ & _ & H).
    exists o, n. exact H.
Defined.

(** C2, as the specification has it, fails: with a repository and no
    version the function still returns a URL.  And with [--host-var
    toString], where no variable of that name is set, the host is not the
    default one: [process.env.toString] is the function that every object
    inherits, and the host is its text. *)
Lemma getAssetUrlPrefix_with_missing_version :
  JS.truthy (versionless_env !! "npm_package_version") = false
  /\ getAssetUrlPrefix accepting_world sample_globals versionless_env
     = Some "https://github.com/o/r/releases/download/undefined/linux-x64-115"
  /\ ~ (forall w g env,
          JS.truthy (env !! "npm_package_version") = false ->
          getAssetUrlPrefix w g env = None)
  /\ sample_env !! "toString" = None
  /\ getAssetUrlPrefix accepting_world toString_globals sample_env
     = Some "function toString() { [native code] }/o/r/releases/download/1.0.0/linux-x64-115".
Proof.
  split; [reflexivity|]. split; [vm_compute; reflexivity|].
  split; [|split; vm_compute; reflexivity].
  intros H. specialize (H accepting_world sample_globals versionless_env eq_refl).
  vm_compute in H. discriminate.
Qed.

(** ** [getPlatform] *)

Lemma getPlatform_other_os (w : World) :
  process_platform w <> "linux" -> getPlatform w = Ok (process_platform w).
Proof.
  intros H. unfold getPlatform. apply String.eqb_neq in H. now rewrite H.
Qed.

Lemma getPlatform_glibc (w : World) :
  process_platform w = "linux" ->
  num_truthy (status (spawnSync w "getconf" ["GNU_LIBC_VERSION"])) = false ->
  JS.truthy (signal (spawnSync w "getconf" ["GNU_LIBC_VERSION"])) = false ->
  getPlatform w = Ok "linux".
Proof.
  intros Hp Hs Hsig. unfold getPlatform. rewrite Hp, Hs, Hsig. reflexivity.
Qed.

(** The second probe, once the first one has not succeeded cleanly. *)
Lemma getPlatform_ldd (w : World) :
  process_platform w = "linux" ->
  (num_truthy (status (spawnSync w "getconf" ["GNU_LIBC_VERSION"]))
   || JS.truthy (signal (spawnSync w "getconf" ["GNU_LIBC_VERSION"]))) = true ->
  let ldd := spawnSync w "ldd" ["--version"] in
  (JS.truthy (signal ldd) = true -> getPlatform w = Ok "linux")
  /\ (forall out, JS.truthy (signal ldd) = false ->
        num_truthy (status ldd) = false -> stdout ldd = Some out ->
        JS.includes "musl" out = true -> getPlatform w = Ok "linux-musl")
  /\ (forall err, JS.truthy (signal ldd) = false ->
        status ldd = Some 1%Z -> stderr ldd = Some err ->
        JS.includes "musl" err = true -> getPlatform w = Ok "linux-musl")
  /\ (forall out err, stdout ldd = Some out -> stderr ldd = Some err ->
        exists tag, getPlatform w = Ok tag).
Proof.
  intros Hp Hfirst. cbv zeta. unfold getPlatform. rewrite Hp. cbn [String.eqb Ascii.eqb Bool.eqb negb].
  assert (Hcond : negb (num_truthy (status (spawnSync w "getconf" ["GNU_LIBC_VERSION"])))
                  && negb (JS.truthy (signal (spawnSync w "getconf" ["GNU_LIBC_VERSION"])))
                  = false).
  { rewrite <- negb_orb, Hfirst. reflexivity. }
  rewrite Hcond.
  destruct (spawnSync w "ldd" ["--version"]) as [st sg out err]. cbn [status signal stdout stderr].
  split; [now intros ->|].
  split.
  { intros o -> -> -> Hm. cbn [negb mentions_musl]. now rewrite Hm. }
  split.
  { intros e -> -> -> Hm. cbn [num_truthy is_one Z.eqb negb mentions_musl].
    now rewrite Hm. }
  intros o e -> ->. destruct (JS.truthy sg); [eauto|].
  cbn [mentions_musl].
  destruct (negb (num_truthy st)); [destruct (JS.includes "musl" o); [eauto|]|];
    (destruct (is_one st); [destruct (JS.includes "musl" e)|]; eauto).
Qed.

(** C7 fails on the code: when the first probe reports a failure and [ldd]
    cannot be spawned, [status] is [null], [!result.status] holds, and
    [result.stdout.toString()] is a call on [null]: [getPlatform] raises a
    TypeError while the module loads, and the script ends there, before
    [main] and without a fallback build. *)
Theorem getPlatform_raises_when_ldd_cannot_be_spawned :
  getPlatform ldd_missing_world = Raise TypeError
  /\ script ldd_missing_world 3 = ([], UncaughtException TypeError).
Proof. split; reflexivity. Qed.

(** ** [getParam] *)

Lemma indexOf_first (x : string) (pre post : list string) :
  ~ In x pre -> indexOf x (pre ++ x :: post) = Some (length pre).
Proof.
  induction pre as [|y pre IH]; intros Hnot; cbn [indexOf app length].
  - now rewrite String.eqb_refl.
  - destruct (String.eqb_spec y x) as [->|Hne]; [exfalso; apply Hnot; now left|].
    rewrite IH; [reflexivity|]. intros H. apply Hnot. now right.
Qed.

Lemma indexOf_absent (x : string) (l : list string) :
  ~ In x l -> indexOf x l = None.
Proof.
  induction l as [|y l IH]; intros Hnot; cbn [indexOf]; [reflexivity|].
  destruct (String.eqb_spec y x) as [->|Hne]; [exfalso; apply Hnot; now left|].
  rewrite IH; [reflexivity|]. intros H. apply Hnot. now right.
Qed.

(** X1. [getParam name] is the argument that follows the first occurrence of
    [--name] on the command line, when that occurrence is not the very
    first argument; a flag that ends the command line, or is followed by an
    empty argument, gives the empty string and not the default. *)
Theorem getParam_value_after_first_flag (w : World) (name defaultValue : string)
    (pre post : list string) :
  process_argv w = pre ++ ("--" +:+ name) :: post ->
  pre <> [] -> ~ In ("--" +:+ name) pre ->
  getParam w name defaultValue = JS.or_empty (post !! 0%nat).
Proof.
  intros Hargv Hpre Hnot. unfold getParam. rewrite Hargv.
  rewrite indexOf_first by assumption.
  destruct pre as [|p pre]; [congruence|]. cbn [length Nat.ltb Nat.leb].
  replace (S (length pre) + 1)%nat with (length (p :: pre) + 1)%nat by reflexivity.
  rewrite lookup_app_r by lia.
  replace (length (p :: pre) + 1 - length (p :: pre))%nat with 1%nat by lia.
  reflexivity.
Qed.

Lemma getParam_value_after_first_flag_witness :
  getParam accepting_world "artifact" "none" = "build/addon.node"
  /\ getParam dangling_world "artifact" "none" = "".
Proof.
  split.
  - apply (getParam_value_after_first_flag accepting_world "artifact" "none"
             ["node"; "install-from-cache.js"] ["build/addon.node"]);
      first [reflexivity | discriminate | intros [H | [H | []]]; discriminate].
  - apply (getParam_value_after_first_flag dangling_world "artifact" "none"
             ["node"; "install-from-cache.js"] []);
      first [reflexivity | discriminate | intros [H | [H | []]]; discriminate].
Defined.

(** X2. [getParam] gives the default when the flag does not occur on the
    command line, and also when the command line starts with it: the test
    [index > 0] discards an occurrence at index 0, and later occurrences
    are not looked for. *)
Theorem getParam_default (w : World) (name defaultValue : string) :
  ~ In ("--" +:+ name) (process_argv w)
  \/ head (process_argv w) = Some ("--" +:+ name) ->
  getParam w name defaultValue = defaultValue.
Proof.
  intros [Hnot | Hhead]; unfold getParam.
  - now rewrite indexOf_absent.
  - destruct (process_argv w) as [|a l]; [discriminate|].
    injection Hhead as ->. cbn [indexOf]. now rewrite String.eqb_refl.
Qed.

Lemma getParam_default_witness :
  getParam accepting_world "prefix" "lib-" = "lib-".
Proof.
  apply (getParam_default accepting_world "prefix" "lib-").
  left. intros [H | [H | [H | [H | []]]]]; discriminate.
Defined.

(** ** [getPlatform]: when it raises and what it returns *)

(** X3. [getPlatform] raises exactly on Linux, when the first probe did not
    succeed cleanly, the second probe was not ended by a signal, and the
    output it would read is [null]: [stdout] when the status is 0 or
    [null], [stderr] when the status is 1. *)
Theorem getPlatform_raises_iff (w : World) :
  let getconf := spawnSync w "getconf" ["GNU_LIBC_VERSION"] in
  let ldd := spawnSync w "ldd" ["--version"] in
  (exists e, getPlatform w = Raise e)
  <-> process_platform w = "linux"
      /\ (num_truthy (status getconf) || JS.truthy (signal getconf)) = true
      /\ JS.truthy (signal ldd) = false
      /\ ((num_truthy (status ldd) = false /\ stdout ldd = None)
          \/ (status ldd = Some 1%Z /\ stderr ldd = None)).
Proof.
  cbv zeta. unfold getPlatform.
  destruct (String.eqb_spec (process_platform w) "linux") as [Hp|Hp]; cbn [negb].
  2: { split; [intros [e H]; discriminate | intros [H _]; contradiction]. }
  rewrite <- negb_orb.
  destruct (num_truthy (status (spawnSync w "getconf" ["GNU_LIBC_VERSION"]))
            || JS.truthy (signal (spawnSync w "getconf" ["GNU_LIBC_VERSION"])));
    cbn [negb].
  2: { split; [intros [e H]; discriminate | intros (_ & H & _); discriminate]. }
  destruct (spawnSync w "ldd" ["--version"]) as [st sg out err].
  cbn [status signal stdout stderr].
  destruct (JS.truthy sg).
  { split; [intros [e H]; discriminate | intros (_ & _ & H & _); discriminate]. }
  destruct st as [z|]; cbn [num_truthy is_one].
  - destruct (Z.eqb_spec z 0) as [->|Hz]; cbn [negb Z.eqb].
    + destruct out as [o|]; cbn [mentions_musl].
      * destruct (JS.includes "musl" o);
          (split; [intros [e H]; discriminate
                  | intros (_ & _ & _ & [[_ H] | [H _]]); discriminate]).
      * split; [auto 10 | eauto].
    + destruct (Z.eqb_spec z 1) as [->|Hz1].
      * destruct err as [e|]; cbn [mentions_musl].
        -- destruct (JS.includes "musl" e);
             (split; [intros [x H]; discriminate
                     | intros (_ & _ & _ & [[H _] | [_ H]]); discriminate]).
        -- split; [auto 10 | eauto].
      * split; [intros [x H]; discriminate|].
        intros (_ & _ & _ & [[H _] | [H _]]); [discriminate | congruence].
  - destruct out as [o|]; cbn [mentions_musl].
    + destruct (JS.includes "musl" o);
        (split; [intros [e H]; discriminate
                | intros (_ & _ & _ & [[_ H] | [H _]]); discriminate]).
    + split; [auto 10 | eauto].
Qed.

(** X4. When [getPlatform] returns, the tag is [process.platform] itself or,
    on Linux only, [linux-musl]; the suffix is added only when the second
    probe's output names musl. *)
Theorem getPlatform_range (w : World) (tag : string) :
  getPlatform w = Ok tag ->
  tag = process_platform w
  \/ (process_platform w = "linux" /\ tag = "linux-musl"
      /\ exists out,
           (stdout (spawnSync w "ldd" ["--version"]) = Some out
            \/ stderr (spawnSync w "ldd" ["--version"]) = Some out)
           /\ JS.includes "musl" out = true).
Proof.
  unfold getPlatform.
  destruct (String.eqb_spec (process_platform w) "linux") as [Hp|Hp]; cbn [negb];
    [|intros [= <-]; now left].
  destruct (negb _ && negb _); [intros [= <-]; now left|].
  destruct (spawnSync w "ldd" ["--version"]) as [st sg out err].
  cbn [status signal stdout stderr].
  destruct (JS.truthy sg); [intros [= <-]; now left|].
  assert (Hmusl : forall v b, mentions_musl v = Ok b -> b = true ->
                    exists o, v = Some o /\ JS.includes "musl" o = true).
  { intros [o|] b; cbn [mentions_musl]; [|discriminate].
    intros [= <-] Hb. eauto. }
  destruct (negb (num_truthy st)).
  - destruct (mentions_musl out) as [[|]|e] eqn:Hout; [ | |discriminate].
    + intros [= <-]. right. rewrite Hp. split; [reflexivity|]. split; [reflexivity|].
      destruct (Hmusl _ _ Hout eq_refl) as (o & Ho & Hin). eauto.
    + destruct (is_one st); [|intros [= <-]; now left].
      destruct (mentions_musl err) as [[|]|e] eqn:Herr; [ | |discriminate].
      * intros [= <-]. right. rewrite Hp. split; [reflexivity|]. split; [reflexivity|].
        destruct (Hmusl _ _ Herr eq_refl) as (o & Ho & Hin). eauto.
      * intros [= <-]; now left.
  - destruct (is_one st); [|intros [= <-]; now left].
    destruct (mentions_musl err) as [[|]|e] eqn:Herr; [ | |discriminate].
    + intros [= <-]. right. rewrite Hp. split; [reflexivity|]. split; [reflexivity|].
      destruct (Hmusl _ _ Herr eq_refl) as (o & Ho & Hin). eauto.
    + intros [= <-]; now left.
Qed.

Lemma getPlatform_range_witness :
  getPlatform (sample_world sample_env musl_spawn serving passing) = Ok "linux-musl"
  /\ ("linux-musl" = process_platform (sample_world sample_env musl_spawn serving passing)
      \/ (process_platform (sample_world sample_env musl_spawn serving passing) = "linux"
          /\ "linux-musl" = "linux-musl"
          /\ exists out,
               (stdout (spawnSync (sample_world sample_env musl_spawn serving passing)
                          "ldd" ["--version"]) = Some out
                \/ stderr (spawnSync (sample_world sample_env musl_spawn serving passing)
                             "ldd" ["--version"]) = Some out)
               /\ JS.includes "musl" out = true)).
Proof.
  split; [reflexivity|].
  apply (getPlatform_range (sample_world sample_env musl_spawn serving passing)).
  reflexivity.
Defined.

(** ** [write] *)

(** X5. [write] creates the directory of the file first and does not touch
    the file when that fails; it is fulfilled exactly when both steps
    succeed, it rejects otherwise, and it writes to no other path. *)
Theorem write_directory_then_file (w : World) (name : string) (data : bytes) :
  let dir := path_dirname w name in
  let r := write w name data in
  (snd r = Fulfilled tt
   <-> fs_mkdir w dir = true /\ fs_writeFile w name data = true)
  /\ (snd r = Rejected FsError
      <-> fs_mkdir w dir = false \/ fs_writeFile w name data = false)
  /\ (fs_mkdir w dir = false -> fst r = [Mkdir dir false])
  /\ (fs_mkdir w dir = true ->
        fst r = [Mkdir dir true; WriteFile name data (fs_writeFile w name data)]).
Proof.
  cbv zeta. unfold write.
  destruct (fs_mkdir w (path_dirname w name));
    [destruct (fs_writeFile w name data)|]; cbn;
    repeat split; try discriminate; try reflexivity; auto;
    try (intros [H1 H2]; discriminate); try (intros [H | H]; discriminate).
Qed.

(** ** [get], once more *)

Lemma fold_on_data (chunks : list bytes) (b : bytes) :
  fold_left on_data chunks (Some b) = Some (b ++ concat chunks).
Proof.
  revert b. induction chunks as [|c chunks IH]; intros b; cbn [fold_left concat on_data].
  - now rewrite List.app_nil_r.
  - rewrite IH. now rewrite <- List.app_assoc.
Qed.

(** X6. A response with status 200 is settled by the end of its body and by
    nothing else.  When the body comes to its end, [get] resolves with the
    chunks concatenated in their order of arrival, even when the response
    carries a [Location] header; a body without any chunk resolves with
    [null], not with an empty buffer.  When the body does not come to its
    end, the promise stays pending after the one request. *)
Theorem get_body_is_concatenation (w : World) (fuel : nat) (url : string)
    (location : option string) (chunks : list bytes) (ended : bool) :
  https_get w url = Reply 200 location chunks ended ->
  get w (S fuel) url
  = ([HttpGet url],
     if ended
     then Fulfilled (match chunks with
                     | [] => None
                     | _ => Some (concat chunks)
                     end)
     else Pending).
Proof.
  intros Hget. cbn [get]. rewrite Hget. cbn [Z.leb Z.ltb Z.compare andb Z.eqb negb].
  destruct ended; [|reflexivity].
  unfold bind, emit, ret. cbn [fst snd app]. f_equal. f_equal.
  destruct chunks as [|c chunks]; [reflexivity|].
  cbn [fold_left on_data]. now rewrite fold_on_data.
Qed.

Lemma get_body_is_concatenation_witness :
  get redirecting_world 1 "https://host/d"
  = ([HttpGet "https://host/d"], Fulfilled (Some [Byte.x01; Byte.x02]))
  /\ get cut_short_world 1 "https://host/d" = ([HttpGet "https://host/d"], Pending).
Proof.
  split.
  - apply (get_body_is_concatenation redirecting_world 0 "https://host/d"
             None [[Byte.x01]; [Byte.x02]] true).
    reflexivity.
  - apply (get_body_is_concatenation cut_short_world 0 "https://host/d"
             None [[Byte.x01]] false).
    reflexivity.
Defined.

(** X7. A 3xx response without a [Location] header, or with an empty one,
    is not followed: [get] issues no further request and rejects with the
    status code of that response. *)
Theorem get_redirect_without_location (w : World) (fuel : nat) (url : string)
    (statusCode : Z) (location : option string) (chunks : list bytes)
    (ended : bool) :
  https_get w url = Reply statusCode location chunks ended ->
  (300 <= statusCode < 400)%Z ->
  JS.truthy location = false ->
  get w (S fuel) url = ([HttpGet url], Rejected (StatusError statusCode url)).
Proof.
  intros Hget [Hlo Hhi] Hloc. cbn [get]. rewrite Hget, Hloc, andb_false_r.
  assert (Hne : (statusCode =? 200)%Z = false) by (apply Z.eqb_neq; lia).
  rewrite Hne. reflexivity.
Qed.

Lemma get_redirect_without_location_witness :
  get (sample_world sample_env glibc_spawn not_modified passing) 5 "https://host/x"
  = ([HttpGet "https://host/x"], Rejected (StatusError 304 "https://host/x")).
Proof.
  apply (get_redirect_without_location
           (sample_world sample_env glibc_spawn not_modified passing)
           4 "https://host/x" 304 None [] true); [reflexivity | lia | reflexivity].
Defined.

(** X8. Redirections that never leave a set of URLs are followed without
    end: from a URL of the set, [get] uses up every bound on the number of
    requests and its promise is never settled. *)
Theorem get_redirect_trap_never_settles (w : World) (P : string -> Prop) :
  redirect_trap w P ->
  forall fuel url, P url ->
    snd (get w fuel url) = Pending /\ length (fst (get w fuel url)) = fuel.
Proof.
  intros Htrap. induction fuel as [|fuel IH]; intros url Hurl; [now split|].
  destruct (Htrap url Hurl) as (s & l & c & e & Hget & Hs & Hl & HP).
  rewrite (get_redirect w fuel url s l c e Hget Hs Hl). cbn [fst snd length].
  destruct (IH l HP) as [-> ->]. now split.
Qed.

Lemma get_redirect_trap_never_settles_witness :
  snd (get (sample_world sample_env glibc_spawn looping passing) 7 "https://host/loop")
  = Pending
  /\ length (fst (get (sample_world sample_env glibc_spawn looping passing) 7
                    "https://host/loop")) = 7%nat.
Proof.
  apply (get_redirect_trap_never_settles
           (sample_world sample_env glibc_spawn looping passing)
           (fun url => url = "https://host/loop")); [|reflexivity].
  intros url ->. exists 302%Z, "https://host/loop", [], true.
  split; [reflexivity|]. split; [lia|]. split; [discriminate | reflexivity].
Defined.

(** ** [run], once more *)

Lemma first_child_event (ev : ChildEvent) :
  exists p, on_child_event (false, Pending) ev = (true, p) /\ p <> Pending.
Proof.
  destruct ev as [code sig|e]; cbn [on_child_event].
  - destruct (JS.truthy sig); [eexists; split; [reflexivity | discriminate]|].
    destruct code as [c|]; [destruct (negb (c =? 0)%Z)|];
      eexists; (split; [reflexivity | discriminate]).
  - eexists; split; [reflexivity | discriminate].
Qed.

(** X10. The first event of the child process decides the promise of [run]:
    it is settled by that event, and the events that follow, the command
    and the environment have no influence on the outcome. *)
Theorem run_first_event_decides (w w' : World) (env env' : gmap string string)
    (cmd cmd' : string) (s s' : bool) (ev : ChildEvent) (rest rest' : list ChildEvent) :
  child_exec w cmd = ev :: rest ->
  child_exec w' cmd' = ev :: rest' ->
  snd (run w env cmd s) = snd (run w' env' cmd' s')
  /\ settled (snd (run w env cmd s)).
Proof.
  intros H H'. unfold run, settled. cbn [snd]. rewrite H, H'. cbn [fold_left].
  destruct (first_child_event ev) as (p & -> & Hp).
  rewrite !child_events_closed. now split.
Qed.

Lemma run_first_event_decides_witness :
  snd (run (sample_world sample_env glibc_spawn serving
              (fun _ => [OnError "ENOENT"; OnExit (Some 0%Z) None]))
           sample_env "npm test" true)
  = snd (run (sample_world sample_env glibc_spawn serving
                (fun _ => [OnError "ENOENT"]))
             sample_env "npm run rebuild" false).
Proof.
  apply (run_first_event_decides _ _ sample_env sample_env "npm test"
           "npm run rebuild" true false (OnError "ENOENT")
           [OnExit (Some 0%Z) None] []); reflexivity.
Defined.

(** ** The patterns, case by case *)

Section Analyses.

Variable icase : bool.

Lemma char_eq_refl a : char_eq icase a a = true.
Proof. unfold char_eq. apply Ascii.eqb_refl. Qed.

Lemma in_set_char_eq (cs : list ascii) a d :
  char_eq icase a d = true -> in_set icase cs a = in_set icase cs d.
Proof.
  intros H. unfold in_set. induction cs as [|c cs IH]; [reflexivity|].
  cbn [existsb]. rewrite IH. f_equal.
  destruct (char_eq icase d c) eqn:Hd.
  - eapply char_eq_trans; eassumption.
  - destruct (char_eq icase a c) eqn:Ha; [|reflexivity].
    rewrite <- Hd. symmetry. rewrite char_eq_sym in H.
    eapply char_eq_trans; eassumption.
Qed.

Lemma str_forall_append p (u v : string) :
  str_forall p (u +:+ v) = str_forall p u && str_forall p v.
Proof.
  induction u as [|a u IH]; simpl; [reflexivity|].
  now rewrite IH, andb_assoc.
Qed.

Lemma eat_avoids (p : ascii -> bool) (d : ascii) st k res :
  (forall a, p a = true -> char_eq icase a d = false) ->
  eat p st k = Some res ->
  exists st' u, k st' = Some res /\ m_rest st = u +:+ m_rest st'
    /\ str_forall (fun a => negb (char_eq icase a d)) u = true.
Proof.
  intros Hp. unfold eat. destruct (m_rest st) as [|a t]; [discriminate|].
  destruct (p a) eqn:Ha; [|discriminate]. intros Hk.
  eexists; exists (String a ""). split; [exact Hk|]. split; [reflexivity|].
  simpl. now rewrite (Hp a Ha).
Qed.

Lemma rloop_avoids step (d : ascii) :
  (forall st k res, step st k = Some res ->
     exists st' u, k st' = Some res /\ m_rest st = u +:+ m_rest st'
       /\ str_forall (fun a => negb (char_eq icase a d)) u = true) ->
  forall fuel st k res, rloop step fuel st k = Some res ->
    exists st' u, k st' = Some res /\ m_rest st = u +:+ m_rest st'
      /\ str_forall (fun a => negb (char_eq icase a d)) u = true.
Proof.
  intros Hstep. induction fuel as [|fuel IH]; intros st k res H; simpl in H.
  - exists st, ""; split; [assumption|]; split; reflexivity.
  - destruct (step st _) as [r|] eqn:Hs; [|exists st, ""; split; [assumption|]; split; reflexivity].
    injection H as ->. apply Hstep in Hs as (st1 & u1 & Hs & Hr1 & Hu1).
    destruct (m_pos st <? m_pos st1)%nat; [|discriminate].
    apply IH in Hs as (st2 & u2 & Hk & Hr2 & Hu2).
    exists st2, (u1 +:+ u2). split; [assumption|]. split.
    + now rewrite Hr1, Hr2, append_assoc.
    + now rewrite str_forall_append, Hu1, Hu2.
Qed.

(** A pattern that avoids [d] only consumes characters other than [d]. *)
Lemma avoids_sound (d : ascii) (r : regex) :
  avoids icase d r = true ->
  forall st k res, rmatch icase r st k = Some res ->
    exists st' u, k st' = Some res /\ m_rest st = u +:+ m_rest st'
      /\ str_forall (fun a => negb (char_eq icase a d)) u = true.
Proof.
  induction r as [ | c | | cs | r1 IH1 r2 IH2 | r1 IH1 r2 IH2 | r1 IH1 | r1 IH1
                   | n r1 IH1 | | | ]; cbn [avoids]; intros Ha st k res H;
    try discriminate; cbn [rmatch] in H.
  - exists st, ""; split; [assumption|]; split; reflexivity.
  - apply (eat_avoids _ d) in H; [assumption|].
    intros a Hac. destruct (char_eq icase a d) eqn:Had; [|reflexivity].
    apply negb_true_iff in Ha. rewrite <- Ha. symmetry.
    rewrite char_eq_sym in Had. eapply char_eq_trans; eassumption.
  - apply (eat_avoids _ d) in H; [assumption|].
    intros a Hin. destruct (char_eq icase a d) eqn:Had; [|reflexivity].
    rewrite (in_set_char_eq cs a d Had), Ha in Hin. discriminate.
  - apply andb_prop in Ha as [Ha1 Ha2].
    apply (IH1 Ha1) in H as (st1 & u1 & H & Hr1 & Hu1).
    apply (IH2 Ha2) in H as (st2 & u2 & H & Hr2 & Hu2).
    exists st2, (u1 +:+ u2). split; [assumption|]. split.
    + now rewrite Hr1, Hr2, append_assoc.
    + now rewrite str_forall_append, Hu1, Hu2.
  - apply andb_prop in Ha as [Ha1 Ha2].
    destruct (rmatch icase r1 st k) eqn:Hr.
    + injection H as ->. now apply (IH1 Ha1) in Hr.
    + now apply (IH2 Ha2) in H.
  - destruct (rmatch icase r1 st k) eqn:Hr; [|exists st, ""; split; [assumption|]; split; reflexivity].
    injection H as ->. now apply (IH1 Ha) in Hr.
  - apply (IH1 Ha) in H as (st1 & u1 & H & Hr1 & Hu1).
    apply (rloop_avoids _ d (IH1 Ha)) in H as (st2 & u2 & H & Hr2 & Hu2).
    exists st2, (u1 +:+ u2). split; [assumption|]. split.
    + now rewrite Hr1, Hr2, append_assoc.
    + now rewrite str_forall_append, Hu1, Hu2.
  - apply (IH1 Ha) in H as (st1 & u1 & H & Hr1 & Hu1).
    exists (set_capture n st st1), u1. split; [assumption|]. split; assumption.
  - destruct (m_pos st =? 0)%nat; [|discriminate]. exists st, ""; split; [assumption|]; split; reflexivity.
  - destruct (m_rest st) eqn:E; [|discriminate].
    exists st, "". split; [assumption|]. split; [now rewrite E | reflexivity].
  - destruct (xorb _ _); [|discriminate]. exists st, ""; split; [assumption|]; split; reflexivity.
Qed.

(** A pattern that first needs [c] only matches where a [c] lies ahead with
    no [d] before it. *)
Lemma first_needs_sound (c d : ascii) (r : regex) :
  first_needs icase c d r = true ->
  forall st k res, rmatch icase r st k = Some res ->
    exists u a t, m_rest st = u +:+ String a t /\ char_eq icase a c = true
      /\ str_forall (fun x => negb (char_eq icase x d)) u = true.
Proof.
  induction r as [ | c' | | cs | r1 IH1 r2 IH2 | r1 IH1 r2 IH2 | r1 IH1 | r1 IH1
                   | n r1 IH1 | | | ]; cbn [first_needs]; intros Hf st k res H;
    try discriminate; cbn [rmatch] in H.
  - unfold eat in H. destruct (m_rest st) as [|a t]; [discriminate|].
    destruct (char_eq icase a c') eqn:Ha; [|discriminate].
    exists "", a, t. split; [reflexivity|]. split; [|reflexivity].
    rewrite char_eq_sym in Hf. eapply char_eq_trans; eassumption.
  - apply orb_prop in Hf as [Hf | Hf].
    + eapply IH1; eassumption.
    + apply andb_prop in Hf as [Ha Hf].
      apply (avoids_sound d r1 Ha) in H as (st1 & u1 & H & Hr1 & Hu1).
      destruct (IH2 Hf _ _ _ H) as (u & a & t & Hr & Hc & Hu).
      exists (u1 +:+ u), a, t. split; [now rewrite Hr1, Hr, append_assoc|].
      split; [assumption|]. now rewrite str_forall_append, Hu1, Hu.
  - apply andb_prop in Hf as [Hf1 Hf2].
    destruct (rmatch icase r1 st k) eqn:Hr.
    + eapply IH1; eassumption.
    + eapply IH2; eassumption.
  - eapply IH1; eassumption.
  - eapply IH1; eassumption.
Qed.

End Analyses.

Lemma colon_before_slash_intro (u : string) (a : ascii) (t : string) :
  char_eq true a ":" = true ->
  str_forall (fun x => negb (char_eq true x "/")) u = true ->
  colon_before_slash (u +:+ String a t) = true.
Proof.
  rewrite char_eq_colon. intros Ha. induction u as [|x u IH]; simpl.
  - now rewrite Ha.
  - rewrite char_eq_slash. intros H. apply andb_prop in H as [Hx H].
    apply negb_true_iff in Hx. rewrite Hx.
    destruct (Ascii.eqb x ":"); [reflexivity | now apply IH].
Qed.

(** The two patterns with a colon need it before the first slash. *)
Lemma exec_needs_colon_first (re : RegExp) (r : regex) (s : string) :
  source re = Seq Bol r -> ignoreCase re = true ->
  first_needs true ":" "/" r = true ->
  colon_before_slash s = false -> exec re s = None.
Proof.
  intros Hsrc Hic Hf Hs. rewrite (exec_anchored re r) by assumption.
  unfold match_at. rewrite Hsrc, Hic. cbn [rmatch m_pos Nat.eqb].
  destruct (rmatch true r _ Some) as [st|] eqn:H; [|reflexivity].
  exfalso. destruct (first_needs_sound true ":" "/" r Hf _ _ _ H)
    as (u & a & t & Hu & Ha & Hall).
  simpl in Hu. subst s. now rewrite colon_before_slash_intro in Hs.
Qed.

Lemma colon_before_slash_owner (a rest : string) :
  has_char ":" a = false -> colon_before_slash (a +:+ "/" +:+ rest) = false.
Proof.
  induction a as [|x a IH]; simpl; [reflexivity|].
  intros H. apply orb_false_elim in H as [Hx H]. rewrite Hx.
  destruct (Ascii.eqb x "/"); [reflexivity | now apply IH].
Qed.

Lemma hash_class_stops (tail : string) :
  fragment tail -> stops (fun c => negb (in_set true ["#"%char] c)) tail.
Proof. intros [-> | [f ->]]; [exact I | reflexivity]. Qed.

(** The part of the two shorthand patterns after their prefix: an owner up
    to the first slash, a name up to the first [#]. *)
Lemma shorthand_tail (cs : list ascii) (o n tail : string) pos prev caps :
  o <> "" -> str_forall (fun c => negb (in_set true cs c)) o = true ->
  in_set true cs "/" = true ->
  n <> "" -> has_char "#" n = false -> fragment tail ->
  exists st',
    rmatch true
      (Seq (Group 1 (Plus (NotSet cs)))
         (Seq (Char "/")
            (Seq (Group 2 (Plus (NotSet ["#"%char]))) (Alt (Char "#") Eol))))
      (MState pos prev (o +:+ "/" +:+ n +:+ tail) caps) Some = Some st'
    /\ m_caps st' = <[2%nat := n]> (<[1%nat := o]> caps).
Proof.
  intros Ho Hcls Hslash Hn Hhash Htail.
  destruct o as [|x o]; [congruence|]. destruct n as [|y n]; [congruence|].
  pose proof (hash_class_stops tail Htail) as Hstop.
  assert (Hstep : forall k res,
    k (MState (S (pos + String.length (String x o)) + String.length (String y n))
              (last_char (String y n) (Some "/"%char)) tail
              (<[2%nat := String y n]> (<[1%nat := String x o]> caps))) = Some res ->
    rmatch true
      (Seq (Group 1 (Plus (NotSet cs)))
         (Seq (Char "/") (Group 2 (Plus (NotSet ["#"%char])))))
      (MState pos prev (String x o +:+ "/" +:+ String y n +:+ tail) caps) k
    = Some res).
  { intros k res Hk. cbn [rmatch]. apply rmatch_plus_class;
      [exact Hcls | simpl; now rewrite Hslash |].
    unfold set_capture. cbn [m_pos m_prev m_rest m_caps].
    replace (pos + String.length (String x o) - pos)%nat
      with (String.length (String x o)) by lia.
    rewrite substring_append.
    unfold eat at 1. cbn [m_rest m_pos m_caps String.append].
    rewrite char_eq_slash. cbn [Ascii.eqb Bool.eqb].
    apply rmatch_plus_class; [now apply name_class | exact Hstop |].
    cbn [m_pos m_prev m_rest m_caps].
    match goal with
    | |- context [substring 0 ?len ?str] =>
        replace len with (String.length (String y n)) by lia;
        change str with (String y n +:+ tail)
    end.
    rewrite substring_append. exact Hk. }
  change (rmatch true
            (Seq (Group 1 (Plus (NotSet cs)))
               (Seq (Char "/")
                  (Seq (Group 2 (Plus (NotSet ["#"%char]))) (Alt (Char "#") Eol))))
            (MState pos prev (String x o +:+ "/" +:+ String y n +:+ tail) caps) Some)
    with (rmatch true
            (Seq (Group 1 (Plus (NotSet cs)))
               (Seq (Char "/") (Group 2 (Plus (NotSet ["#"%char])))))
            (MState pos prev (String x o +:+ "/" +:+ String y n +:+ tail) caps)
            (fun st => rmatch true (Alt (Char "#") Eol) st Some)).
  destruct Htail as [-> | [f ->]].
  - eexists. split; [apply Hstep; reflexivity | reflexivity].
  - eexists. split; [apply Hstep; reflexivity | reflexivity].
Qed.

Lemma char_eq_dot a : char_eq true a "." = Ascii.eqb a ".".
Proof. by_cases_on_char a. Qed.

Lemma slash_class (s : string) :
  has_char "/" s = false ->
  str_forall (fun c => negb (in_set true ["/"%char] c)) s = true.
Proof.
  induction s as [|a s IH]; simpl; [reflexivity|].
  intros H. apply orb_false_elim in H as [Ha H].
  rewrite char_eq_slash, Ha. simpl. now apply IH.
Qed.

Lemma url_name_class (s : string) :
  has_char "/" s = false -> has_char "." s = false ->
  str_forall (fun c => negb (in_set true ["/"%char; "."%char] c)) s = true.
Proof.
  induction s as [|a s IH]; simpl; [reflexivity|].
  intros H1 H2. apply orb_false_elim in H1 as [Ha1 H1], H2 as [Ha2 H2].
  rewrite char_eq_slash, char_eq_dot, Ha1, Ha2. simpl. now apply IH.
Qed.

Lemma source_github_url (st : mstate) :
  rmatch true (source re_github_url) st Some
  = rmatch true url_head_pattern st (fun st' => rmatch true url_tail_pattern st' Some).
Proof. reflexivity. Qed.

(** The head of a GitHub URL: any of the six schemes, and any character but
    a line terminator where the host has its dot. *)
Lemma url_head (scheme : string) (c : ascii) (rest : string)
    (k : mstate -> option mstate) :
  In scheme schemes -> is_line_terminator c = false ->
  rmatch true url_head_pattern
    (MState 0 None (scheme +:+ "://github" +:+ String c ("com/" +:+ rest)) ∅) k
  = k (MState (String.length scheme + 14) (Some "/"%char) rest ∅).
Proof.
  intros Hin Hc. unfold schemes in Hin. cbn [In] in Hin.
  destruct Hin as [<- | [<- | [<- | [<- | [<- | [<- | []]]]]]];
    cbv -[is_line_terminator]; rewrite Hc; cbv; destruct (k _); reflexivity.
Qed.

(** The tail of a GitHub URL: an owner up to the first slash, a name up to
    the first slash or dot, and an end of the three allowed kinds. *)
Lemma url_tail_match (o n tail : string) pos prev caps :
  o <> "" -> has_char "/" o = false ->
  n <> "" -> has_char "/" n = false -> has_char "." n = false ->
  url_tail tail ->
  exists st',
    rmatch true url_tail_pattern
      (MState pos prev (o +:+ "/" +:+ n +:+ tail) caps) Some = Some st'
    /\ m_caps st' = <[2%nat := n]> (<[1%nat := o]> caps).
Proof.
  intros Ho Hos Hn Hns Hnd Htail.
  destruct o as [|x o]; [congruence|]. destruct n as [|y n]; [congruence|].
  assert (Hstop : stops (fun c => negb (in_set true ["/"%char; "."%char] c)) tail).
  { destruct Htail as [-> | [[t ->] | (t & -> & _)]]; [exact I | reflexivity..]. }
  assert (Hstep : forall k res,
    k (MState (S (pos + String.length (String x o)) + String.length (String y n))
              (last_char (String y n) (Some "/"%char)) tail
              (<[2%nat := String y n]> (<[1%nat := String x o]> caps))) = Some res ->
    rmatch true
      (Seq (Group 1 (Plus (NotSet ["/"%char])))
         (Seq (Char "/") (Group 2 (Plus (NotSet ["/"%char; "."%char])))))
      (MState pos prev (String x o +:+ "/" +:+ String y n +:+ tail) caps) k
    = Some res).
  { intros k res Hk. cbn [rmatch]. apply rmatch_plus_class;
      [now apply slash_class | reflexivity |].
    unfold set_capture. cbn [m_pos m_prev m_rest m_caps].
    replace (pos + String.length (String x o) - pos)%nat
      with (String.length (String x o)) by lia.
    rewrite substring_append.
    unfold eat at 1. cbn [m_rest m_pos m_caps String.append].
    rewrite char_eq_slash. cbn [Ascii.eqb Bool.eqb].
    apply rmatch_plus_class; [now apply url_name_class | exact Hstop |].
    cbn [m_pos m_prev m_rest m_caps].
    match goal with
    | |- context [substring 0 ?len ?str] =>
        replace len with (String.length (String y n)) by lia;
        change str with (String y n +:+ tail)
    end.
    rewrite substring_append. exact Hk. }
  change (rmatch true url_tail_pattern
            (MState pos prev (String x o +:+ "/" +:+ String y n +:+ tail) caps) Some)
    with (rmatch true
            (Seq (Group 1 (Plus (NotSet ["/"%char])))
               (Seq (Char "/") (Group 2 (Plus (NotSet ["/"%char; "."%char])))))
            (MState pos prev (String x o +:+ "/" +:+ String y n +:+ tail) caps)
            (fun st => rmatch true
                         (alts [Char "/"; Seq (lit ".git") WordBoundary; Eol])
                         st Some)).
  destruct Htail as [-> | [[t ->] | (t & -> & Hb)]].
  - eexists. split; [apply Hstep; reflexivity | reflexivity].
  - eexists. split; [apply Hstep; reflexivity | reflexivity].
  - assert (Hw : is_word (next_char (MState 0 None t ∅)) = false).
    { destruct t as [|a t]; [reflexivity | exact Hb]. }
    eexists. split; [apply Hstep|].
    + cbn [alts lit rmatch]. unfold eat. cbn [m_rest m_pos m_caps m_prev String.append].
      change (char_eq true "." "/") with false. cbv iota.
      change (char_eq true "." ".") with true.
      change (char_eq true "g" "g") with true.
      change (char_eq true "i" "i") with true.
      change (char_eq true "t" "t") with true. cbv iota.
      unfold next_char in *. cbn [m_rest m_prev is_word] in *.
      change (is_word_char "t") with true.
      destruct t as [|a t]; cbn [is_word] in *; [reflexivity|].
      rewrite Hw. reflexivity.
    + reflexivity.
Qed.

Lemma captures_of_match (re : RegExp) (s : string) (st' : mstate)
    (caps : gmap nat string) (o n : string) :
  rmatch (ignoreCase re) (source re) (MState 0 None s ∅) Some = Some st' ->
  m_caps st' = <[2%nat := n]> (<[1%nat := o]> caps) ->
  exists result, match_at re 0 None s = Some result
    /\ result !! 1%nat = Some o /\ result !! 2%nat = Some n.
Proof.
  intros Hm Hcaps. unfold match_at. rewrite Hm. eexists. split; [reflexivity|].
  unfold set_capture. cbn [m_caps]. rewrite Hcaps.
  rewrite !lookup_insert_ne by discriminate.
  rewrite lookup_insert_eq.
  rewrite lookup_insert_ne by discriminate.
  now rewrite lookup_insert_eq.
Qed.

Lemma repository_ref_of (s : string) (result : gmap nat string) (o n : string) :
  getRepo (Some s) = Some result ->
  result !! 1%nat = Some o -> result !! 2%nat = Some n ->
  repository_ref (Some s) = Some (mkRepositoryRef o n).
Proof. intros H Ho Hn. unfold repository_ref. now rewrite H, Ho, Hn. Qed.

(** X11. The bare shorthand with a fragment: for an owner [a] without colon
    and slash and a name [n] without [#], both not empty, [a/n] and
    [a/n#...] give owner [a] and name [n]; what follows the [#] is
    dropped, whatever it contains. *)
Theorem getRepo_bare_fragment (a n tail : string) :
  a <> "" -> has_char ":" a = false -> has_char "/" a = false ->
  n <> "" -> has_char "#" n = false -> fragment tail ->
  repository_ref (Some (a +:+ "/" +:+ n +:+ tail)) = Some (mkRepositoryRef a n).
Proof.
  intros Ha Hcolon Hslash Hn Hhash Htail.
  destruct (shorthand_tail [":"%char; "/"%char] a n tail 0 None ∅)
    as (st' & Hm & Hcaps); auto using owner_class.
  destruct (captures_of_match re_bare (a +:+ "/" +:+ n +:+ tail) st' ∅ a n)
    as (result & Hres & H1 & H2); [exact Hm | exact Hcaps|].
  apply (repository_ref_of _ result); [|assumption..].
  assert (Htruthy : JS.truthy (Some (a +:+ "/" +:+ n +:+ tail)) = true).
  { destruct a as [|x a]; [congruence | reflexivity]. }
  pose proof (colon_before_slash_owner a (n +:+ tail) Hcolon) as Hc.
  unfold getRepo. rewrite Htruthy. cbn [negb parseUrl first_match].
  rewrite (exec_needs_colon_first re_github_url _ _ eq_refl eq_refl eq_refl Hc).
  rewrite (exec_needs_colon_first re_github_short _ _ eq_refl eq_refl eq_refl Hc).
  rewrite (exec_anchored re_bare _ _ eq_refl). now rewrite Hres.
Qed.

Lemma getRepo_bare_fragment_witness :
  repository_ref (Some ("ocavue" +:+ "/" +:+ "addon" +:+ "#semver:^1.2/x"))
  = Some (mkRepositoryRef "ocavue" "addon").
Proof.
  apply (getRepo_bare_fragment "ocavue" "addon" "#semver:^1.2/x");
    first [discriminate | reflexivity | (right; exists "semver:^1.2/x"; reflexivity)].
Defined.

(** X12. The [github:] shorthand: for an owner [o] without slash and a name
    [n] without [#], both not empty, [github:o/n] and [github:o/n#...]
    give owner [o] and name [n]. *)
Theorem getRepo_github_shorthand (o n tail : string) :
  o <> "" -> has_char "/" o = false ->
  n <> "" -> has_char "#" n = false -> fragment tail ->
  repository_ref (Some ("github:" +:+ o +:+ "/" +:+ n +:+ tail))
  = Some (mkRepositoryRef o n).
Proof.
  intros Ho Hslash Hn Hhash Htail.
  destruct (shorthand_tail ["/"%char] o n tail 7 (Some ":"%char) ∅)
    as (st' & Hm & Hcaps); auto using slash_class.
  assert (Hm' : rmatch (ignoreCase re_github_short) (source re_github_short)
                  (MState 0 None ("github:" +:+ o +:+ "/" +:+ n +:+ tail) ∅) Some
                = Some st').
  { rewrite <- Hm. reflexivity. }
  destruct (captures_of_match re_github_short _ st' ∅ o n Hm' Hcaps)
    as (result & Hres & H1 & H2).
  apply (repository_ref_of _ result); [|assumption..].
  assert (Hfirst : match_at re_github_url 0 None
                     ("github:" +:+ o +:+ "/" +:+ n +:+ tail) = None)
    by reflexivity.
  unfold getRepo.
  change (JS.truthy (Some ("github:" +:+ o +:+ "/" +:+ n +:+ tail))) with true.
  cbn [negb parseUrl first_match].
  rewrite (exec_anchored re_github_url _ _ eq_refl), Hfirst.
  rewrite (exec_anchored re_github_short _ _ eq_refl). now rewrite Hres.
Qed.

Lemma getRepo_github_shorthand_witness :
  repository_ref (Some ("github:" +:+ "ocavue" +:+ "/" +:+ "addon" +:+ "#v1"))
  = Some (mkRepositoryRef "ocavue" "addon").
Proof.
  apply (getRepo_github_shorthand "ocavue" "addon" "#v1");
    first [discriminate | reflexivity | (right; exists "v1"; reflexivity)].
Defined.

(** X13. The URL form: for any of the schemes [http], [https], [git],
    [git+ssh], [git+http], [git+https], an owner [o] without slash and a
    name [n] without slash and dot, both not empty,
    [scheme://github.com/o/n] gives owner [o] and name [n] when the name
    ends the reference or is followed by a slash or by [.git] at a word
    boundary.  The dot of the host is not escaped in the pattern: any
    character but a line terminator is accepted in its place. *)
Theorem getRepo_github_url (scheme : string) (c : ascii) (o n tail : string) :
  In scheme schemes -> is_line_terminator c = false ->
  o <> "" -> has_char "/" o = false ->
  n <> "" -> has_char "/" n = false -> has_char "." n = false ->
  url_tail tail ->
  repository_ref
    (Some (scheme +:+ "://github" +:+ String c ("com/" +:+ o +:+ "/" +:+ n +:+ tail)))
  = Some (mkRepositoryRef o n).
Proof.
  intros Hin Hc Ho Hos Hn Hns Hnd Htail.
  destruct (url_tail_match o n tail (String.length scheme + 14) (Some "/"%char) ∅)
    as (st' & Hm & Hcaps); auto.
  set (s := scheme +:+ "://github" +:+ String c ("com/" +:+ o +:+ "/" +:+ n +:+ tail)).
  assert (Hm' : rmatch (ignoreCase re_github_url) (source re_github_url)
                  (MState 0 None s ∅) Some = Some st').
  { change (ignoreCase re_github_url) with true.
    rewrite source_github_url. subst s. now rewrite url_head. }
  destruct (captures_of_match re_github_url s st' ∅ o n Hm' Hcaps)
    as (result & Hres & H1 & H2).
  apply (repository_ref_of _ result); [|assumption..].
  assert (Htruthy : JS.truthy (Some s) = true).
  { subst s. unfold schemes in Hin. cbn [In] in Hin.
    destruct Hin as [<- | [<- | [<- | [<- | [<- | [<- | []]]]]]]; reflexivity. }
  unfold getRepo. rewrite Htruthy. cbn [negb parseUrl first_match].
  rewrite (exec_anchored re_github_url _ _ eq_refl). now rewrite Hres.
Qed.

Lemma getRepo_github_url_witness :
  repository_ref
    (Some ("git+https" +:+ "://github"
           +:+ String "." ("com/" +:+ "ocavue" +:+ "/" +:+ "addon" +:+ ".git")))
  = Some (mkRepositoryRef "ocavue" "addon")
  /\ repository_ref
       (Some ("https" +:+ "://github"
              +:+ String "x" ("com/" +:+ "o" +:+ "/" +:+ "r" +:+ "/tree/main")))
     = Some (mkRepositoryRef "o" "r").
Proof.
  split.
  - apply (getRepo_github_url "git+https" "." "ocavue" "addon" ".git");
      first [discriminate | reflexivity
            | (cbn; tauto)
            | (right; right; exists ""; split; [reflexivity | exact I])].
  - apply (getRepo_github_url "https" "x" "o" "r" "/tree/main");
      first [discriminate | reflexivity
            | (cbn; tauto)
            | (right; left; exists "tree/main"; reflexivity)].
Defined.

(** Two ways to cut a string before the first character that fails [p]
    are the same. *)
Lemma split_unique (p : ascii -> bool) (u u' : string) (a a' : ascii) (v v' : string) :
  str_forall p u = true -> str_forall p u' = true ->
  p a = false -> p a' = false ->
  u +:+ String a v = u' +:+ String a' v' ->
  u = u' /\ a = a' /\ v = v'.
Proof.
  revert u'. induction u as [|x u IH]; intros [|x' u'] Hu Hu' Ha Ha' H;
    simpl in *.
  - injection H as -> ->. auto.
  - injection H as -> _. apply andb_prop in Hu' as [Hx _]. congruence.
  - injection H as -> _. apply andb_prop in Hu as [Hx _]. congruence.
  - injection H as -> H. apply andb_prop in Hu as [_ Hu], Hu' as [_ Hu'].
    destruct (IH u' Hu Hu' Ha Ha' H) as (-> & -> & ->). auto.
Qed.

Lemma char_eq_t_word d : char_eq true d "t" = true -> is_word_char d = true.
Proof.
  destruct d as [[] [] [] [] [] [] [] []]; intros H;
    first [reflexivity | discriminate H].
Qed.

(** How the first pattern may end after the name. *)
Lemma url_end_inv pos prev (v : string) caps st :
  rmatch true (alts [Char "/"; Seq (lit ".git") WordBoundary; Eol])
    (MState pos prev v caps) Some = Some st ->
  v = ""
  \/ (exists t, v = String "/" t)
  \/ (exists t, v = String "." t /\ git_at_word_end t).
Proof.
  cbn [alts lit rmatch]. unfold eat. cbn [m_rest m_pos m_caps m_prev].
  destruct v as [|a v]; [auto|].
  destruct (char_eq true a "/") eqn:Hslash.
  { rewrite char_eq_slash in Hslash. apply Ascii.eqb_eq in Hslash as ->. eauto. }
  destruct (char_eq true a ".") eqn:Hdot; [|discriminate].
  rewrite char_eq_dot in Hdot. apply Ascii.eqb_eq in Hdot as ->.
  destruct v as [|b v]; [discriminate|].
  destruct (char_eq true b "g") eqn:Hg; [|discriminate].
  destruct v as [|c v]; [discriminate|].
  destruct (char_eq true c "i") eqn:Hi; [|discriminate].
  destruct v as [|d v]; [discriminate|].
  destruct (char_eq true d "t") eqn:Ht; [|discriminate].
  cbn [m_prev is_word next_char m_rest]. rewrite (char_eq_t_word d Ht).
  intros H. right; right. eexists. split; [reflexivity|].
  exists b, c, d, v. repeat split; try assumption.
  destruct v as [|e v]; [exact I|].
  unfold next_char in H. cbn [m_rest is_word] in H. cbn.
  destruct (is_word_char e); [discriminate | reflexivity].
Qed.

(** The tail of the first pattern does not match a name that is followed by
    a dot and something other than [git] at a word boundary. *)
Lemma url_tail_dotted (o n ext : string) pos prev caps :
  has_char "/" o = false ->
  has_char "/" n = false -> has_char "." n = false ->
  ~ git_at_word_end ext ->
  rmatch true url_tail_pattern
    (MState pos prev (o +:+ "/" +:+ n +:+ "." +:+ ext) caps) Some = None.
Proof.
  intros Hos Hns Hnd Hext.
  destruct (rmatch true url_tail_pattern _ Some) as [st|] eqn:H; [|reflexivity].
  exfalso.
  change (rmatch true url_tail_pattern
            (MState pos prev (o +:+ "/" +:+ n +:+ "." +:+ ext) caps) Some)
    with (rmatch true (Plus (NotSet ["/"%char]))
            (MState pos prev (o +:+ "/" +:+ n +:+ "." +:+ ext) caps)
            (fun st1 =>
               rmatch true
                 (Seq (Char "/")
                    (Seq (Group 2 (Plus (NotSet ["/"%char; "."%char])))
                       (alts [Char "/"; Seq (lit ".git") WordBoundary; Eol])))
                 (set_capture 1 (MState pos prev (o +:+ "/" +:+ n +:+ "." +:+ ext) caps)
                    st1) Some)) in H.
  apply rmatch_plus_class_inv in H as (u1 & v1 & _ & Hsplit1 & Hall1 & Hk).
  cbn [rmatch] in Hk. unfold eat at 1 in Hk.
  unfold set_capture at 1 in Hk. cbn [m_rest m_pos m_caps m_prev] in Hk.
  destruct v1 as [|a v1]; [discriminate|].
  destruct (char_eq true a "/") eqn:Ha; [|discriminate].
  rewrite char_eq_slash in Ha. apply Ascii.eqb_eq in Ha as ->.
  destruct (split_unique (fun c => negb (in_set true ["/"%char] c))
              o u1 "/" "/" (n +:+ "." +:+ ext) v1)
    as (<- & _ & <-); [now apply slash_class | assumption | reflexivity..
                      | exact Hsplit1 |].
  match type of Hk with
  | ?lhs = _ =>
      match lhs with
      | context [MState ?p ?pr (n +:+ "." +:+ ext) ?cp] =>
          change lhs
            with (rmatch true (Plus (NotSet ["/"%char; "."%char]))
                    (MState p pr (n +:+ "." +:+ ext) cp)
                    (fun st3 =>
                       rmatch true
                         (alts [Char "/"; Seq (lit ".git") WordBoundary; Eol])
                         (set_capture 2 (MState p pr (n +:+ "." +:+ ext) cp) st3)
                         Some)) in Hk
      end
  end.
  apply rmatch_plus_class_inv in Hk as (u2 & v2 & _ & Hsplit2 & Hall2 & Hend).
  unfold set_capture in Hend. cbn [m_rest m_pos m_caps m_prev] in Hend.
  apply url_end_inv in Hend as [-> | [[t ->] | (t & -> & Hgit)]].
  - rewrite append_nil_r in Hsplit2. subst u2.
    rewrite !str_forall_append in Hall2. simpl in Hall2.
    rewrite andb_false_r in Hall2. discriminate.
  - destruct (split_unique (fun c => negb (in_set true ["/"%char; "."%char] c))
                n u2 "." "/" ext t)
      as (_ & Hne & _); [now apply url_name_class | assumption | reflexivity..
                        | exact Hsplit2 | discriminate].
  - destruct (split_unique (fun c => negb (in_set true ["/"%char; "."%char] c))
                n u2 "." "." ext t)
      as (_ & _ & ->); [now apply url_name_class | assumption | reflexivity..
                       | exact Hsplit2 |].
    contradiction.
Qed.

(** X14. A URL whose name is followed by a dot is not recognised unless the
    dot starts [.git] at a word boundary: for every scheme and owner,
    [scheme://github.com/o/n.ext] matches no pattern when [ext] is not
    [git] followed by the end or by a non-word character.  So a repository
    whose name contains a dot cannot be given in URL form. *)
Theorem getRepo_url_dotted_name (scheme : string) (c : ascii) (o n ext : string) :
  In scheme schemes -> is_line_terminator c = false ->
  has_char "/" o = false ->
  has_char "/" n = false -> has_char "." n = false ->
  ~ git_at_word_end ext ->
  getRepo
    (Some (scheme +:+ "://github"
           +:+ String c ("com/" +:+ o +:+ "/" +:+ n +:+ "." +:+ ext)))
  = None.
Proof.
  intros Hin Hc Hos Hns Hnd Hext.
  assert (Hfirst : exec re_github_url
            (scheme +:+ "://github"
             +:+ String c ("com/" +:+ o +:+ "/" +:+ n +:+ "." +:+ ext)) = None).
  { rewrite (exec_anchored re_github_url _ _ eq_refl). unfold match_at.
    change (ignoreCase re_github_url) with true.
    rewrite source_github_url, url_head by assumption.
    now rewrite url_tail_dotted. }
  unfold schemes in Hin. cbn [In] in Hin.
  destruct Hin as [<- | [<- | [<- | [<- | [<- | [<- | []]]]]]];
    unfold getRepo;
    match goal with
    | |- context [JS.truthy (Some ?s)] => change (JS.truthy (Some s)) with true
    end;
    cbn [negb parseUrl first_match]; rewrite Hfirst;
    rewrite (exec_anchored re_github_short _ _ eq_refl);
    rewrite (exec_anchored re_bare _ _ eq_refl); reflexivity.
Qed.

Lemma getRepo_url_dotted_name_witness :
  getRepo
    (Some ("https" +:+ "://github"
           +:+ String "." ("com/" +:+ "socketio" +:+ "/" +:+ "socket" +:+ "." +:+ "io")))
  = None.
Proof.
  apply (getRepo_url_dotted_name "https" "." "socketio" "socket" "io");
    first [reflexivity | (cbn; tauto) | idtac].
  intros (a & b & c & t & H & _). discriminate H.
Defined.

(** ** What a run consists of *)

Lemma Forall_requests (P : event -> Prop) (t : list event) :
  (forall url, P (HttpGet url)) -> forallb is_request t = true -> Forall P t.
Proof.
  intros HP. induction t as [|e t IH]; [constructor|].
  cbn [forallb]. intros H. apply andb_prop in H as [He H].
  constructor; [|auto]. destruct e; try discriminate. apply HP.
Qed.

Section Events.

Variables (w : World) (g : Globals) (fuel : nat) (env : gmap string string).
Variable P : event -> Prop.

Hypothesis P_log : forall msg, P (Log msg).
Hypothesis P_get : forall url, P (HttpGet url).
Hypothesis P_mkdir : forall ok, P (Mkdir (path_dirname w (artifactPath g)) ok).
Hypothesis P_write :
  fs_mkdir w (path_dirname w (artifactPath g)) = true ->
  forall data ok, P (WriteFile (artifactPath g) data ok).
Hypothesis P_verify :
  forall cmd p, In cmd verification_commands ->
    P (Exec cmd (JS.truthy (env !! "DEVELOPMENT_SHOW_VERIFICATION_RESULTS")) p).
Hypothesis P_rebuild : forall p, P (Exec "npm run rebuild" true p).

Lemma try_codec_events codec url : Forall P (fst (try_codec w g fuel codec url)).
Proof.
  unfold try_codec, write, decompress.
  pose proof (Forall_requests P _ P_get (get_only_requests w fuel url)) as Hreq.
  destruct (get w fuel url) as [t p]. cbn [fst snd] in *.
  destruct p as [[b|] | e | ]; async_simpl;
    [destruct (codec b) as [data|]; async_simpl;
     [destruct (fs_mkdir w (path_dirname w (artifactPath g))) eqn:Hmk; async_simpl;
      [destruct (fs_writeFile w (artifactPath g) data); async_simpl| ]| ]
    | | | ];
    rewrite ?List.app_nil_r;
    repeat first [apply Forall_cons; split | apply Forall_app; split
                 | apply Forall_nil_2];
    auto.
Qed.

Lemma copy_events prefix : Forall P (fst (copy w g fuel prefix)).
Proof.
  unfold copy.
  destruct (zlib_brotliDecompress w) as [br|].
  - pose proof (try_codec_events br (prefix +:+ ".br")) as Hbr.
    destruct (try_codec w g fuel br (prefix +:+ ".br")) as [t1 p1].
    cbn [fst snd] in *. unfold bind. cbn [fst snd].
    destruct p1 as [copied | e | ]; [|assumption..].
    destruct (zlib_gunzip w) as [gz|]; cbn [fst snd ret];
      [|now rewrite List.app_nil_r].
    destruct copied; cbn [negb fst snd ret]; [now rewrite List.app_nil_r|].
    apply Forall_app. split; [assumption | apply try_codec_events].
  - async_simpl. destruct (zlib_gunzip w) as [gz|]; cbn [fst snd ret negb];
      [apply try_codec_events | constructor].
Qed.

Lemma isVerified_events : Forall P (fst (isVerified w env)).
Proof.
  unfold isVerified, run.
  destruct (JS.truthy (env !! "npm_package_scripts_verify_build")).
  - cbn [negb orb].
    destruct (snd (fold_left on_child_event _ _)); async_simpl;
      repeat (apply Forall_cons; split); try apply Forall_nil_2; auto;
      apply P_verify; cbn; auto.
  - destruct (JS.truthy (env !! "npm_package_scripts_test")).
    + cbn [negb orb].
      destruct (snd (fold_left on_child_event _ _)); async_simpl;
        repeat (apply Forall_cons; split); try apply Forall_nil_2; auto;
        apply P_verify; cbn; auto.
    + async_simpl. repeat constructor. apply P_log.
Qed.

Lemma download_events prefix : Forall P (fst (download w g fuel env prefix)).
Proof.
  unfold download.
  pose proof (copy_events prefix) as Hc.
  destruct (copy w g fuel prefix) as [tc pc]. cbn [fst snd] in *.
  unfold bind at 1. cbn [fst snd].
  destruct pc as [copied | e | ]; [|assumption..].
  destruct copied; cbn [fst snd ret]; [|now rewrite List.app_nil_r].
  apply Forall_app. split; [assumption|].
  pose proof isVerified_events as Hv.
  destruct (isVerified w env) as [tv pv]. cbn [fst snd] in *.
  unfold bind at 1. cbn [fst snd].
  destruct pv as [[|] | e | ]; async_simpl; rewrite ?List.app_nil_r;
    try assumption.
  apply Forall_app. split; [assumption|]. repeat constructor. apply P_log.
Qed.

Lemma checks_events : Forall P (fst (checks w g fuel env)).
Proof.
  destruct (checks_cases w g fuel env) as [(msg & -> & _) | (prefix & _ & _ & _ & ->)].
  - repeat constructor. apply P_log.
  - apply download_events.
Qed.

Lemma fallback_events : Forall P (fst (fallback w env)).
Proof.
  destruct (fallback_spec w g env) as (-> & _).
  repeat constructor; [apply P_log | apply P_rebuild].
Qed.

End Events.

(** Every event of a run is a log line, a request, the creation of the
    artifact's directory, a write of the artifact after that directory was
    created, a verification command with its output shown as the environment
    says, or the rebuild with its output shown. *)
Lemma main_events (w : World) (g : Globals) (fuel : nat) (P : event -> Prop) :
  (forall msg, P (Log msg)) ->
  (forall url, P (HttpGet url)) ->
  (forall ok, P (Mkdir (path_dirname w (artifactPath g)) ok)) ->
  (fs_mkdir w (path_dirname w (artifactPath g)) = true ->
   forall data ok, P (WriteFile (artifactPath g) data ok)) ->
  (forall cmd p, In cmd verification_commands ->
     P (Exec cmd (JS.truthy (main_env w !! "DEVELOPMENT_SHOW_VERIFICATION_RESULTS")) p)) ->
  (forall p, P (Exec "npm run rebuild" true p)) ->
  Forall P (fst (main w g fuel)).
Proof.
  intros Hlog Hget Hmkdir Hwrite Hverify Hrebuild.
  pose proof (fallback_events w g (main_env w) P Hlog Hrebuild) as Hf.
  pose proof (checks_events w g fuel (main_env w) P Hlog Hget Hmkdir Hwrite Hverify)
    as Hc.
  destruct (main_unfold w g fuel) as [[_ ->] | [_ ->]].
  - destruct (checks w g fuel (main_env w)) as [tc pc]. cbn [fst] in Hc.
    unfold bind. cbn [fst snd].
    destruct pc as [[|] | e | ]; cbn [fst after_checks ret];
      rewrite ?List.app_nil_r; try assumption.
    apply Forall_app. auto.
  - cbn [fst]. apply Forall_cons. auto.
Qed.

(** The variables that [main] does not assign keep the value the process
    was started with. *)
Lemma main_env_lookup (w : World) (k : string) :
  ~ In k ["npm_package_json"; "npm_package_github"; "npm_package_repository_type";
          "npm_package_repository_url"; "npm_package_version";
          "npm_package_scripts_verify_build"; "npm_package_scripts_test"] ->
  main_env w !! k = process_env w !! k.
Proof.
  intros Hk. cbn [In] in Hk.
  assert (Hloc : locate_package_json w (process_env w) !! k = process_env w !! k)
    by (apply locate_package_json_lookup; intros ->; tauto).
  unfold main_env, read_package.
  destruct (JS.truthy _ && _); [|exact Hloc].
  destruct (fs_readPackage w _) as [pkg|]; cbn [snd fst ret log emit bind];
    [|exact Hloc].
  unfold populate. rewrite !lookup_insert_ne by (intros <-; tauto). exact Hloc.
Qed.

(** X15. The only directory a run creates is the one of the artifact, the
    only file it writes is the artifact, and it writes the file only when
    the directory could be created. *)
Theorem main_touches_only_the_artifact (w : World) (g : Globals) (fuel : nat) :
  Forall (artifact_only w g) (fst (main w g fuel)).
Proof.
  apply main_events; cbn [artifact_only]; auto.
Qed.

(** X16. The output of the rebuild command is always shown; the output of
    a verification command is shown exactly when
    [DEVELOPMENT_SHOW_VERIFICATION_RESULTS] is set to a non-empty value in
    the environment the process was started with. *)
Theorem main_shows_output (w : World) (g : Globals) (fuel : nat) :
  Forall (piped_as (JS.truthy (process_env w !! "DEVELOPMENT_SHOW_VERIFICATION_RESULTS")))
         (fst (main w g fuel)).
Proof.
  rewrite <- (main_env_lookup w "DEVELOPMENT_SHOW_VERIFICATION_RESULTS")
    by (cbn [In]; intros H; decompose [or] H; try discriminate; assumption).
  apply main_events; cbn [piped_as]; auto.
  intros cmd p Hin. cbn [verification_commands In] in Hin.
  destruct Hin as [<- | [<- | []]]; reflexivity.
Qed.

(** X17. The commands of a run, in order: at most one verification command,
    then at most the rebuild, and nothing else.  A verification command is
    started only after an artifact was written. *)
Theorem main_commands (w : World) (g : Globals) (fuel : nat) :
  exists v r,
    commands (fst (main w g fuel)) = v ++ r
    /\ (v = [] \/ v = ["npm run verify-build"] \/ v = ["npm test"])
    /\ (r = [] \/ r = ["npm run rebuild"])
    /\ (v <> [] -> written g (fst (main w g fuel)) = true).
Proof.
  destruct (fallback_spec w g (main_env w)) as (Ft & _).
  assert (Fc : commands (fst (fallback w (main_env w))) = ["npm run rebuild"])
    by (rewrite Ft; reflexivity).
  destruct (download_stage w g) as [prefix|] eqn:Hstage.
  2: { destruct (main_without_download w g fuel Hstage) as [msg ->].
       exists [], ["npm run rebuild"]. cbn [fst].
       rewrite commands_cons, Fc. repeat split; auto; congruence. }
  rewrite (main_with_download w g fuel prefix Hstage).
  destruct (copy_spec w g fuel prefix) as (_ & _ & Cc & _).
  destruct (isVerified_spec w g (main_env w)) as (_ & _ & _ & _ & Vc & _).
  assert (Hv : commands (fst (isVerified w (main_env w))) = []
               \/ commands (fst (isVerified w (main_env w))) = ["npm run verify-build"]
               \/ commands (fst (isVerified w (main_env w))) = ["npm test"]).
  { rewrite Vc. unfold spec_verification_command.
    destruct (JS.truthy _); [auto|]. destruct (JS.truthy _); auto. }
  destruct (download_cases w g fuel (main_env w) prefix) as
    [(_ & Hw & Ht & Hd) | (Hw & Ht & Hd)];
    destruct (download w g fuel (main_env w) prefix) as [td pd];
    cbn [fst snd] in *; subst td.
  - subst pd. unfold bind.
    destruct (snd (isVerified w (main_env w))) as [[|] | e | ];
      cbn [fst snd after_checks ret]; autorewrite with readers;
      cbn [commands omap]; rewrite ?Cc, ?Fc, ?Hw; cbn [app].
    + exists (commands (fst (isVerified w (main_env w)))), [].
      rewrite List.app_nil_r. auto.
    + exists (commands (fst (isVerified w (main_env w)))), ["npm run rebuild"]. auto.
    + exists (commands (fst (isVerified w (main_env w)))), [].
      rewrite List.app_nil_r. auto.
    + exists (commands (fst (isVerified w (main_env w)))), [].
      rewrite List.app_nil_r. auto.
  - destruct Hd as [[_ ->] | [_ ->]]; unfold bind; cbn [fst snd after_checks].
    + exists [], ["npm run rebuild"]. autorewrite with readers.
      rewrite Cc, Fc. repeat split; auto; congruence.
    + exists [], []. rewrite Cc. repeat split; auto; congruence.
Qed.

(** An attempt that fails at one of its steps leaves [copied] false. *)
Lemma try_codec_fails (w : World) (g : Globals) (fuel : nat)
    (codec : bytes -> option bytes) (url : string) :
  attempt_fails w g fuel codec url ->
  snd (try_codec w g fuel codec url) = Fulfilled false.
Proof.
  unfold attempt_fails, try_codec, write, decompress.
  destruct (get w fuel url) as [t p]. cbn [fst snd].
  intros [[e ->] | [-> | (b & -> & H)]]; [reflexivity..|].
  async_simpl. destruct (codec b) as [data|]; [|reflexivity].
  async_simpl. destruct (fs_mkdir w _); [|reflexivity].
  async_simpl. destruct H as [H | ->]; [discriminate | reflexivity].
Qed.

(** X18. When the brotli attempt fails at any of its steps (the fetch is
    rejected, the body is empty, the data do not decompress, or the
    directory or the file cannot be written) the failure is dropped and the
    gzip asset is tried next: the run opens the gzip attempt, and its
    requests are those of the brotli fetch followed by those of the gzip
    fetch. *)
Theorem gzip_after_failed_brotli
    (w : World) (g : Globals) (fuel : nat) (prefix : string)
    (br gz : bytes -> option bytes) :
  download_stage w g = Some prefix ->
  zlib_brotliDecompress w = Some br ->
  zlib_gunzip w = Some gz ->
  attempt_fails w g fuel br (prefix +:+ ".br") ->
  In (trying (prefix +:+ ".gz")) (fst (main w g fuel))
  /\ requests (fst (main w g fuel))
     = fst (get w fuel (prefix +:+ ".br")) ++ fst (get w fuel (prefix +:+ ".gz")).
Proof.
  intros Hstage Hbr Hgz Hfail.
  destruct (main_after_copy w g fuel prefix Hstage) as (rest & -> & _ & Hreq).
  apply try_codec_fails in Hfail.
  assert (Hcopy : fst (copy w g fuel prefix)
                  = fst (try_codec w g fuel br (prefix +:+ ".br"))
                    ++ fst (try_codec w g fuel gz (prefix +:+ ".gz"))).
  { unfold copy. rewrite Hbr, Hgz. unfold bind at 1. rewrite Hfail. reflexivity. }
  rewrite Hcopy. split.
  - destruct (try_codec_spec w g fuel gz (prefix +:+ ".gz"))
      as (_ & _ & _ & _ & (t & -> & _) & _).
    apply in_or_app. left. apply in_or_app. right. now left.
  - rewrite !requests_app, Hreq, !try_codec_requests. apply List.app_nil_r.
Qed.

Lemma gzip_after_failed_brotli_witness :
  requests (fst (main (sample_world sample_env glibc_spawn gzip_only passing)
                      sample_globals 3))
  = [HttpGet "https://github.com/o/r/releases/download/1.0.0/linux-x64-115.br";
     HttpGet "https://github.com/o/r/releases/download/1.0.0/linux-x64-115.gz"].
Proof.
  assert (Hstage :
    download_stage (sample_world sample_env glibc_spawn gzip_only passing)
                   sample_globals
    = Some "https://github.com/o/r/releases/download/1.0.0/linux-x64-115")
    by (vm_compute; reflexivity).
  apply (proj2 (gzip_after_failed_brotli
                  (sample_world sample_env glibc_spawn gzip_only passing)
                  sample_globals 3 _ (fun b => Some b) (fun b => Some b)
                  Hstage eq_refl eq_refl
                  (or_introl (ex_intro _ (StatusError 404 _) eq_refl)))).
Defined.

(** ** The check of the path of [package.json] (line 148) *)

(** A match at a later index is found by the search, unless an earlier one
    is. *)
Lemma exec_from_later (re : RegExp) (u v : string) :
  forall pos prev,
    match_at re (pos + String.length u) (last_char u prev) v <> None ->
    exec_from re pos prev (u +:+ v) <> None.
Proof.
  induction u as [|a u IH]; intros pos prev H.
  - cbn [String.length last_char String.append] in *.
    rewrite Nat.add_0_r in H.
    destruct v; cbn [exec_from]; destruct (match_at re pos prev _); congruence.
  - cbn [String.append exec_from].
    destruct (match_at re pos prev _); [discriminate|].
    apply IH. cbn [String.length last_char] in H.
    now rewrite Nat.add_succ_r in H.
Qed.

(** What the search finds is a match at some index. *)
Lemma exec_from_found (re : RegExp) (s : string) :
  forall pos prev,
    exec_from re pos prev s <> None ->
    exists u v, s = u +:+ v
      /\ match_at re (pos + String.length u) (last_char u prev) v <> None.
Proof.
  induction s as [|a s IH]; intros pos prev H.
  - exists "", "". cbn [String.length last_char String.append exec_from] in *.
    rewrite Nat.add_0_r. split; [reflexivity|].
    destruct (match_at re pos prev ""); congruence.
  - cbn [exec_from] in H.
    destruct (match_at re pos prev (String a s)) eqn:Hm.
    + exists "", (String a s). cbn [String.length last_char String.append].
      rewrite Nat.add_0_r, Hm. split; [reflexivity | discriminate].
    + destruct (IH _ _ H) as (u & v & -> & Hv).
      exists (String a u), v. cbn [String.length last_char String.append].
      rewrite Nat.add_succ_r. auto.
Qed.

Lemma char_eq_p_word a : char_eq true a "p" = true -> is_word_char a = true.
Proof.
  destruct a as [[] [] [] [] [] [] [] []]; intros H;
    first [reflexivity | discriminate H].
Qed.

(** The pattern matches at an index exactly when what is left of the input
    is [package.json] up to case and the character before it, if any, is
    not a word character. *)
Lemma match_at_package_json pos prev (t : string) :
  match_at re_package_json pos prev t <> None
  <-> eq_icase t "package.json" = true /\ is_word prev = false.
Proof.
  unfold match_at.
  change (ignoreCase re_package_json) with true.
  change (source re_package_json)
    with (seqs [WordBoundary; lit "package"; Char "."; lit "json"; Eol]).
  cbn [seqs lit rmatch]. unfold next_char, eat. cbn [m_rest m_prev m_pos m_caps].
  destruct t as [|a t]; [cbn; split; [|intros [[=] _]]|].
  { destruct (xorb _ _); cbn; intros H; exfalso; apply H; reflexivity. }
  cbn [eq_icase is_word].
  destruct (char_eq true a "p") eqn:Ha.
  2: { split; [|intros [[=] _]]. destruct (xorb _ _); cbn; intros H; exfalso; apply H; reflexivity. }
  rewrite (char_eq_p_word a Ha). cbn [andb].
  destruct (is_word prev); cbn [xorb negb].
  { split; [cbn; intros H; exfalso; apply H; reflexivity | intros [_ [=]]]. }
  do 11 (destruct t as [|? t];
         [split; [cbn; intros H; exfalso; apply H; reflexivity | intros [[=] _]]|];
         cbn [eq_icase];
         match goal with
         | |- context [char_eq true ?x ?c] =>
             destruct (char_eq true x c);
             [cbn [andb]
             |split; [cbn; intros H; exfalso; apply H; reflexivity | intros [[=] _]]]
         end).
  destruct t; cbn [eq_icase]; split; try discriminate; auto.
  intros [[=] _].
Qed.

(** X19. The test of line 148 holds exactly for the paths that end in
    [package.json], in any case, with the start of the path or a character
    other than a letter, a digit or [_] before it: [a/package.json] and
    [PACKAGE.JSON] pass, [a/mypackage.json] and [package.json5] do not. *)
Theorem package_json_path_check (s : string) :
  test re_package_json s = true
  <-> exists u t, s = u +:+ t
        /\ eq_icase t "package.json" = true
        /\ is_word (last_char u None) = false.
Proof.
  unfold test, exec. split.
  - intros H.
    destruct (exec_from_found re_package_json s 0 None) as (u & t & -> & Hm).
    { destruct (exec_from _ _ _ _); [discriminate | congruence]. }
    apply match_at_package_json in Hm. eauto.
  - intros (u & t & -> & Ht & Hu).
    pose proof (exec_from_later re_package_json u t 0 None) as H.
    destruct (exec_from _ _ _ _); [reflexivity|].
    contradiction H; [|reflexivity].
    apply match_at_package_json. auto.
Qed.

(** ** [package.json] and the environment *)

Lemma test_package_json_truthy (path : string) :
  test re_package_json path = true -> JS.truthy (Some path) = true.
Proof. destruct path; [discriminate | reflexivity]. Qed.

(** When [package.json] is read, the environment of the run is the one the
    file gives. *)
Lemma main_env_of_package (w : World) (path : string) (pkg : Package) :
  locate_package_json w (process_env w) !! "npm_package_json" = Some path ->
  test re_package_json path = true ->
  fs_readPackage w path = Some pkg ->
  main_env w = populate pkg (locate_package_json w (process_env w))
  /\ package_ok w = true.
Proof.
  intros Hpath Htest Hread. unfold main_env, package_ok, read_package.
  rewrite Hpath, (test_package_json_truthy path Htest).
  cbn [JS.interpolate andb]. rewrite Htest, Hread. split; reflexivity.
Qed.

(** X20. When [package.json] is found and read, the repository comes from
    the file and not from the variables the process inherited: if the file
    has no [github] field and no [repository] of type [git] with a [url],
    the run finds no repository, makes no request and builds locally,
    whatever [npm_package_github] and [npm_package_repository_url] say in
    the environment. *)
Theorem package_json_overrides_environment
    (w : World) (g : Globals) (fuel : nat) (path : string) (pkg : Package) :
  locate_package_json w (process_env w) !! "npm_package_json" = Some path ->
  test re_package_json path = true ->
  fs_readPackage w path = Some pkg ->
  JS.truthy (pkg_github pkg) = false ->
  pkg_repository_type pkg <> Some "git"
  \/ JS.truthy (pkg_repository_url pkg) = false ->
  getAssetUrlPrefix w g (main_env w) = None
  /\ requests (fst (main w g fuel)) = []
  /\ commands (fst (main w g fuel)) = ["npm run rebuild"].
Proof.
  intros Hpath Htest Hread Hgithub Hrepo.
  destruct (main_env_of_package w path pkg Hpath Htest Hread) as [Henv Hok].
  assert (Hurl : getRepo (repository_url (main_env w)) = None).
  { rewrite Henv. unfold repository_url, populate.
    rewrite !lookup_insert_ne by discriminate. rewrite lookup_insert_eq.
    rewrite !lookup_insert_ne by discriminate. rewrite lookup_insert_eq.
    rewrite !lookup_insert_ne by discriminate. rewrite lookup_insert_eq.
    assert (Hg : JS.truthy (Some (JS.or_empty (pkg_github pkg))) = false).
    { unfold JS.or_empty, JS.or. now rewrite Hgithub. }
    unfold JS.or. rewrite Hg. unfold git_and.
    destruct (String.eqb (JS.or_empty (pkg_repository_type pkg)) "git") eqn:Ht;
      [|reflexivity].
    apply String.eqb_eq in Ht.
    destruct Hrepo as [Hrepo | Hrepo].
    - exfalso. apply Hrepo. unfold JS.or_empty, JS.or in Ht.
      destruct (JS.truthy (pkg_repository_type pkg)); [|discriminate].
      destruct (pkg_repository_type pkg); [now subst | discriminate].
    - unfold JS.or_empty, JS.or. now rewrite Hrepo. }
  assert (Hprefix : getAssetUrlPrefix w g (main_env w) = None)
    by (unfold getAssetUrlPrefix; now rewrite Hurl).
  split; [exact Hprefix|].
  assert (Hstage : download_stage w g = None).
  { unfold download_stage. rewrite Hprefix. now destruct (_ && _). }
  destruct (main_without_download w g fuel Hstage) as [msg ->].
  destruct (fallback_spec w g (main_env w)) as (Ft & _).
  cbn [fst]. rewrite Ft. split; reflexivity.
Qed.

Lemma package_json_overrides_environment_witness :
  process_env package_world !! "npm_package_github" = Some "o/r"
  /\ requests (fst (main package_world sample_globals 3)) = [].
Proof.
  split; [reflexivity|].
  assert (Hpath : locate_package_json package_world (process_env package_world)
                    !! "npm_package_json" = Some "/proj/package.json")
    by (vm_compute; reflexivity).
  apply (proj1 (proj2 (package_json_overrides_environment
                  package_world sample_globals 3 "/proj/package.json"
                  (mkPackage None None None (Some "1.0.0") None None)
                  Hpath eq_refl eq_refl eq_refl (or_intror eq_refl)))).
Defined.

(** ** The command line *)

(** X21. Without a value for [--artifact] (the flag is missing, comes
    first, or is the last word of the command line) the script makes no
    request, writes nothing and starts the rebuild, and nothing else. *)
Theorem script_without_artifact (w : World) (g : Globals) (fuel : nat) :
  getParam w "artifact" "" = "" ->
  load w = Ok g ->
  requests (fst (script w fuel)) = []
  /\ written g (fst (script w fuel)) = false
  /\ commands (fst (script w fuel)) = ["npm run rebuild"].
Proof.
  intros Hparam Hload.
  assert (Hpath : artifactPath g = "").
  { unfold load in Hload. destruct (getPlatform w); [|discriminate].
    injection Hload as <-. exact Hparam. }
  assert (Hstage : download_stage w g = None).
  { unfold download_stage. rewrite Hpath. cbn [JS.truthy String.eqb negb].
    now rewrite andb_false_r. }
  unfold script. rewrite Hload. cbn [fst].
  destruct (main_without_download w g fuel Hstage) as [msg ->].
  destruct (fallback_spec w g (main_env w)) as (Ft & _).
  cbn [fst]. rewrite Ft. repeat split; reflexivity.
Qed.

Lemma script_without_artifact_witness :
  commands (fst (script dangling_world 3)) = ["npm run rebuild"].
Proof.
  apply (proj2 (proj2 (script_without_artifact dangling_world
                         (mkGlobals "linux" "" "" "" "" "DOWNLOAD_HOST") 3
                         eq_refl eq_refl))).
Defined.
